(** * The AppBundle controller of kealm, embedded in Rocq

    Source: [controllers/appbundle_controller.go].

    The controller is a Go program that talks to three external stores
    (the AppBundle store behind [client.Client], the PlacementDecision
    lister and the ManifestWork API behind [WorkClient]).  The embedding
    keeps the following from the Go program:

    - Go maps are references: a label map lives in a heap of maps and an
      object holds a pointer to it, which may be nil.  Reading a nil map
      yields "absent"; writing a nil map panics.
    - Every API call may fail.  The world carries a schedule of injected
      failures, one entry per call, so that a theorem quantified over the
      world covers every pattern of store failures.
    - Every API call is recorded in a trace, and every [klog.Infof] line in
      a log, so that "the controller does / does not call X" is a
      statement about the trace. *)

From stdpp Require Import gmap strings list.

(** ** Constants *)

(** PlacementLabel is the label to attach a placement to AppBundle *)
Definition PlacementLabel : string :=
  "cluster.open-cluster-management.io/placement".

(** OwnedLabel is the label to attach to owned manifest works *)
Definition OwnedLabel : string :=
  "cluster.open-cluster-management.io/owned-by".

(** ** Go maps and the heap holding them *)

Definition loc := nat.

(** A value of Go type [map[string]string]: nil, or a pointer to a map. *)
Definition MapRef := option loc.

(** The maps allocated so far; a pointer is an index into this list. *)
Definition Heap := list (gmap string string).

(** A map as it travels over the wire and rests in a store: nil or its
    contents. *)
Definition MapVal := option (gmap string string).

(** [v, ok := m[k]] *)
Definition map_get (h : Heap) (r : MapRef) (k : string) : option string :=
  match r with
  | None => None
  | Some l => match h !! l with
              | Some m => m !! k
              | None => None
              end
  end.

(** [m[k] = v]; [None] is Go's "assignment to entry in nil map" panic. *)
Definition map_set (h : Heap) (r : MapRef) (k v : string) : option Heap :=
  match r with
  | None => None
  | Some l => match h !! l with
              | Some m => Some (<[l := <[k := v]> m]> h)
              | None => None
              end
  end.

(** The contents behind a reference (what an encoder sends). *)
Definition map_val (h : Heap) (r : MapRef) : MapVal :=
  match r with
  | None => None
  | Some l => h !! l
  end.

(** A decoder, and DeepCopy, put the contents into a fresh map. *)
Definition map_new (h : Heap) (v : MapVal) : MapRef * Heap :=
  match v with
  | None => (None, h)
  | Some m => (Some (List.length h), h ++ [m])
  end.

(** A reference is well formed when it is nil or points into the heap. *)
Definition ref_ok (h : Heap) (r : MapRef) : Prop :=
  match r with
  | None => True
  | Some l => l < List.length h
  end.

(** ** Objects *)

(** An instant, counted from Go's zero time. *)
Definition Instant := nat.

(** [metav1.Time.IsZero]: a nil pointer or the zero instant. *)
Definition IsZero (t : option Instant) : bool :=
  match t with
  | None => true
  | Some n => Nat.eqb n 0
  end.

Record TypeMeta := mkTypeMeta {
  Kind : string;
  APIVersion : string
}.

(** [metav1.ObjectMeta], over the representation [M] of its two maps:
    [MapRef] for an object in memory, [MapVal] for an object in a store. *)
Record ObjectMeta (M : Type) := mkObjectMeta {
  Name : string;
  Namespace : string;
  UID : string;
  Labels : M;
  Annotations : M;
  Finalizers : list string;
  DeletionTimestamp : option Instant
}.
Arguments mkObjectMeta {M}.
Arguments Name {M}.
Arguments Namespace {M}.
Arguments UID {M}.
Arguments Labels {M}.
Arguments Annotations {M}.
Arguments Finalizers {M}.
Arguments DeletionTimestamp {M}.

(** A raw workload manifest. *)
Definition Manifest := string.

Record ManifestsTemplate := mkManifestsTemplate {
  Manifests : list Manifest
}.

(** [workapiv1.ManifestWorkSpec]; the AppBundle's [Spec] has the same
    type, since [generateManifest] assigns one to the other. *)
Record ManifestWorkSpec := mkManifestWorkSpec {
  Workload : ManifestsTemplate
}.

Record AppBundleOf (M : Type) := mkAppBundle {
  bMeta : ObjectMeta M;
  bSpec : ManifestWorkSpec
}.
Arguments mkAppBundle {M}.
Arguments bMeta {M}.
Arguments bSpec {M}.

Record ManifestWorkOf (M : Type) := mkManifestWork {
  mType : TypeMeta;
  mMeta : ObjectMeta M;
  mSpec : ManifestWorkSpec
}.
Arguments mkManifestWork {M}.
Arguments mType {M}.
Arguments mMeta {M}.
Arguments mSpec {M}.

Definition AppBundle := AppBundleOf MapRef.
Definition ManifestWork := ManifestWorkOf MapRef.
Definition StoredBundle := AppBundleOf MapVal.
Definition StoredWork := ManifestWorkOf MapVal.

Record ClusterDecision := mkClusterDecision {
  ClusterName : string;
  Reason : string
}.

Record PlacementDecision := mkPlacementDecision {
  pMeta : ObjectMeta MapVal;
  Decisions : list ClusterDecision
}.

(** ** Encoding, decoding and DeepCopy *)

Definition encode_meta (h : Heap) (m : ObjectMeta MapRef) : ObjectMeta MapVal :=
  mkObjectMeta (Name m) (Namespace m) (UID m)
    (map_val h (Labels m)) (map_val h (Annotations m))
    (Finalizers m) (DeletionTimestamp m).

Definition decode_meta (h : Heap) (m : ObjectMeta MapVal)
  : ObjectMeta MapRef * Heap :=
  let '(l, h1) := map_new h (Labels m) in
  let '(a, h2) := map_new h1 (Annotations m) in
  (mkObjectMeta (Name m) (Namespace m) (UID m) l a
     (Finalizers m) (DeletionTimestamp m), h2).

Definition encode_bundle (h : Heap) (b : AppBundle) : StoredBundle :=
  mkAppBundle (encode_meta h (bMeta b)) (bSpec b).

Definition decode_bundle (h : Heap) (b : StoredBundle) : AppBundle * Heap :=
  let '(m, h1) := decode_meta h (bMeta b) in
  (mkAppBundle m (bSpec b), h1).

Definition encode_work (h : Heap) (w : ManifestWork) : StoredWork :=
  mkManifestWork (mType w) (encode_meta h (mMeta w)) (mSpec w).

Definition decode_work (h : Heap) (w : StoredWork) : ManifestWork * Heap :=
  let '(m, h1) := decode_meta h (mMeta w) in
  (mkManifestWork (mType w) m (mSpec w), h1).

(** [bundle.DeepCopy()]: same fields, maps copied into fresh maps. *)
Definition DeepCopy_bundle (h : Heap) (b : AppBundle) : AppBundle * Heap :=
  decode_bundle h (encode_bundle h b).

(** [existingManifest.DeepCopy()] *)
Definition DeepCopy_work (h : Heap) (w : ManifestWork) : ManifestWork * Heap :=
  decode_work h (encode_work h w).

(** ** generateManifest *)

(** The version component of [workapiv1.GroupVersion]. *)
Definition GroupVersion_Version : string := "v1".

(** [generateManifest(bundle, namespace)].  The composite literal stores the
    bundle's own [Labels] and [Annotations] pointers in the manifest; the
    assignment [manifest.Labels[OwnedLabel] = ...] then writes through the
    shared pointer.  [None] is the nil-map panic of that assignment. *)
Definition generateManifest (bundle : AppBundle) (namespace : string)
    (h : Heap) : option (ManifestWork * Heap) :=
  let manifest :=
    mkManifestWork
      (mkTypeMeta "ManifestWork" GroupVersion_Version)
      (mkObjectMeta (Name (bMeta bundle)) (Namespace (bMeta bundle)) ""
         (Labels (bMeta bundle)) (Annotations (bMeta bundle)) [] None)
      (bSpec bundle) in
  let manifest :=
    mkManifestWork (mType manifest)
      (mkObjectMeta (Name (mMeta manifest)) namespace (UID (mMeta manifest))
         (Labels (mMeta manifest)) (Annotations (mMeta manifest))
         (Finalizers (mMeta manifest)) (DeletionTimestamp (mMeta manifest)))
      (mSpec manifest) in
  match map_set h (Labels (mMeta manifest)) OwnedLabel (UID (bMeta bundle)) with
  | None => None
  | Some h' => Some (manifest, h')
  end.

(** ** Errors *)

(** The reasons of a [StatusError] of the API machinery that the
    controller tells apart, and one for all the others. *)
Inductive StatusReason :=
  | NotFound
  | AlreadyExists
  | Conflict
  | OtherReason (msg : string).

(** A Go [error] value: an API status error or one made by [fmt.Errorf]. *)
Inductive error :=
  | StatusError (reason : StatusReason)
  | Errorf (msg : string).

(** A Go result pair [(A, error)]. *)
Inductive Result (A : Type) :=
  | Err (err : error)
  | Ok (a : A).
Arguments Err {A}.
Arguments Ok {A}.

(** [apierrors.IsNotFound] *)
Definition IsNotFound (err : error) : bool :=
  match err with
  | StatusError NotFound => true
  | _ => false
  end.

(** [apierrors.IsConflict] *)
Definition IsConflict (err : error) : bool :=
  match err with
  | StatusError Conflict => true
  | _ => false
  end.

(** [client.IgnoreNotFound]: nil on NotFound, the error otherwise. *)
Definition IgnoreNotFound (err : error) : option error :=
  if IsNotFound err then None else Some err.

(** Modelled from the spec: [IgnoreConflict] is declared in another file of
    package controllers.  Section 7 of the specification has a Conflict on
    the finalizer update "surfaced to the caller so the event is
    redelivered", and every other store error surfaced as well; so the
    helper hands the error on. *)
Definition IgnoreConflict_spec (err : error) : option error := Some err.

(** ** Label selectors *)

(** A requirement [key = value] ([selection.Equals] is the only operator
    the controller builds). *)
Record Requirement := mkRequirement {
  req_key : string;
  req_value : string
}.

(** [labels.Selector]: a conjunction of requirements; [labels.NewSelector()]
    is the empty one and matches everything. *)
Definition Selector := list Requirement.

Definition NewSelector : Selector := [].

Definition Selector_Add (s : Selector) (r : Requirement) : Selector := s ++ [r].

Definition labels_get (v : MapVal) (k : string) : option string :=
  match v with
  | None => None
  | Some m => m !! k
  end.

Definition Requirement_Matches (v : MapVal) (r : Requirement) : bool :=
  bool_decide (labels_get v (req_key r) = Some (req_value r)).

Definition Selector_Matches (s : Selector) (v : MapVal) : bool :=
  forallb (Requirement_Matches v) s.

Record ListOptions := mkListOptions {
  LabelSelector : Selector
}.

(** ** The world: three stores, injected failures, trace and log *)

Inductive Call :=
  | BundleGet (ns name : string)
  | BundleUpdate (b : StoredBundle)
  | DecisionList (ns : string) (sel : Selector)
  | WorkGet (ns name : string)
  | WorkCreate (ns : string) (w : StoredWork)
  | WorkUpdate (ns : string) (w : StoredWork)
  | WorkList (ns : string) (opts : ListOptions)
  | WorkDelete (ns name : string).

(** The [klog.Infof] lines of the controller, by format string. *)
Inductive LogLine :=
  | LogNoPlacementLabel (bundleName : string)
  | LogPlacementLabelFound (label bundleName : string)
  | LogFound (ds : list ClusterDecision)
  | LogNamespace (ns : string)
  | LogGenerating (cluster : string)
  | LogApplying (cluster : string).

Record World := mkWorld {
  bundles : list StoredBundle;        (* the AppBundle store *)
  decisions : list PlacementDecision; (* the lister's cache, in iteration order *)
  works : list StoredWork;            (* ManifestWorks of all cluster namespaces *)
  faults : list (option StatusReason);(* failure injected into the next calls *)
  trace : list Call;                  (* API calls issued, latest first *)
  logs : list LogLine                 (* log lines written, latest first *)
}.

Definition set_bundles (bs : list StoredBundle) (w : World) : World :=
  mkWorld bs (decisions w) (works w) (faults w) (trace w) (logs w).

Definition set_works (ws : list StoredWork) (w : World) : World :=
  mkWorld (bundles w) (decisions w) ws (faults w) (trace w) (logs w).

Definition set_faults (fs : list (option StatusReason)) (w : World) : World :=
  mkWorld (bundles w) (decisions w) (works w) fs (trace w) (logs w).

Definition record_call (c : Call) (w : World) : World :=
  mkWorld (bundles w) (decisions w) (works w) (faults w) (c :: trace w) (logs w).

Definition record_log (l : LogLine) (w : World) : World :=
  mkWorld (bundles w) (decisions w) (works w) (faults w) (trace w) (l :: logs w).

(** One API call: it is recorded, it takes the next entry of the failure
    schedule, and unless that entry is a failure it runs on the store. *)
Definition api {A : Type} (c : Call) (sem : World -> Result A * World)
    (w : World) : Result A * World :=
  let w := record_call c w in
  match faults w with
  | Some reason :: fs => (Err (StatusError reason), set_faults fs w)
  | None :: fs => sem (set_faults fs w)
  | [] => sem w
  end.

Definition has_key {M : Type} (ns name : string) (m : ObjectMeta M) : bool :=
  bool_decide (Namespace m = ns) && bool_decide (Name m = name).

(** *** The AppBundle store *)

Definition bundle_get (ns name : string) : World -> Result StoredBundle * World :=
  api (BundleGet ns name) (fun w =>
    match find (fun b => has_key ns name (bMeta b)) (bundles w) with
    | Some b => (Ok b, w)
    | None => (Err (StatusError NotFound), w)
    end).

(** An object whose deletion was requested and whose finalizer list is
    empty is erased by the store. *)
Definition erased (b : StoredBundle) : bool :=
  match DeletionTimestamp (bMeta b), Finalizers (bMeta b) with
  | Some _, [] => true
  | _, _ => false
  end.

Definition bundle_update (b : StoredBundle) : World -> Result unit * World :=
  api (BundleUpdate b) (fun w =>
    let key := has_key (Namespace (bMeta b)) (Name (bMeta b)) in
    if existsb (fun x => key (bMeta x)) (bundles w) then
      let bs :=
        if erased b
        then List.filter (fun x => negb (key (bMeta x))) (bundles w)
        else map (fun x => if key (bMeta x) then b else x) (bundles w) in
      (Ok tt, set_bundles bs w)
    else (Err (StatusError NotFound), w)).

(** *** The PlacementDecision lister *)

Definition decision_list (ns : string) (sel : Selector)
  : World -> Result (list PlacementDecision) * World :=
  api (DecisionList ns sel) (fun w =>
    (Ok (List.filter (fun d => bool_decide (Namespace (pMeta d) = ns)
                          && Selector_Matches sel (Labels (pMeta d)))
           (decisions w)), w)).

(** *** The ManifestWork API *)

Definition work_get (ns name : string) : World -> Result StoredWork * World :=
  api (WorkGet ns name) (fun w =>
    match find (fun x => has_key ns name (mMeta x)) (works w) with
    | Some x => (Ok x, w)
    | None => (Err (StatusError NotFound), w)
    end).

Definition work_create (ns : string) (m : StoredWork)
  : World -> Result StoredWork * World :=
  api (WorkCreate ns m) (fun w =>
    if negb (bool_decide (Namespace (mMeta m) = ns)) then
      (Err (StatusError (OtherReason "BadRequest")), w)
    else if existsb (fun x => has_key ns (Name (mMeta m)) (mMeta x)) (works w) then
      (Err (StatusError AlreadyExists), w)
    else (Ok m, set_works (works w ++ [m]) w)).

Definition work_update (ns : string) (m : StoredWork)
  : World -> Result StoredWork * World :=
  api (WorkUpdate ns m) (fun w =>
    let key := has_key ns (Name (mMeta m)) in
    if negb (bool_decide (Namespace (mMeta m) = ns)) then
      (Err (StatusError (OtherReason "BadRequest")), w)
    else if existsb (fun x => key (mMeta x)) (works w) then
      (Ok m, set_works (map (fun x => if key (mMeta x) then m else x) (works w)) w)
    else (Err (StatusError NotFound), w)).

(** The empty namespace lists the ManifestWorks of every namespace. *)
Definition work_list (ns : string) (opts : ListOptions)
  : World -> Result (list StoredWork) * World :=
  api (WorkList ns opts) (fun w =>
    (Ok (List.filter (fun x => (bool_decide (ns = "")
                           || bool_decide (Namespace (mMeta x) = ns))
                          && Selector_Matches (LabelSelector opts) (Labels (mMeta x)))
           (works w)), w)).

Definition work_delete (ns name : string) : World -> Result unit * World :=
  api (WorkDelete ns name) (fun w =>
    if existsb (fun x => has_key ns name (mMeta x)) (works w) then
      (Ok tt, set_works (List.filter (fun x => negb (has_key ns name (mMeta x))) (works w)) w)
    else (Err (StatusError NotFound), w)).

(** ** The state of one reconciliation and its monad *)

Record St := mkSt {
  world : World;
  heap : Heap
}.

(** A computation ends with a value or with a Go panic. *)
Inductive Res (A : Type) :=
  | Val (a : A)
  | Panic.
Arguments Val {A}.
Arguments Panic {A}.

Definition M (A : Type) : Type := St -> Res A * St.

Definition ret {A : Type} (a : A) : M A := fun s => (Val a, s).

Definition bind {A B : Type} (c : M A) (k : A -> M B) : M B :=
  fun s =>
    match c s with
    | (Val a, s') => k a s'
    | (Panic, s') => (Panic, s')
    end.

Notation "x <- c ;; k" := (bind c (fun x => k))
  (at level 100, c at next level, right associativity).

Definition on_world {A : Type} (f : World -> A * World) : M A :=
  fun s => let '(a, w) := f (world s) in (Val a, mkSt w (heap s)).

Definition on_heap {A : Type} (f : Heap -> A * Heap) : M A :=
  fun s => let '(a, h) := f (heap s) in (Val a, mkSt (world s) h).

(** A heap operation that may panic. *)
Definition on_heap_or_panic {A : Type} (f : Heap -> option (A * Heap)) : M A :=
  fun s =>
    match f (heap s) with
    | Some (a, h) => (Val a, mkSt (world s) h)
    | None => (Panic, s)
    end.

Definition read_heap {A : Type} (f : Heap -> A) : M A :=
  fun s => (Val (f (heap s)), s).

Definition klog_Infof (l : LogLine) : M unit :=
  on_world (fun w => (tt, record_log l w)).

(** *** The clients, as the controller calls them *)

(** [r.Get(ctx, key, &bundle)]: the answer is decoded into fresh maps. *)
Definition client_Get (ns name : string) : M (Result AppBundle) :=
  r <- on_world (bundle_get ns name) ;;
  match r with
  | Err err => ret (Err err)
  | Ok sb => b <- on_heap (fun h => decode_bundle h sb) ;; ret (Ok b)
  end.

(** [r.Update(ctx, b, opts)] *)
Definition client_Update (b : AppBundle) : M (option error) :=
  sb <- read_heap (fun h => encode_bundle h b) ;;
  r <- on_world (bundle_update sb) ;;
  ret (match r with Err err => Some err | Ok _ => None end).

(** [r.PlacementDecisionLister.PlacementDecisions(ns).List(selector)] *)
Definition PlacementDecisions_List (ns : string) (sel : Selector)
  : M (Result (list PlacementDecision)) :=
  on_world (decision_list ns sel).

(** [r.WorkClient.WorkV1().ManifestWorks(ns).Get(ctx, name, opts)] *)
Definition ManifestWorks_Get (ns name : string) : M (Result ManifestWork) :=
  r <- on_world (work_get ns name) ;;
  match r with
  | Err err => ret (Err err)
  | Ok sw => m <- on_heap (fun h => decode_work h sw) ;; ret (Ok m)
  end.

(** [ManifestWorks(ns).Create]; the controller drops the returned object
    and keeps the error. *)
Definition ManifestWorks_Create (ns : string) (m : ManifestWork) : M (option error) :=
  sw <- read_heap (fun h => encode_work h m) ;;
  r <- on_world (work_create ns sw) ;;
  ret (match r with Err err => Some err | Ok _ => None end).

(** [ManifestWorks(ns).Update]; likewise. *)
Definition ManifestWorks_Update (ns : string) (m : ManifestWork) : M (option error) :=
  sw <- read_heap (fun h => encode_work h m) ;;
  r <- on_world (work_update ns sw) ;;
  ret (match r with Err err => Some err | Ok _ => None end).

(** [ManifestWorks(ns).List(ctx, opts)].  The items stay in their wire
    form: the controller reads only their Namespace and Name. *)
Definition ManifestWorks_List (ns : string) (opts : ListOptions)
  : M (Result (list StoredWork)) :=
  on_world (work_list ns opts).

(** [ManifestWorks(ns).Delete(ctx, name, opts)] *)
Definition ManifestWorks_Delete (ns name : string) : M (option error) :=
  r <- on_world (work_delete ns name) ;;
  ret (match r with Err err => Some err | Ok _ => None end).

(** *** Finalizer helpers *)

(** Modelled from the spec: [containsString] is declared in another file of
    package controllers; the specification speaks of the finalizer being
    "present" or "absent" in the Bundle's set of finalizer tokens, so the
    helper is membership in the slice. *)
Definition containsString (slice : list string) (s : string) : bool :=
  existsb (String.eqb s) slice.

(** [controllerutil.AddFinalizer]: append unless already there. *)
Definition AddFinalizer (b : AppBundle) (finalizer : string) : AppBundle :=
  let m := bMeta b in
  if existsb (String.eqb finalizer) (Finalizers m) then b
  else mkAppBundle
         (mkObjectMeta (Name m) (Namespace m) (UID m) (Labels m) (Annotations m)
            (Finalizers m ++ [finalizer]) (DeletionTimestamp m))
         (bSpec b).

(** [controllerutil.RemoveFinalizer]: drop every occurrence. *)
Definition RemoveFinalizer (b : AppBundle) (finalizer : string) : AppBundle :=
  let m := bMeta b in
  mkAppBundle
    (mkObjectMeta (Name m) (Namespace m) (UID m) (Labels m) (Annotations m)
       (List.filter (fun f => negb (String.eqb f finalizer)) (Finalizers m))
       (DeletionTimestamp m))
    (bSpec b).

(** ** The controller *)

(** [getPlacementLabel(bundle)]: a nil result is [None]. *)
Definition getPlacementLabel (bundle : AppBundle) (h : Heap) : option string :=
  map_get h (Labels (bMeta bundle)) PlacementLabel.

(** The error of [getPlacementDecision] when nothing matches. *)
Definition ErrNoDecision (placementName : string) : error :=
  Errorf ("Could not find placement decision for placement "
            ++ placementName ++ " ").

(** [r.getPlacementDecision(placementName, placementNamespace)] *)
Definition getPlacementDecision (placementName placementNamespace : string)
  : M (Result PlacementDecision) :=
  _ <- klog_Infof (LogNamespace placementNamespace) ;;
  let pReq := mkRequirement PlacementLabel placementName in
  let selector := NewSelector in
  let selector := Selector_Add selector pReq in
  r <- PlacementDecisions_List placementNamespace selector ;;
  match r with
  | Err err => ret (Err err)
  | Ok pList =>
      match pList with
      | p0 :: _ => ret (Ok p0)
      | [] => ret (Err (ErrNoDecision placementName))
      end
  end.

(** The body of the [for ... range decision.Status.Decisions] loop of
    [scheduleBundle], over the decisions still to visit. *)
Fixpoint scheduleBundle_range (bundle : AppBundle) (decs : list ClusterDecision)
  : M (option error) :=
  match decs with
  | [] => ret None
  | dec :: rest =>
      _ <- klog_Infof (LogGenerating (ClusterName dec)) ;;
      manifest <- on_heap_or_panic (generateManifest bundle (ClusterName dec)) ;;
      _ <- klog_Infof (LogApplying (ClusterName dec)) ;;
      r <- ManifestWorks_Get (ClusterName dec) (Name (mMeta manifest)) ;;
      match r with
      | Err err =>
          if IsNotFound err then
            err <- ManifestWorks_Create (ClusterName dec) manifest ;;
            ret err
          else ret (Some err)
      | Ok existingManifest =>
          newManifest <- on_heap (fun h => DeepCopy_work h existingManifest) ;;
          let m := mMeta newManifest in
          let newManifest :=
            mkManifestWork (mType newManifest)
              (mkObjectMeta (Name m) (Namespace m) (UID m)
                 (Labels (mMeta manifest)) (Annotations (mMeta manifest))
                 (Finalizers m) (DeletionTimestamp m))
              (mSpec manifest) in
          err <- ManifestWorks_Update (ClusterName dec) newManifest ;;
          match err with
          | Some e => ret (Some e)
          | None => scheduleBundle_range bundle rest
          end
      end
  end.

(** [r.scheduleBundle(bundle, decision)] *)
Definition scheduleBundle (bundle : AppBundle) (decision : PlacementDecision)
  : M (option error) :=
  scheduleBundle_range bundle (Decisions decision).

(** The body of the [for ... range mList.Items] loop of
    [deleteAllChildManifests]. *)
Fixpoint deleteAllChildManifests_range (items : list StoredWork) : M (option error) :=
  match items with
  | [] => ret None
  | m :: rest =>
      err <- ManifestWorks_Delete (Namespace (mMeta m)) (Name (mMeta m)) ;;
      match err with
      | Some e => ret (Some e)
      | None => deleteAllChildManifests_range rest
      end
  end.

(** [r.deleteAllChildManifests(bundle)].  The selector on the owner's UID is
    built, as in the source, and the listing is made with empty
    [ListOptions]. *)
Definition deleteAllChildManifests (bundle : AppBundle) : M (option error) :=
  let req := mkRequirement OwnedLabel (UID (bMeta bundle)) in
  let selector := NewSelector in
  let selector := Selector_Add selector req in
  r <- ManifestWorks_List "" (mkListOptions []) ;;
  match r with
  | Err err => ret (Some err)
  | Ok mList => deleteAllChildManifests_range mList
  end.

(** [ctrl.Request]: the namespaced name of the Bundle to reconcile. *)
Record Request := mkRequest {
  req_Namespace : string;
  req_Name : string
}.

(** The statements of [Reconcile] that follow the if/else on the deletion
    timestamp (from [var pLabel *string] to the end of the function):
    placement resolution and convergence.  Both branches of the
    not-being-deleted case fall through to them. *)
Definition Reconcile_placement (bundle : AppBundle) (req : Request) : M (option error) :=
  pLabel <- read_heap (getPlacementLabel bundle) ;;
  match pLabel with
  | None =>
      _ <- klog_Infof (LogNoPlacementLabel (Name (bMeta bundle))) ;;
      ret None
  | Some l =>
      _ <- klog_Infof (LogPlacementLabelFound l (Name (bMeta bundle))) ;;
      r <- getPlacementDecision l (req_Namespace req) ;;
      match r with
      | Err err => ret (Some err)
      | Ok placementDec =>
          _ <- klog_Infof (LogFound (Decisions placementDec)) ;;
          (* schedule only non-empty bundles *)
          if Nat.ltb 0 (List.length (Manifests (Workload (bSpec bundle)))) then
            err <- scheduleBundle bundle placementDec ;;
            match err with
            | Some e => ret (Some e)
            | None => ret None
            end
          else ret None
      end
  end.

Section Controller.

(** The finalizer token, a constant declared in another file of the
    package; the development holds for every value of it. *)
Variable DeployFinalizer : string.

(** [IgnoreConflict], declared in another file of the package, is a
    parameter of the controller. *)
Variable IgnoreConflict : error -> option error.

(** [r.Reconcile(ctx, req)].  The [ctrl.Result] returned is always the
    empty one, so the result is the error alone. *)
Definition Reconcile (req : Request) : M (option error) :=
  r <- client_Get (req_Namespace req) (req_Name req) ;;
  match r with
  | Err err => ret (IgnoreNotFound err)
  | Ok bundle =>
      b <- on_heap (fun h => DeepCopy_bundle h bundle) ;;
      (* examine DeletionTimestamp to determine if object is under deletion *)
      if IsZero (DeletionTimestamp (bMeta bundle)) then
        if negb (containsString (Finalizers (bMeta b)) DeployFinalizer) then
          let b := AddFinalizer b DeployFinalizer in
          err <- client_Update b ;;
          match err with
          | Some e => ret (Some e)
          | None => Reconcile_placement bundle req
          end
        else Reconcile_placement bundle req
      else
        (* The object is being deleted *)
        if containsString (Finalizers (bMeta b)) DeployFinalizer then
          err <- deleteAllChildManifests b ;;
          match err with
          | Some e => ret (Some e)
          | None =>
              let b := RemoveFinalizer b DeployFinalizer in
              err <- client_Update b ;;
              match err with
              | Some e => ret (IgnoreConflict e)
              | None => ret None
              end
          end
        else ret None
  end.

End Controller.

(** The state in which a reconciliation starts: nothing allocated yet. *)
Definition start (w : World) : St := mkSt w [].

(** ** Vocabulary of the statements *)

(** The failure, if any, that the schedule injects into the next call. *)
Definition next_fault (w : World) : option StatusReason :=
  match faults w with
  | Some reason :: _ => Some reason
  | _ => None
  end.

(** A PlacementDecision of namespace [ns] that carries the
    placement-reference label with value [placementName]. *)
Definition carries_placement (placementName ns : string) (d : PlacementDecision) : bool :=
  bool_decide (Namespace (pMeta d) = ns)
  && bool_decide (labels_get (Labels (pMeta d)) PlacementLabel = Some placementName).

(** The artifact carries the ownership label with value [uid]. *)
Definition owned_by (uid : string) (x : StoredWork) : bool :=
  bool_decide (labels_get (Labels (mMeta x)) OwnedLabel = Some uid).

Definition is_BundleUpdate (c : Call) : bool :=
  match c with BundleUpdate _ => true | _ => false end.

Definition is_WorkCreate (c : Call) : bool :=
  match c with WorkCreate _ _ => true | _ => false end.

Definition is_WorkUpdate (c : Call) : bool :=
  match c with WorkUpdate _ _ => true | _ => false end.

Definition is_WorkDelete (c : Call) : bool :=
  match c with WorkDelete _ _ => true | _ => false end.

(** Every call is recorded at the head of the trace and leaves the lister's
    cache and the log alone. *)
Definition called (c : Call) (w w' : World) : Prop :=
  trace w' = c :: trace w
  /\ decisions w' = decisions w
  /\ logs w' = logs w.

(** The calls issued between two states, latest first. *)
Definition calls_between (s s' : St) (new : list Call) : Prop :=
  trace (world s') = new ++ trace (world s).

(** The key of an object in its store. *)
Definition same_key {M : Type} (m x : ObjectMeta M) : bool :=
  has_key (Namespace m) (Name m) x.

(** The error, if any, of a result whose value the caller drops. *)
Definition error_of {A : Type} (r : Result A) : option error :=
  match r with
  | Err err => Some err
  | Ok _ => None
  end.

(** The Bundle as [r.Get] decodes it. *)
Definition got_bundle (h : Heap) (sb : StoredBundle) : AppBundle :=
  fst (decode_bundle h sb).

(** Its copy [b], made by [bundle.DeepCopy()]. *)
Definition got_copy (h : Heap) (sb : StoredBundle) : AppBundle :=
  fst (DeepCopy_bundle (snd (decode_bundle h sb)) (got_bundle h sb)).

(** The heap after both. *)
Definition got_heap (h : Heap) (sb : StoredBundle) : Heap :=
  snd (DeepCopy_bundle (snd (decode_bundle h sb)) (got_bundle h sb)).

(** The selector that the resolver builds for a placement name. *)
Definition placement_selector (placementName : string) : Selector :=
  Selector_Add NewSelector (mkRequirement PlacementLabel placementName).

(** Writing a log line. *)
Definition logged (l : LogLine) (s : St) : St :=
  mkSt (record_log l (world s)) (heap s).

(** The cluster namespaces that a trace addresses through the work API. *)
Definition work_namespace (c : Call) : option string :=
  match c with
  | WorkGet ns _ | WorkCreate ns _ | WorkUpdate ns _ | WorkDelete ns _ => Some ns
  | _ => None
  end.

(** ** The scenario of the specification, section 8 *)

Module Scenario.

Definition finalizer : string := "app.open-cluster-management.io/deploy".

Definition meta (ns name uid : string) (labels : MapVal)
    (fin : list string) (del : option Instant) : ObjectMeta MapVal :=
  mkObjectMeta name ns uid labels None fin del.

Definition payload : ManifestWorkSpec :=
  mkManifestWorkSpec (mkManifestsTemplate ["cm1"]).

(** Bundle [b1]: UID [u1], manifests [cm1], placement [p1]. *)
Definition b1 : StoredBundle :=
  mkAppBundle
    (meta "default" "b1" "u1" (Some {[PlacementLabel := "p1"]}) [finalizer] None)
    payload.

(** [b1] on first sight, before the controller has added its finalizer. *)
Definition b1_new : StoredBundle :=
  mkAppBundle
    (meta "default" "b1" "u1" (Some {[PlacementLabel := "p1"]}) [] None)
    payload.

(** [b1] once its deletion has been requested. *)
Definition b1_deleting : StoredBundle :=
  mkAppBundle
    (meta "default" "b1" "u1" (Some {[PlacementLabel := "p1"]}) [finalizer] (Some 7))
    payload.

(** [b1] with an empty manifest list. *)
Definition b1_empty : StoredBundle :=
  mkAppBundle
    (meta "default" "b1" "u1" (Some {[PlacementLabel := "p1"]}) [finalizer] None)
    (mkManifestWorkSpec (mkManifestsTemplate [])).

(** The decision of placement [p1]: clusters east and west. *)
Definition pd1 : PlacementDecision :=
  mkPlacementDecision
    (meta "default" "p1-decision-1" "d1" (Some {[PlacementLabel := "p1"]}) [] None)
    [mkClusterDecision "east" ""; mkClusterDecision "west" ""].

(** An artifact named [name] on cluster [cluster], owned by [uid]. *)
Definition artifact (cluster name uid : string) : StoredWork :=
  mkManifestWork (mkTypeMeta "ManifestWork" "v1")
    (meta cluster name "" (Some {[OwnedLabel := uid]}) [] None)
    payload.

(** [b1] in memory, its label map at address 0. *)
Definition b1_mem : AppBundle :=
  mkAppBundle (mkObjectMeta "b1" "default" "u1" (Some 0) None [finalizer] None) payload.

Definition b1_heap : Heap := [ {[PlacementLabel := "p1"]} ].

(** A bundle in memory whose label map is nil. *)
Definition unlabelled_mem : AppBundle :=
  mkAppBundle (mkObjectMeta "b0" "default" "u0" None None [] None) payload.

Definition request : Request := mkRequest "default" "b1".

(** A world of the given stores in which no call fails. *)
Definition calm (bs : list StoredBundle) (ds : list PlacementDecision)
    (ws : list StoredWork) : World :=
  mkWorld bs ds ws [] [] [].

(** The same, with a failure schedule. *)
Definition stormy (bs : list StoredBundle) (ds : list PlacementDecision)
    (ws : list StoredWork) (fs : list (option StatusReason)) : World :=
  mkWorld bs ds ws fs [] [].

End Scenario.

(** ** Vocabulary of the further properties *)

Definition is_BundleGet (c : Call) : bool :=
  match c with BundleGet _ _ => true | _ => false end.

Definition is_DecisionList (c : Call) : bool :=
  match c with DecisionList _ _ => true | _ => false end.

Definition is_WorkGet (c : Call) : bool :=
  match c with WorkGet _ _ => true | _ => false end.

Definition is_WorkList (c : Call) : bool :=
  match c with WorkList _ _ => true | _ => false end.

(** A call of the work API that reads or writes one artifact. *)
Definition is_convergence_call (c : Call) : bool :=
  is_WorkGet c || is_WorkCreate c || is_WorkUpdate c.

(** The key (namespace, name) of an artifact in the work store. *)
Definition key_of (x : StoredWork) : string * string :=
  (Namespace (mMeta x), Name (mMeta x)).

(** The Delete call that the sweep issues for a listed item. *)
Definition delete_call (m : StoredWork) : Call :=
  WorkDelete (Namespace (mMeta m)) (Name (mMeta m)).

(** The work store holds an artifact under the key. *)
Definition holds (ns name : string) (ws : list StoredWork) : bool :=
  existsb (fun x => has_key ns name (mMeta x)) ws.

(** The artifact that a call of the work API reads or writes. *)
Definition call_key (c : Call) : option (string * string) :=
  match c with
  | WorkGet ns name | WorkDelete ns name => Some (ns, name)
  | WorkCreate ns w | WorkUpdate ns w => Some (ns, Name (mMeta w))
  | _ => None
  end.

(** A call that converges the artifact of [bundle] on one of the targets. *)
Definition converges (bundle : AppBundle) (decs : list ClusterDecision) (c : Call) : Prop :=
  is_convergence_call c = true
  /\ exists dec, In dec decs
       /\ call_key c = Some (ClusterName dec, Name (bMeta bundle)).

(** A stored Bundle with every occurrence of a finalizer removed. *)
Definition without_finalizer (sb : StoredBundle) (finalizer : string) : StoredBundle :=
  let m := bMeta sb in
  mkAppBundle
    (mkObjectMeta (Name m) (Namespace m) (UID m) (Labels m) (Annotations m)
       (List.filter (fun f => negb (String.eqb f finalizer)) (Finalizers m))
       (DeletionTimestamp m))
    (bSpec sb).

(** A stored Bundle with a finalizer appended. *)
Definition with_finalizer (sb : StoredBundle) (finalizer : string) : StoredBundle :=
  let m := bMeta sb in
  mkAppBundle
    (mkObjectMeta (Name m) (Namespace m) (UID m) (Labels m) (Annotations m)
       (Finalizers m ++ [finalizer]) (DeletionTimestamp m))
    (bSpec sb).

(** ** Further scenario objects *)

Module More.

(** A Bundle without a placement label, carrying the finalizer. *)
Definition unplaced : StoredBundle :=
  mkAppBundle
    (Scenario.meta "default" "b1" "u1" (Some {["app" := "web"]})
       [Scenario.finalizer] None)
    Scenario.payload.

(** A decision of placement [p1] in another namespace. *)
Definition pd_elsewhere : PlacementDecision :=
  mkPlacementDecision
    (Scenario.meta "other" "p1-decision-1" "d2"
       (Some {[PlacementLabel := "p1"]}) [] None)
    [mkClusterDecision "south" ""].

End More.

(** ** Vocabulary of convergence *)

(** The stored artifact [x] with its spec, labels and annotations replaced,
    and its own type and remaining metadata kept. *)
Definition overwritten (spec : ManifestWorkSpec) (labels annotations : MapVal)
    (x : StoredWork) : StoredWork :=
  mkManifestWork (mType x)
    (mkObjectMeta (Name (mMeta x)) (Namespace (mMeta x)) (UID (mMeta x))
       labels annotations
       (Finalizers (mMeta x)) (DeletionTimestamp (mMeta x)))
    spec.

(** The artifact that convergence creates on a cluster. *)
Definition synthesized (bundle : AppBundle) (cluster : string)
    (labels annotations : MapVal) : StoredWork :=
  mkManifestWork (mkTypeMeta "ManifestWork" GroupVersion_Version)
    (mkObjectMeta (Name (bMeta bundle)) cluster "" labels annotations [] None)
    (bSpec bundle).

(** The artifact is the Bundle's on the cluster of the decision. *)
Definition targeted (bundle : AppBundle) (dec : ClusterDecision) (x : StoredWork) : bool :=
  has_key (ClusterName dec) (Name (bMeta bundle)) (mMeta x).

(** * Properties *)

(** ** The Manifest Synthesizer *)

Lemma heap_insert_twice (h : Heap) (l : loc) (m : gmap string string) (k v : string) :
  <[l := <[k := v]> (<[k := v]> m)]> (<[l := <[k := v]> m]> h) = <[l := <[k := v]> m]> h.
Proof.
  unfold Heap, loc in *.
  rewrite (insert_insert_eq m k v v).
  apply list_insert_insert_eq.
Qed.

(** With a label map behind the pointer, the write of the ownership label
    succeeds and is the only change of the heap. *)
Lemma generateManifest_Some (bundle : AppBundle) (c : string) (h : Heap)
    (l : loc) (m0 : gmap string string) :
  Labels (bMeta bundle) = Some l ->
  h !! l = Some m0 ->
  generateManifest bundle c h =
    Some (mkManifestWork (mkTypeMeta "ManifestWork" GroupVersion_Version)
            (mkObjectMeta (Name (bMeta bundle)) c ""
               (Some l) (Annotations (bMeta bundle)) [] None)
            (bSpec bundle),
          <[l := <[OwnedLabel := UID (bMeta bundle)]> m0]> h).
Proof.
  intros Hl Hm. unfold generateManifest, map_set. simpl.
  rewrite Hl, Hm. reflexivity.
Qed.

(** A nil label map makes the call panic. *)
Lemma generateManifest_nil (bundle : AppBundle) (c : string) (h : Heap) :
  Labels (bMeta bundle) = None -> generateManifest bundle c h = None.
Proof.
  intros Hl. unfold generateManifest, map_set. simpl. now rewrite Hl.
Qed.

(** C4, as amended.  For a Bundle whose label map is not nil,
    [generateManifest] returns the artifact named after the Bundle, in the
    namespace of the target cluster, with the Bundle's annotations and
    workload payload.  The artifact's labels are the Bundle's own label map,
    not a copy: the call writes the ownership label into that map, which
    afterwards holds the Bundle's former labels plus the ownership label
    set to the Bundle's UID.  No other map changes, and a second call with
    the same arguments returns the same artifact and changes nothing. *)
Theorem generateManifest_spec (bundle : AppBundle) (c : string) (h : Heap)
    (l : loc) (m0 : gmap string string) :
  Labels (bMeta bundle) = Some l ->
  h !! l = Some m0 ->
  exists (art : ManifestWork) (h' : Heap),
    generateManifest bundle c h = Some (art, h')
    /\ Name (mMeta art) = Name (bMeta bundle)
    /\ Namespace (mMeta art) = c
    /\ Labels (mMeta art) = Labels (bMeta bundle)
    /\ map_val h' (Labels (mMeta art)) = Some (<[OwnedLabel := UID (bMeta bundle)]> m0)
    /\ Annotations (mMeta art) = Annotations (bMeta bundle)
    /\ (Annotations (bMeta bundle) <> Labels (bMeta bundle) ->
        map_val h' (Annotations (mMeta art)) = map_val h (Annotations (bMeta bundle)))
    /\ mSpec art = bSpec bundle
    /\ (forall l' : loc, l' <> l -> h' !! l' = h !! l')
    /\ List.length h' = List.length h
    /\ generateManifest bundle c h' = Some (art, h').
Proof.
  intros Hl Hm.
  assert (Hlt : l < List.length h) by (eapply lookup_lt_Some; exact Hm).
  eexists _, _. split; [apply (generateManifest_Some bundle c h l m0 Hl Hm)|].
  simpl. rewrite Hl.
  repeat split.
  - simpl. apply list_lookup_insert_eq. exact Hlt.
  - intros Hne. destruct (Annotations (bMeta bundle)) as [la|]; simpl; [|reflexivity].
    apply list_lookup_insert_ne. congruence.
  - intros l' Hne. apply list_lookup_insert_ne. congruence.
  - apply length_insert.
  - erewrite generateManifest_Some; [|exact Hl|apply list_lookup_insert_eq; exact Hlt].
    now rewrite heap_insert_twice.
Qed.

Lemma generateManifest_spec_witness :
  exists (art : ManifestWork) (h' : Heap),
    generateManifest Scenario.b1_mem "east" Scenario.b1_heap = Some (art, h')
    /\ Name (mMeta art) = "b1"
    /\ Namespace (mMeta art) = "east"
    /\ map_val h' (Labels (mMeta art))
       = Some (<[OwnedLabel := "u1"]> {[PlacementLabel := "p1"]}).
Proof.
  destruct (generateManifest_spec Scenario.b1_mem "east" Scenario.b1_heap 0
              {[PlacementLabel := "p1"]} eq_refl eq_refl)
    as (art & h' & H1 & H2 & H3 & _ & H5 & _).
  exists art, h'. repeat split; assumption.
Defined.

(** C4, as stated, fails twice.  The call is not free of side effects: on
    [b1] it writes the ownership label into the Bundle's own label map.  And
    it does not return an artifact for every Bundle: with a nil label map
    it panics. *)
Lemma generateManifest_not_pure :
  (exists (art : ManifestWork) (h' : Heap),
     generateManifest Scenario.b1_mem "east" Scenario.b1_heap = Some (art, h')
     /\ map_get Scenario.b1_heap (Labels (bMeta Scenario.b1_mem)) OwnedLabel = None
     /\ map_get h' (Labels (bMeta Scenario.b1_mem)) OwnedLabel = Some "u1")
  /\ generateManifest Scenario.unlabelled_mem "east" [] = None.
Proof.
  split; [|reflexivity].
  eexists _, _. split; [reflexivity|]. split; vm_compute; reflexivity.
Qed.

(** ** The Placement Resolver *)

(** The selector built by the resolver picks the decisions that carry the
    placement-reference label. *)
Lemma selector_carries (placementName ns : string) (d : PlacementDecision) :
  (bool_decide (Namespace (pMeta d) = ns)
   && Selector_Matches (Selector_Add NewSelector (mkRequirement PlacementLabel placementName))
        (Labels (pMeta d)))
  = carries_placement placementName ns d.
Proof.
  unfold carries_placement, Selector_Matches, Selector_Add, NewSelector,
    Requirement_Matches. simpl.
  now rewrite andb_true_r.
Qed.

(** What the lister answers when no failure is injected. *)
Lemma decision_list_calm (ns : string) (sel : Selector) (w : World) :
  next_fault w = None ->
  fst (decision_list ns sel w)
  = Ok (List.filter (fun d => bool_decide (Namespace (pMeta d) = ns)
                              && Selector_Matches sel (Labels (pMeta d)))
          (decisions w)).
Proof.
  unfold next_fault, decision_list, api. simpl.
  destruct (faults w) as [|[r|] fs]; simpl; intros H; try reflexivity; discriminate.
Qed.

(** An injected failure reaches the caller as a status error. *)
Lemma decision_list_result (ns : string) (sel : Selector) (w : World) :
  match fst (decision_list ns sel w) with
  | Err err => exists reason, err = StatusError reason /\ next_fault w = Some reason
  | Ok ds => next_fault w = None
             /\ ds = List.filter (fun d => bool_decide (Namespace (pMeta d) = ns)
                                           && Selector_Matches sel (Labels (pMeta d)))
                       (decisions w)
  end.
Proof.
  unfold next_fault, decision_list, api. simpl.
  destruct (faults w) as [|[r|] fs]; simpl; eauto.
Qed.

Lemma getPlacementDecision_unfold (placementName ns : string) (s : St) :
  fst (getPlacementDecision placementName ns s)
  = match fst (decision_list ns
                 (Selector_Add NewSelector (mkRequirement PlacementLabel placementName))
                 (record_log (LogNamespace ns) (world s))) with
    | Err err => Val (Err err)
    | Ok [] => Val (Err (ErrNoDecision placementName))
    | Ok (p0 :: _) => Val (Ok p0)
    end.
Proof.
  unfold getPlacementDecision, bind, klog_Infof, PlacementDecisions_List, on_world.
  simpl.
  destruct (decision_list _ _ _) as [[err|[|p0 ps]] w']; reflexivity.
Qed.

(** C8.  The resolver fails with its not-found error only when no
    PlacementDecision of the namespace carries the placement-reference label
    with the given name; and when the lister answers, it fails with that
    error if none does, and otherwise returns the first such decision in
    the lister's iteration order. *)
Theorem getPlacementDecision_spec (placementName ns : string) (s : St) :
  let matching := List.filter (carries_placement placementName ns) (decisions (world s)) in
  (fst (getPlacementDecision placementName ns s) = Val (Err (ErrNoDecision placementName))
     -> matching = [])
  /\ (next_fault (world s) = None ->
      (matching = [] ->
         fst (getPlacementDecision placementName ns s)
         = Val (Err (ErrNoDecision placementName)))
      /\ (forall d rest, matching = d :: rest ->
            fst (getPlacementDecision placementName ns s) = Val (Ok d))).
Proof.
  intros matching. rewrite getPlacementDecision_unfold.
  set (sel := Selector_Add NewSelector (mkRequirement PlacementLabel placementName)).
  set (w := record_log (LogNamespace ns) (world s)).
  assert (Hm : List.filter (fun d => bool_decide (Namespace (pMeta d) = ns)
                                     && Selector_Matches sel (Labels (pMeta d)))
                 (decisions w) = matching).
  { subst matching w sel. simpl. apply List.filter_ext.
    intros d. apply selector_carries. }
  split.
  - pose proof (decision_list_result ns sel w) as Hr.
    destruct (fst (decision_list ns sel w)) as [err|ds].
    + destruct Hr as [reason [-> _]]. discriminate.
    + destruct Hr as [_ ->]. rewrite Hm.
      destruct matching; [reflexivity|discriminate].
  - intros Hcalm.
    rewrite (decision_list_calm ns sel w) by exact Hcalm.
    rewrite Hm. split.
    + intros ->. reflexivity.
    + intros d rest ->. reflexivity.
Qed.

Lemma getPlacementDecision_spec_witness :
  next_fault (Scenario.calm [Scenario.b1] [Scenario.pd1] []) = None
  /\ fst (getPlacementDecision "p1" "default"
            (start (Scenario.calm [Scenario.b1] [Scenario.pd1] [])))
     = Val (Ok Scenario.pd1).
Proof.
  split; [reflexivity|].
  destruct (getPlacementDecision_spec "p1" "default"
              (start (Scenario.calm [Scenario.b1] [Scenario.pd1] []))) as [_ H].
  destruct (H eq_refl) as [_ H2].
  apply (H2 Scenario.pd1 []). vm_compute. reflexivity.
Defined.

(** ** What one API call does to the world *)

Local Ltac api_cases w :=
  unfold api; simpl;
  destruct (faults w) as [|[?reason|] ?fs]; simpl.

Lemma bundle_get_effect (ns name : string) (w : World) r w' :
  bundle_get ns name w = (r, w') ->
  called (BundleGet ns name) w w'
  /\ bundles w' = bundles w /\ works w' = works w
  /\ match r with
     | Ok b => find (fun b => has_key ns name (bMeta b)) (bundles w) = Some b
     | Err _ => True
     end.
Proof.
  unfold bundle_get, called. api_cases w;
    try (destruct (find _ _) eqn:?; simpl);
    intros [= <- <-]; simpl; auto 10.
Qed.

Lemma bundle_update_effect (b : StoredBundle) (w : World) r w' :
  bundle_update b w = (r, w') ->
  called (BundleUpdate b) w w'
  /\ works w' = works w
  /\ match r with
     | Ok _ => True
     | Err _ => bundles w' = bundles w
     end.
Proof.
  unfold bundle_update, called. api_cases w;
    try (destruct (existsb _ _) eqn:?; simpl);
    intros [= <- <-]; simpl; auto 10.
Qed.

Lemma decision_list_effect (ns : string) (sel : Selector) (w : World) r w' :
  decision_list ns sel w = (r, w') ->
  called (DecisionList ns sel) w w'
  /\ bundles w' = bundles w /\ works w' = works w.
Proof.
  unfold decision_list, called. api_cases w;
    intros [= <- <-]; simpl; auto 10.
Qed.

Lemma work_get_effect (ns name : string) (w : World) r w' :
  work_get ns name w = (r, w') ->
  called (WorkGet ns name) w w'
  /\ bundles w' = bundles w /\ works w' = works w
  /\ match r with
     | Ok x => find (fun x => has_key ns name (mMeta x)) (works w) = Some x
     | Err _ => True
     end.
Proof.
  unfold work_get, called. api_cases w;
    try (destruct (find _ _) eqn:?; simpl);
    intros [= <- <-]; simpl; auto 10.
Qed.

Lemma work_create_effect (ns : string) (m : StoredWork) (w : World) r w' :
  work_create ns m w = (r, w') ->
  called (WorkCreate ns m) w w'
  /\ bundles w' = bundles w.
Proof.
  unfold work_create, called. api_cases w;
    try (destruct (negb _) eqn:?; simpl);
    try (destruct (existsb _ _) eqn:?; simpl);
    intros [= <- <-]; simpl; auto 10.
Qed.

Lemma work_update_effect (ns : string) (m : StoredWork) (w : World) r w' :
  work_update ns m w = (r, w') ->
  called (WorkUpdate ns m) w w'
  /\ bundles w' = bundles w.
Proof.
  unfold work_update, called. api_cases w;
    try (destruct (negb _) eqn:?; simpl);
    try (destruct (existsb _ _) eqn:?; simpl);
    intros [= <- <-]; simpl; auto 10.
Qed.

(** Listing every namespace with empty options returns the whole store. *)
Lemma filter_all {A : Type} (f : A -> bool) (l : list A) :
  (forall x, f x = true) -> List.filter f l = l.
Proof.
  intros Hf. induction l as [|x l IH]; simpl; [reflexivity|].
  now rewrite Hf, IH.
Qed.

Lemma work_list_effect (w : World) r w' :
  work_list "" (mkListOptions []) w = (r, w') ->
  called (WorkList "" (mkListOptions [])) w w'
  /\ bundles w' = bundles w /\ works w' = works w
  /\ match r with
     | Ok items => items = works w
     | Err _ => True
     end.
Proof.
  unfold work_list, called. api_cases w;
    intros [= <- <-]; simpl; repeat split; auto;
    apply filter_all; intros x; reflexivity.
Qed.

Lemma work_delete_effect (ns name : string) (w : World) r w' :
  work_delete ns name w = (r, w') ->
  called (WorkDelete ns name) w w'
  /\ bundles w' = bundles w
  /\ match r with
     | Ok _ => works w' = List.filter (fun x => negb (has_key ns name (mMeta x))) (works w)
     | Err _ => works w' = works w
     end.
Proof.
  unfold work_delete, called. api_cases w;
    try (destruct (existsb _ _) eqn:?; simpl);
    intros [= <- <-]; simpl; auto 10.
Qed.

(** ** The clients in terms of the stores *)

Lemma client_Get_inv (ns name : string) (s : St) r s' :
  client_Get ns name s = (r, s') ->
  exists res w',
    bundle_get ns name (world s) = (res, w')
    /\ match res with
       | Err err => r = Val (Err err) /\ s' = mkSt w' (heap s)
       | Ok sb => r = Val (Ok (fst (decode_bundle (heap s) sb)))
                  /\ s' = mkSt w' (snd (decode_bundle (heap s) sb))
       end.
Proof.
  unfold client_Get, bind, on_world, on_heap, ret.
  destruct (bundle_get ns name (world s)) as [[err|sb] w'] eqn:E; simpl.
  - intros [= <- <-]. eexists _, _. split; [reflexivity|]. simpl. auto.
  - destruct (decode_bundle (heap s) sb) as [b h'] eqn:D.
    intros [= <- <-]. eexists _, _. split; [reflexivity|]. simpl.
    rewrite D. auto.
Qed.

Lemma client_Update_inv (b : AppBundle) (s : St) r s' :
  client_Update b s = (r, s') ->
  exists res w',
    bundle_update (encode_bundle (heap s) b) (world s) = (res, w')
    /\ r = Val (error_of res) /\ s' = mkSt w' (heap s).
Proof.
  unfold client_Update, bind, on_world, read_heap, ret. simpl.
  destruct (bundle_update _ _) as [res w'] eqn:E; simpl.
  intros [= <- <-]. eexists _, _. split; [reflexivity|].
  destruct res; auto.
Qed.

Lemma ManifestWorks_Get_inv (ns name : string) (s : St) r s' :
  ManifestWorks_Get ns name s = (r, s') ->
  exists res w',
    work_get ns name (world s) = (res, w')
    /\ match res with
       | Err err => r = Val (Err err) /\ s' = mkSt w' (heap s)
       | Ok sw => r = Val (Ok (fst (decode_work (heap s) sw)))
                  /\ s' = mkSt w' (snd (decode_work (heap s) sw))
       end.
Proof.
  unfold ManifestWorks_Get, bind, on_world, on_heap, ret.
  destruct (work_get ns name (world s)) as [[err|sw] w'] eqn:E; simpl.
  - intros [= <- <-]. eexists _, _. split; [reflexivity|]. simpl. auto.
  - destruct (decode_work (heap s) sw) as [m h'] eqn:D.
    intros [= <- <-]. eexists _, _. split; [reflexivity|]. simpl.
    rewrite D. auto.
Qed.

Lemma ManifestWorks_Create_inv (ns : string) (m : ManifestWork) (s : St) r s' :
  ManifestWorks_Create ns m s = (r, s') ->
  exists res w',
    work_create ns (encode_work (heap s) m) (world s) = (res, w')
    /\ r = Val (error_of res) /\ s' = mkSt w' (heap s).
Proof.
  unfold ManifestWorks_Create, bind, on_world, read_heap, ret. simpl.
  destruct (work_create _ _ _) as [res w'] eqn:E; simpl.
  intros [= <- <-]. eexists _, _. split; [reflexivity|].
  destruct res; auto.
Qed.

Lemma ManifestWorks_Update_inv (ns : string) (m : ManifestWork) (s : St) r s' :
  ManifestWorks_Update ns m s = (r, s') ->
  exists res w',
    work_update ns (encode_work (heap s) m) (world s) = (res, w')
    /\ r = Val (error_of res) /\ s' = mkSt w' (heap s).
Proof.
  unfold ManifestWorks_Update, bind, on_world, read_heap, ret. simpl.
  destruct (work_update _ _ _) as [res w'] eqn:E; simpl.
  intros [= <- <-]. eexists _, _. split; [reflexivity|].
  destruct res; auto.
Qed.

Lemma ManifestWorks_Delete_inv (ns name : string) (s : St) r s' :
  ManifestWorks_Delete ns name s = (r, s') ->
  exists res w',
    work_delete ns name (world s) = (res, w')
    /\ r = Val (error_of res) /\ s' = mkSt w' (heap s).
Proof.
  unfold ManifestWorks_Delete, bind, on_world, ret. simpl.
  destruct (work_delete _ _ _) as [res w'] eqn:E; simpl.
  intros [= <- <-]. eexists _, _. split; [reflexivity|].
  destruct res; auto.
Qed.

Lemma ManifestWorks_List_inv (ns : string) (opts : ListOptions) (s : St) r s' :
  ManifestWorks_List ns opts s = (r, s') ->
  exists res w',
    work_list ns opts (world s) = (res, w')
    /\ r = Val res /\ s' = mkSt w' (heap s).
Proof.
  unfold ManifestWorks_List, on_world.
  destruct (work_list _ _ _) as [res w'] eqn:E; simpl.
  intros [= <- <-]. eauto.
Qed.

(** ** The Ownership Sweeper *)

(** What the delete loop does: it leaves heap, Bundles, decisions and log
    alone, issues Delete calls only, removes artifacts only, never panics;
    and if it reports success, no artifact with the key of a listed item is
    left. *)
Lemma deleteAllChildManifests_range_effect (items : list StoredWork) :
  forall (s : St) r s',
    deleteAllChildManifests_range items s = (r, s') ->
    heap s' = heap s
    /\ bundles (world s') = bundles (world s)
    /\ decisions (world s') = decisions (world s)
    /\ logs (world s') = logs (world s)
    /\ (exists new, calls_between s s' new /\ forallb is_WorkDelete new = true)
    /\ incl (works (world s')) (works (world s))
    /\ match r with
       | Panic => False
       | Val (Some _) => True
       | Val None =>
           forall x m, In x (works (world s')) -> In m items ->
             same_key (mMeta m) (mMeta x) = false
       end.
Proof.
  induction items as [|m rest IH]; intros s r s'; simpl.
  - unfold ret. intros [= <- <-].
    repeat split; try reflexivity.
    + exists []. split; reflexivity.
    + apply incl_refl.
    + intros x m _ [].
  - unfold bind.
    destruct (ManifestWorks_Delete _ _ s) as [r1 s1] eqn:E1.
    apply ManifestWorks_Delete_inv in E1 as (res & w1 & Hd & -> & ->).
    apply work_delete_effect in Hd as ((Ht & Hdec & Hlog) & Hb & Hw).
    destruct res as [err|[]]; simpl.
    + unfold ret. intros [= <- <-]. simpl.
      repeat split; auto.
      * exists [WorkDelete (Namespace (mMeta m)) (Name (mMeta m))].
        split; [exact Ht|reflexivity].
      * rewrite Hw. apply incl_refl.
    + intros Hrest. apply IH in Hrest
        as (Hh & Hb' & Hdec' & Hlog' & (new & Hnew & Hall) & Hincl & Hr).
      simpl in *.
      assert (Hsub : incl (works w1) (works (world s))).
      { rewrite Hw. intros x Hx. apply List.filter_In in Hx. tauto. }
      repeat split; try congruence.
      * exists (new ++ [WorkDelete (Namespace (mMeta m)) (Name (mMeta m))]).
        split.
        -- unfold calls_between in *. simpl in *.
           rewrite Hnew, Ht, <- app_assoc. reflexivity.
        -- rewrite forallb_app, Hall. reflexivity.
      * eapply incl_tran; eassumption.
      * destruct r as [[e|]|]; auto.
        intros x m' Hx [<-|Hm'].
        -- apply Hincl in Hx. rewrite Hw in Hx.
           apply List.filter_In in Hx as [_ Hx].
           unfold same_key. now apply negb_true_iff in Hx.
        -- eapply Hr; eassumption.
Qed.

Lemma calls_between_trans (s s1 s2 : St) (n1 n2 : list Call) :
  calls_between s s1 n1 -> calls_between s1 s2 n2 -> calls_between s s2 (n2 ++ n1).
Proof.
  unfold calls_between. intros H1 H2. rewrite H2, H1. apply app_assoc.
Qed.

(** The sweep as a whole.  The Bundle it is given plays no part in it:
    a successful sweep leaves no artifact at all. *)
Lemma deleteAllChildManifests_effect (bundle : AppBundle) (s : St) r s' :
  deleteAllChildManifests bundle s = (r, s') ->
  heap s' = heap s
  /\ bundles (world s') = bundles (world s)
  /\ decisions (world s') = decisions (world s)
  /\ logs (world s') = logs (world s)
  /\ (exists new, calls_between s s' (new ++ [WorkList "" (mkListOptions [])])
                  /\ forallb is_WorkDelete new = true)
  /\ incl (works (world s')) (works (world s))
  /\ match r with
     | Panic => False
     | Val (Some _) => True
     | Val None => works (world s') = []
     end.
Proof.
  unfold deleteAllChildManifests, bind.
  destruct (ManifestWorks_List _ _ s) as [r1 s1] eqn:E1.
  apply ManifestWorks_List_inv in E1 as (res & w1 & Hl & -> & ->).
  apply work_list_effect in Hl as ((Ht & Hdec & Hlog) & Hb & Hw & Hitems).
  destruct res as [err|items].
  - unfold ret. intros [= <- <-]. simpl. repeat split; auto.
    + exists []. split; [exact Ht|reflexivity].
    + rewrite Hw. apply incl_refl.
  - intros Hrange. subst items.
    apply deleteAllChildManifests_range_effect in Hrange
      as (Hh & Hb' & Hdec' & Hlog' & (new & Hnew & Hall) & Hincl & Hr).
    simpl in *. repeat split; try congruence.
    + exists new. split; [|exact Hall].
      unfold calls_between in *. simpl in *. rewrite Hnew, Ht.
      now rewrite <- app_assoc.
    + now rewrite <- Hw.
    + destruct r as [[e|]|]; auto.
      destruct (works (world s')) as [|x ws] eqn:Ew; [reflexivity|].
      exfalso.
      assert (Hx : In x (x :: ws)) by now left.
      assert (Hin : In x (works (world s))) by (rewrite <- Hw; now apply Hincl).
      pose proof (Hr x x Hx Hin) as Hk.
      unfold same_key, has_key in Hk.
      rewrite !bool_decide_eq_true_2 in Hk by reflexivity. discriminate.
Qed.

(** C1 fails on the code.  The store holds an artifact of [b1] (owner
    [u1]) and one of another Bundle (owner [u2]) on the same cluster.  The
    sweep for [b1] succeeds and the other Bundle's artifact is gone too;
    its trace shows the listing without a selector and both deletions. *)
Theorem deleteAllChildManifests_deletes_foreign :
  let theirs := Scenario.artifact "east" "b2" "u2" in
  let w := Scenario.calm [Scenario.b1_deleting] [Scenario.pd1]
             [Scenario.artifact "east" "b1" "u1"; theirs] in
  let out := deleteAllChildManifests Scenario.b1_mem (mkSt w Scenario.b1_heap) in
  owned_by (UID (bMeta Scenario.b1_mem)) theirs = false
  /\ fst out = Val None
  /\ works (world (snd out)) = []
  /\ trace (world (snd out))
     = [WorkDelete "east" "b2"; WorkDelete "east" "b1"; WorkList "" (mkListOptions [])].
Proof.
  vm_compute. repeat split; reflexivity.
Qed.

(** ** Label maps across the heap operations of a reconciliation *)

Lemma map_new_grows (h : Heap) (v : MapVal) :
  exists t, snd (map_new h v) = h ++ t.
Proof.
  destruct v as [m|]; simpl.
  - now exists [m].
  - exists []. now rewrite app_nil_r.
Qed.

Lemma decode_meta_grows (h : Heap) (m : ObjectMeta MapVal) :
  exists t, snd (decode_meta h m) = h ++ t.
Proof.
  unfold decode_meta.
  destruct (map_new_grows h (Labels m)) as [t1 H1].
  destruct (map_new h (Labels m)) as [l h1]. simpl in H1. subst h1.
  destruct (map_new_grows (h ++ t1) (Annotations m)) as [t2 H2].
  destruct (map_new (h ++ t1) (Annotations m)) as [a h2]. simpl in *. subst h2.
  exists (t1 ++ t2). now rewrite app_assoc.
Qed.

Lemma decode_work_grows (h : Heap) (w : StoredWork) :
  exists t, snd (decode_work h w) = h ++ t.
Proof.
  unfold decode_work.
  destruct (decode_meta_grows h (mMeta w)) as [t Ht].
  destruct (decode_meta h (mMeta w)) as [m h1]. simpl in *. now exists t.
Qed.

Lemma decode_bundle_grows (h : Heap) (b : StoredBundle) :
  exists t, snd (decode_bundle h b) = h ++ t.
Proof.
  unfold decode_bundle.
  destruct (decode_meta_grows h (bMeta b)) as [t Ht].
  destruct (decode_meta h (bMeta b)) as [m h1]. simpl in *. now exists t.
Qed.

(** A map that is read keeps its contents when the heap grows. *)
Lemma map_get_grows (h t : Heap) (r : MapRef) (k v : string) :
  map_get h r k = Some v -> map_get (h ++ t) r k = Some v.
Proof.
  unfold map_get. destruct r as [l|]; [|discriminate].
  destruct (h !! l) as [m|] eqn:E; [|discriminate].
  intros Hk. unfold Heap, loc in *.
  rewrite (lookup_app_l h t l) by (eapply lookup_lt_Some; exact E).
  now rewrite E.
Qed.

(** The placement label found by [getPlacementLabel] means a label map that
    is not nil; [generateManifest] then succeeds, and the label is still
    there afterwards. *)
Lemma generateManifest_labelled (bundle : AppBundle) (c : string) (h : Heap) (v : string) :
  getPlacementLabel bundle h = Some v ->
  exists art h',
    generateManifest bundle c h = Some (art, h')
    /\ Name (mMeta art) = Name (bMeta bundle)
    /\ getPlacementLabel bundle h' = Some v.
Proof.
  unfold getPlacementLabel, map_get.
  destruct (Labels (bMeta bundle)) as [l|] eqn:Hl; [|discriminate].
  destruct (h !! l) as [m0|] eqn:Hm; [|discriminate].
  intros Hv.
  eexists _, _. split; [apply (generateManifest_Some bundle c h l m0 Hl Hm)|].
  split; [reflexivity|].
  unfold Heap, loc in *.
  rewrite list_lookup_insert_eq by (eapply lookup_lt_Some; exact Hm).
  rewrite lookup_insert_ne by discriminate. exact Hv.
Qed.

(** ** Convergence *)

(** The convergence loop, started with the placement label in the Bundle's
    label map: it does not panic, the label stays, the Bundle store is not
    touched, and the first call issued for a non-empty target list is the
    read of the artifact on the first target. *)
Lemma scheduleBundle_range_safe (bundle : AppBundle) (decs : list ClusterDecision) :
  forall (s : St) (v : string) r s',
    getPlacementLabel bundle (heap s) = Some v ->
    scheduleBundle_range bundle decs s = (r, s') ->
    r <> Panic
    /\ getPlacementLabel bundle (heap s') = Some v
    /\ bundles (world s') = bundles (world s)
    /\ exists new, calls_between s s' new
         /\ match decs with
            | [] => new = []
            | d :: _ => exists post,
                new = post ++ [WorkGet (ClusterName d) (Name (bMeta bundle))]
            end.
Proof.
  induction decs as [|dec rest IH]; intros s v r s' Hlab; simpl.
  - unfold ret. intros [= <- <-]. repeat split; auto; try discriminate.
    exists []. split; reflexivity.
  - unfold bind at 1. unfold klog_Infof at 1. unfold on_world at 1. simpl.
    unfold bind at 1. unfold on_heap_or_panic at 1. simpl.
    destruct (generateManifest_labelled bundle (ClusterName dec) (heap s) v Hlab)
      as (art & h1 & -> & Hname & Hlab1).
    unfold bind at 1. unfold klog_Infof at 1. unfold on_world at 1. simpl.
    unfold bind at 1.
    destruct (ManifestWorks_Get _ _ _) as [r1 s1] eqn:E1.
    apply ManifestWorks_Get_inv in E1 as (res & w1 & Hg & Hres). simpl in Hg.
    apply work_get_effect in Hg as ((Ht & _ & _) & Hb & _). simpl in Ht, Hb.
    rewrite Hname in Ht.
    destruct res as [err|sw]; destruct Hres as [-> ->]; simpl in *.
    + destruct (IsNotFound err).
      * unfold bind.
        destruct (ManifestWorks_Create _ _ _) as [r2 s2] eqn:E2.
        apply ManifestWorks_Create_inv in E2 as (res2 & w2 & Hc & -> & ->).
        apply work_create_effect in Hc as ((Ht2 & _ & _) & Hb2). simpl in *.
        unfold ret. intros [= <- <-]. simpl.
        repeat split; auto; try discriminate; try congruence.
        eexists. split.
        -- unfold calls_between. simpl. rewrite Ht2, Ht.
           instantiate (1 := [_; _]). reflexivity.
        -- eexists [_]. reflexivity.
      * unfold ret. intros [= <- <-]. simpl.
        repeat split; auto; try discriminate.
        exists [WorkGet (ClusterName dec) (Name (bMeta bundle))]. split.
        -- unfold calls_between. simpl. exact Ht.
        -- exists []. reflexivity.
    + unfold bind at 1. unfold on_heap at 1. simpl.
      destruct (decode_work_grows h1 sw) as [t1 Hg1].
      set (h2 := snd (decode_work h1 sw)) in *.
      unfold DeepCopy_work.
      destruct (decode_work_grows h2 (encode_work h2 (fst (decode_work h1 sw))))
        as [t2 Hg2].
      destruct (decode_work h2 _) as [nm h3] eqn:Ecopy. simpl in Hg2.
      assert (Hlab3 : getPlacementLabel bundle h3 = Some v).
      { rewrite Hg2, Hg1. unfold getPlacementLabel in *.
        now do 2 apply map_get_grows. }
      unfold bind at 1.
      destruct (ManifestWorks_Update _ _ _) as [r3 s3] eqn:E3.
      apply ManifestWorks_Update_inv in E3 as (res3 & w3 & Hu & -> & ->).
      apply work_update_effect in Hu as ((Ht3 & _ & _) & Hb3). simpl in *.
      destruct res3 as [err|upd]; simpl.
      * unfold ret. intros [= <- <-]. simpl.
        repeat split; auto; try discriminate; try congruence.
        eexists. split.
        -- unfold calls_between. simpl. rewrite Ht3, Ht.
           instantiate (1 := [_; _]). reflexivity.
        -- eexists [_]. reflexivity.
      * intros Hrest.
        apply (IH _ v) in Hrest as (Hr & Hlab' & Hb' & new & Hnew & _);
          [|exact Hlab3].
        simpl in *. repeat split; auto; try congruence.
        eexists. split.
        -- unfold calls_between in *. simpl in *. rewrite Hnew, Ht3, Ht.
           instantiate (1 := new ++ [_; _]). now rewrite <- app_assoc.
        -- eexists (new ++ [_]). now rewrite <- app_assoc.
Qed.

(** ** Decoding and copying a Bundle *)

Lemma map_get_val (h : Heap) (r : MapRef) (k : string) :
  map_get h r k = labels_get (map_val h r) k.
Proof.
  unfold map_get, labels_get, map_val. destruct r as [l|]; reflexivity.
Qed.

Lemma map_new_val (h t : Heap) (v : MapVal) :
  map_val (snd (map_new h v) ++ t) (fst (map_new h v)) = v.
Proof.
  destruct v as [m|]; simpl; [|reflexivity].
  unfold Heap in *. rewrite <- app_assoc. simpl.
  rewrite lookup_app_r by reflexivity.
  now rewrite Nat.sub_diag.
Qed.

(** Decoding and then encoding gives the stored object back, also after
    the heap has grown. *)
Lemma decode_meta_roundtrip (h t : Heap) (m : ObjectMeta MapVal) :
  encode_meta (snd (decode_meta h m) ++ t) (fst (decode_meta h m)) = m.
Proof.
  unfold decode_meta, encode_meta.
  pose proof (map_new_grows (snd (map_new h (Labels m))) (Annotations m)) as [t2 H2].
  pose proof (map_new_val h (t2 ++ t) (Labels m)) as HL.
  pose proof (map_new_val (snd (map_new h (Labels m))) t (Annotations m)) as HA.
  destruct (map_new h (Labels m)) as [l h1]. simpl in *.
  destruct (map_new h1 (Annotations m)) as [a h2]. simpl in *.
  subst h2. rewrite <- app_assoc, HL. rewrite <- app_assoc in HA. rewrite HA.
  destruct m; reflexivity.
Qed.

Lemma decode_bundle_roundtrip (h t : Heap) (sb : StoredBundle) :
  encode_bundle (snd (decode_bundle h sb) ++ t) (fst (decode_bundle h sb)) = sb.
Proof.
  unfold decode_bundle, encode_bundle.
  pose proof (decode_meta_roundtrip h t (bMeta sb)) as H.
  destruct (decode_meta h (bMeta sb)) as [m h1]. simpl in *.
  rewrite H. destruct sb; reflexivity.
Qed.

Lemma Get_and_copy (h : Heap) (sb : StoredBundle) :
  let bundle := fst (decode_bundle h sb) in
  let h0 := snd (decode_bundle h sb) in
  let b := fst (DeepCopy_bundle h0 bundle) in
  let h1 := snd (DeepCopy_bundle h0 bundle) in
  (forall t, encode_bundle (h1 ++ t) bundle = sb)
  /\ (forall t, encode_bundle (h1 ++ t) b = sb).
Proof.
  intros bundle h0 b h1.
  pose proof (decode_bundle_roundtrip h [] sb) as H0. rewrite app_nil_r in H0.
  fold bundle h0 in H0.
  destruct (decode_bundle_grows h0 (encode_bundle h0 bundle)) as [t1 Hg].
  split; intros t.
  - subst h1. unfold DeepCopy_bundle. rewrite Hg, <- app_assoc.
    apply decode_bundle_roundtrip.
  - subst h1 b. unfold DeepCopy_bundle. rewrite H0.
    apply decode_bundle_roundtrip.
Qed.

Lemma got_roundtrip (h : Heap) (sb : StoredBundle) :
  (forall t, encode_bundle (got_heap h sb ++ t) (got_bundle h sb) = sb)
  /\ (forall t, encode_bundle (got_heap h sb ++ t) (got_copy h sb) = sb).
Proof. apply Get_and_copy. Qed.

Lemma got_bundle_fields (h : Heap) (sb : StoredBundle) :
  Name (bMeta (got_bundle h sb)) = Name (bMeta sb)
  /\ DeletionTimestamp (bMeta (got_bundle h sb)) = DeletionTimestamp (bMeta sb)
  /\ bSpec (got_bundle h sb) = bSpec sb
  /\ forall t, getPlacementLabel (got_bundle h sb) (got_heap h sb ++ t)
               = labels_get (Labels (bMeta sb)) PlacementLabel.
Proof.
  destruct (got_roundtrip h sb) as [H _].
  repeat split.
  - exact (f_equal (fun x => Name (bMeta x)) (H [])).
  - exact (f_equal (fun x => DeletionTimestamp (bMeta x)) (H [])).
  - exact (f_equal bSpec (H [])).
  - intros t. unfold getPlacementLabel. rewrite map_get_val.
    exact (f_equal (fun x => labels_get (Labels (bMeta x)) PlacementLabel) (H t)).
Qed.

Lemma got_copy_fields (h : Heap) (sb : StoredBundle) :
  Name (bMeta (got_copy h sb)) = Name (bMeta sb)
  /\ Namespace (bMeta (got_copy h sb)) = Namespace (bMeta sb)
  /\ UID (bMeta (got_copy h sb)) = UID (bMeta sb)
  /\ Finalizers (bMeta (got_copy h sb)) = Finalizers (bMeta sb)
  /\ DeletionTimestamp (bMeta (got_copy h sb)) = DeletionTimestamp (bMeta sb).
Proof.
  destruct (got_roundtrip h sb) as [_ H].
  repeat split.
  - exact (f_equal (fun x => Name (bMeta x)) (H [])).
  - exact (f_equal (fun x => Namespace (bMeta x)) (H [])).
  - exact (f_equal (fun x => UID (bMeta x)) (H [])).
  - exact (f_equal (fun x => Finalizers (bMeta x)) (H [])).
  - exact (f_equal (fun x => DeletionTimestamp (bMeta x)) (H [])).
Qed.

(** ** The reconciliation entry point, phase by phase *)

Lemma getPlacementDecision_inv (placementName ns : string) (s : St) r s' :
  getPlacementDecision placementName ns s = (r, s') ->
  exists res w',
    decision_list ns (placement_selector placementName)
      (record_log (LogNamespace ns) (world s)) = (res, w')
    /\ s' = mkSt w' (heap s)
    /\ r = Val match res with
               | Err err => Err err
               | Ok [] => Err (ErrNoDecision placementName)
               | Ok (p0 :: _) => Ok p0
               end.
Proof.
  unfold getPlacementDecision, bind, klog_Infof, PlacementDecisions_List, on_world.
  simpl. fold (placement_selector placementName).
  destruct (decision_list _ _ _) as [[err|[|p0 ps]] w'] eqn:E; simpl;
    unfold ret; intros [= <- <-]; eexists _, _; eauto.
Qed.

Lemma Reconcile_placement_unfold (bundle : AppBundle) (req : Request) (s : St) :
  Reconcile_placement bundle req s
  = match getPlacementLabel bundle (heap s) with
    | None => (Val None, logged (LogNoPlacementLabel (Name (bMeta bundle))) s)
    | Some l =>
        match getPlacementDecision l (req_Namespace req)
                (logged (LogPlacementLabelFound l (Name (bMeta bundle))) s) with
        | (Val (Err err), s2) => (Val (Some err), s2)
        | (Val (Ok placementDec), s2) =>
            if Nat.ltb 0 (List.length (Manifests (Workload (bSpec bundle)))) then
              match scheduleBundle bundle placementDec
                      (logged (LogFound (Decisions placementDec)) s2) with
              | (Val err, s3) => (Val err, s3)
              | (Panic, s3) => (Panic, s3)
              end
            else (Val None, logged (LogFound (Decisions placementDec)) s2)
        | (Panic, s2) => (Panic, s2)
        end
    end.
Proof.
  unfold Reconcile_placement, bind at 1, read_heap. simpl.
  destruct (getPlacementLabel bundle (heap s)) as [l|]; [|reflexivity].
  unfold bind at 1. unfold klog_Infof at 1, on_world at 1. simpl.
  unfold bind at 1. fold (logged (LogPlacementLabelFound l (Name (bMeta bundle))) s).
  destruct (getPlacementDecision _ _ _) as [[[err|pd]|] s2]; try reflexivity.
  unfold bind at 1. unfold klog_Infof at 1, on_world at 1. simpl.
  fold (logged (LogFound (Decisions pd)) s2).
  destruct (Nat.ltb _ _); [|reflexivity].
  unfold bind.
  destruct (scheduleBundle _ _ _) as [[[e|]|] s3]; reflexivity.
Qed.

Lemma Reconcile_unfold (DF : string) (IC : error -> option error)
    (req : Request) (s : St) (sb : StoredBundle) (w0 : World) :
  bundle_get (req_Namespace req) (req_Name req) (world s) = (Ok sb, w0) ->
  let bundle := got_bundle (heap s) sb in
  let b := got_copy (heap s) sb in
  let s1 := mkSt w0 (got_heap (heap s) sb) in
  Reconcile DF IC req s
  = if IsZero (DeletionTimestamp (bMeta sb)) then
      if negb (containsString (Finalizers (bMeta sb)) DF) then
        match client_Update (AddFinalizer b DF) s1 with
        | (Val (Some e), s2) => (Val (Some e), s2)
        | (Val None, s2) => Reconcile_placement bundle req s2
        | (Panic, s2) => (Panic, s2)
        end
      else Reconcile_placement bundle req s1
    else
      if containsString (Finalizers (bMeta sb)) DF then
        match deleteAllChildManifests b s1 with
        | (Val (Some e), s2) => (Val (Some e), s2)
        | (Val None, s2) =>
            match client_Update (RemoveFinalizer b DF) s2 with
            | (Val (Some e), s3) => (Val (IC e), s3)
            | (Val None, s3) => (Val None, s3)
            | (Panic, s3) => (Panic, s3)
            end
        | (Panic, s2) => (Panic, s2)
        end
      else (Val None, s1).
Proof.
  intros Hget bundle b s1.
  destruct (got_bundle_fields (heap s) sb) as (_ & Hdt & _).
  destruct (got_copy_fields (heap s) sb) as (_ & _ & _ & Hfin & _).
  fold bundle in Hdt. fold b in Hfin.
  subst bundle b s1. unfold got_copy, got_heap, got_bundle in *.
  unfold Reconcile, bind at 1.
  unfold client_Get, bind at 1, on_world at 1. rewrite Hget. simpl.
  unfold bind at 1. unfold on_heap at 1. simpl.
  destruct (decode_bundle (heap s) sb) as [bd h0]. simpl in *.
  unfold bind at 1. unfold on_heap at 1. simpl.
  destruct (DeepCopy_bundle h0 bd) as [bc h1]. simpl in *.
  rewrite Hdt, Hfin.
  destruct (IsZero _); destruct (containsString _ _); simpl; try reflexivity.
  - unfold bind.
    destruct (client_Update _ _) as [[[e|]|] s2]; reflexivity.
  - unfold bind.
    destruct (deleteAllChildManifests _ _) as [[[e|]|] s2]; try reflexivity.
    destruct (client_Update _ _) as [[[e|]|] s3]; reflexivity.
Qed.

(** The placement phase: it never panics and leaves the Bundle store alone.
    Without a placement label it does nothing but log.  With one, it asks
    the lister; it goes no further when the manifest list is empty or when
    no decision matches (then it returns an error); and when it converges,
    its first call reads the artifact on the first target. *)
Lemma Reconcile_placement_effect (bundle : AppBundle) (req : Request) (s : St) r s' :
  Reconcile_placement bundle req s = (r, s') ->
  r <> Panic
  /\ bundles (world s') = bundles (world s)
  /\ match getPlacementLabel bundle (heap s) with
     | None => r = Val None /\ calls_between s s' [] /\ works (world s') = works (world s)
     | Some l =>
         exists post,
           calls_between s s'
             (post ++ [DecisionList (req_Namespace req) (placement_selector l)])
           /\ (Manifests (Workload (bSpec bundle)) = [] ->
               post = [] /\ works (world s') = works (world s))
           /\ (List.filter (carries_placement l (req_Namespace req))
                 (decisions (world s)) = [] ->
               post = [] /\ works (world s') = works (world s)
               /\ exists e, r = Val (Some e)
                    /\ (next_fault (world s) = None -> e = ErrNoDecision l))
           /\ (forall pd pds d ds,
                 next_fault (world s) = None ->
                 List.filter (carries_placement l (req_Namespace req))
                   (decisions (world s)) = pd :: pds ->
                 Decisions pd = d :: ds ->
                 Manifests (Workload (bSpec bundle)) <> [] ->
                 exists post',
                   post = post' ++ [WorkGet (ClusterName d) (Name (bMeta bundle))])
     end.
Proof.
  rewrite Reconcile_placement_unfold.
  destruct (getPlacementLabel bundle (heap s)) as [l|] eqn:Hlab.
  2:{ intros [= <- <-]. simpl. repeat split; auto; discriminate. }
  destruct (getPlacementDecision _ _ _) as [r1 s2] eqn:E.
  apply getPlacementDecision_inv in E as (res & w' & Hlist & -> & ->).
  pose proof (decision_list_result (req_Namespace req) (placement_selector l)
                (record_log (LogNamespace (req_Namespace req))
                   (world (logged (LogPlacementLabelFound l (Name (bMeta bundle))) s))))
    as Hres.
  rewrite Hlist in Hres. simpl in Hres.
  apply decision_list_effect in Hlist as ((Ht & Hdec & Hlog) & Hb & Hw).
  simpl in Ht, Hdec, Hlog, Hb, Hw.
  assert (Hsel : forall ds, List.filter
             (fun d => bool_decide (Namespace (pMeta d) = req_Namespace req)
                       && Selector_Matches (placement_selector l) (Labels (pMeta d))) ds
             = List.filter (carries_placement l (req_Namespace req)) ds).
  { intros ds. apply List.filter_ext. intros d. apply selector_carries. }
  rewrite Hsel in Hres.
  destruct res as [err|[|pd pds]].
  - (* the lister fails *)
    destruct Hres as [reason [-> Hfault]].
    unfold next_fault in *. simpl in Hfault.
    intros [= <- <-]. simpl. split; [discriminate|]. split; [exact Hb|].
    exists []. split; [exact Ht|]. split; [auto|]. split.
    + intros _. repeat split; auto.
      eexists. split; [reflexivity|]. intros Hcalm. congruence.
    + intros pd pds d ds Hcalm. congruence.
  - (* no decision matches *)
    destruct Hres as [Hcalm Hnone].
    intros [= <- <-]. simpl. split; [discriminate|]. split; [exact Hb|].
    exists []. split; [exact Ht|]. split; [auto|]. split.
    + intros _. repeat split; auto.
      eexists. split; reflexivity.
    + intros pd' pds' d ds _ Hsome. congruence.
  - (* the first matching decision *)
    destruct Hres as [Hcalm Hsome].
    destruct (Manifests (Workload (bSpec bundle))) as [|m ms] eqn:Hman; simpl.
    + intros [= <- <-]. simpl. split; [discriminate|]. split; [exact Hb|].
      exists []. split; [exact Ht|]. split; [auto|]. split.
      * intros Hnone. congruence.
      * intros pd' pds' d ds _ _ _ Hne. now contradiction Hne.
    + unfold scheduleBundle.
      destruct (scheduleBundle_range _ _ _) as [r3 s3] eqn:E3.
      eapply (scheduleBundle_range_safe bundle (Decisions pd) _ l) in E3
        as (Hr3 & _ & Hb3 & new & Hnew & Hfirst); [|exact Hlab].
      simpl in Hb3. unfold calls_between in Hnew. simpl in Hnew.
      destruct r3 as [e|]; [|now contradiction Hr3].
      intros [= <- <-]. split; [discriminate|]. split; [congruence|].
      exists new. split; [|split; [|split]].
      * unfold calls_between. rewrite Hnew, Ht, <- app_assoc. reflexivity.
      * discriminate.
      * intros Hnone. congruence.
      * intros pd' pds' d ds _ Hpd Hd _.
        assert (pd' = pd) by congruence. subst pd'.
        rewrite Hd in Hfirst. exact Hfirst.
Qed.

Lemma Reconcile_unfold_err (DF : string) (IC : error -> option error)
    (req : Request) (s : St) (err : error) (w0 : World) :
  bundle_get (req_Namespace req) (req_Name req) (world s) = (Err err, w0) ->
  Reconcile DF IC req s = (Val (IgnoreNotFound err), mkSt w0 (heap s)).
Proof.
  intros Hget. unfold Reconcile, bind, client_Get, bind, on_world.
  rewrite Hget. reflexivity.
Qed.

Lemma client_Update_effect (b : AppBundle) (s : St) r s' :
  client_Update b s = (r, s') ->
  heap s' = heap s
  /\ works (world s') = works (world s)
  /\ decisions (world s') = decisions (world s)
  /\ calls_between s s' [BundleUpdate (encode_bundle (heap s) b)]
  /\ exists e, r = Val e /\ (e <> None -> bundles (world s') = bundles (world s)).
Proof.
  intros H. apply client_Update_inv in H as (res & w' & Hu & -> & ->).
  apply bundle_update_effect in Hu as ((Ht & Hdec & _) & Hw & Hres).
  simpl. repeat split; auto.
  eexists. split; [reflexivity|].
  destruct res as [err|u]; simpl; [auto|]. intros Hne. now contradiction Hne.
Qed.

(** In a world without injected failures a call is its effect on the
    store. *)
Lemma api_calm {A : Type} (c : Call) (sem : World -> Result A * World) (w : World) :
  faults w = [] -> api c sem w = sem (record_call c w).
Proof.
  intros H. unfold api. simpl. now rewrite H.
Qed.

Lemma bundle_get_calm (ns name : string) (w : World) r w' :
  faults w = [] -> bundle_get ns name w = (r, w') -> faults w' = [].
Proof.
  intros H. unfold bundle_get. rewrite api_calm by exact H.
  destruct (find _ _); intros [= <- <-]; exact H.
Qed.

Lemma bundle_update_calm (b : StoredBundle) (w : World) :
  faults w = [] ->
  existsb (fun x => has_key (Namespace (bMeta b)) (Name (bMeta b)) (bMeta x)) (bundles w)
    = true ->
  exists w', bundle_update b w = (Ok tt, w') /\ faults w' = [].
Proof.
  intros H Hex. unfold bundle_update. rewrite api_calm by exact H.
  simpl. rewrite Hex. eexists. split; [reflexivity|exact H].
Qed.

Lemma deletes_only (new : list Call) :
  forallb is_WorkDelete new = true ->
  existsb is_WorkCreate new = false
  /\ existsb is_WorkUpdate new = false
  /\ existsb is_BundleUpdate new = false.
Proof.
  induction new as [|c new IH]; simpl; [auto|].
  intros H. apply andb_true_iff in H as [Hc Hn].
  destruct (IH Hn) as (H1 & H2 & H3). rewrite H1, H2, H3.
  destruct c; try discriminate. auto.
Qed.

(** C9.  When [getPlacementLabel] finds the placement label, the Bundle's
    label map is not nil and [generateManifest] writes the ownership label
    without a panic; and [Reconcile], which calls [generateManifest] only
    after [getPlacementLabel] has found the label, never panics, whatever
    the stores hold and whichever calls fail. *)
Theorem Reconcile_never_writes_nil_map :
  (forall (bundle : AppBundle) (c : string) (h : Heap) (l : string),
     getPlacementLabel bundle h = Some l ->
     Labels (bMeta bundle) <> None /\ is_Some (generateManifest bundle c h))
  /\ (forall (DF : string) (IC : error -> option error) (req : Request) (s : St),
        fst (Reconcile DF IC req s) <> Panic).
Proof.
  split.
  - intros bundle c h l Hl. split.
    + unfold getPlacementLabel, map_get in Hl.
      destruct (Labels (bMeta bundle)); [discriminate|discriminate].
    + destruct (generateManifest_labelled bundle c h l Hl) as (art & h' & -> & _).
      eexists. reflexivity.
  - intros DF IC req s.
    destruct (bundle_get (req_Namespace req) (req_Name req) (world s))
      as [[err|sb] w0] eqn:Hget.
    + rewrite (Reconcile_unfold_err DF IC req s err w0 Hget). discriminate.
    + rewrite (Reconcile_unfold DF IC req s sb w0 Hget).
      destruct (IsZero _); destruct (containsString _ _); simpl.
      * destruct (Reconcile_placement _ _ _) as [r s'] eqn:E.
        now apply Reconcile_placement_effect in E as [E _].
      * destruct (client_Update _ _) as [r s2] eqn:E.
        apply client_Update_effect in E as (_ & _ & _ & _ & e & -> & _).
        destruct e; [discriminate|].
        destruct (Reconcile_placement _ _ _) as [r s'] eqn:E.
        now apply Reconcile_placement_effect in E as [E _].
      * destruct (deleteAllChildManifests _ _) as [r s2] eqn:E.
        apply deleteAllChildManifests_effect in E as (_ & _ & _ & _ & _ & _ & Hr).
        destruct r as [[e|]|]; [discriminate| |contradiction].
        destruct (client_Update _ _) as [r s3] eqn:E.
        apply client_Update_effect in E as (_ & _ & _ & _ & e & -> & _).
        destruct e; discriminate.
      * discriminate.
Qed.

Lemma Reconcile_never_writes_nil_map_witness :
  getPlacementLabel Scenario.b1_mem Scenario.b1_heap = Some "p1"
  /\ Labels (bMeta Scenario.b1_mem) <> None
  /\ is_Some (generateManifest Scenario.b1_mem "east" Scenario.b1_heap).
Proof.
  split; [reflexivity|].
  apply (proj1 Reconcile_never_writes_nil_map Scenario.b1_mem "east"
           Scenario.b1_heap "p1").
  reflexivity.
Defined.

(** C7.  If the Bundle that the request names has an empty manifest list,
    a reconciliation issues no Create (and no Update) of a ManifestArtifact,
    whatever its placement resolves to and whichever calls fail, and every
    artifact in the store afterwards was there before. *)
Theorem Reconcile_empty_bundle_creates_nothing
    (DF : string) (IC : error -> option error) (req : Request) (s : St) :
  (forall sb, In sb (bundles (world s)) ->
     has_key (req_Namespace req) (req_Name req) (bMeta sb) = true ->
     Manifests (Workload (bSpec sb)) = []) ->
  exists new,
    calls_between s (snd (Reconcile DF IC req s)) new
    /\ existsb is_WorkCreate new = false
    /\ existsb is_WorkUpdate new = false
    /\ incl (works (world (snd (Reconcile DF IC req s)))) (works (world s)).
Proof.
  intros Hempty.
  destruct (bundle_get (req_Namespace req) (req_Name req) (world s))
    as [[err|sb] w0] eqn:Hget.
  - rewrite (Reconcile_unfold_err DF IC req s err w0 Hget). simpl.
    apply bundle_get_effect in Hget as ((Ht & _) & _ & Hw & _).
    exists [BundleGet (req_Namespace req) (req_Name req)].
    repeat split; auto. rewrite Hw. apply incl_refl.
  - rewrite (Reconcile_unfold DF IC req s sb w0 Hget).
    apply bundle_get_effect in Hget as ((Ht & _) & _ & Hw & Hfind).
    apply find_some in Hfind as [Hin Hkey].
    pose proof (Hempty sb Hin Hkey) as Hman.
    destruct (got_bundle_fields (heap s) sb) as (_ & _ & Hspec & _).
    assert (Hplace : forall s1 : St,
               exists new,
                 calls_between s1 (snd (Reconcile_placement (got_bundle (heap s) sb) req s1)) new
                 /\ existsb is_WorkCreate new = false
                 /\ existsb is_WorkUpdate new = false
                 /\ works (world (snd (Reconcile_placement (got_bundle (heap s) sb) req s1)))
                    = works (world s1)).
    { intros s1.
      destruct (Reconcile_placement _ _ s1) as [r s'] eqn:E.
      apply Reconcile_placement_effect in E as (_ & _ & E). simpl.
      destruct (getPlacementLabel _ _).
      - destruct E as (post & Hc & Hm & _).
        rewrite Hspec in Hm. destruct (Hm Hman) as [-> Hw'].
        eexists. split; [exact Hc|]. auto.
      - destruct E as (_ & Hc & Hw'). exists []. auto. }
    destruct (IsZero _); destruct (containsString _ _); simpl.
    + destruct (Hplace (mkSt w0 (got_heap (heap s) sb)))
        as (new & Hc & H1 & H2 & Hw').
      exists (new ++ [BundleGet (req_Namespace req) (req_Name req)]).
      split; [|split; [|split]].
      * unfold calls_between in *. simpl in *. rewrite Hc, Ht.
        now rewrite <- app_assoc.
      * rewrite existsb_app, H1. reflexivity.
      * rewrite existsb_app, H2. reflexivity.
      * rewrite Hw'. simpl. rewrite Hw. apply incl_refl.
    + destruct (client_Update _ _) as [r s2] eqn:E.
      apply client_Update_effect in E as (_ & Hw2 & _ & Hc2 & e & -> & _).
      unfold calls_between in Hc2. simpl in Hc2, Hw2.
      destruct e as [e|].
      * simpl. eexists [_; _]. split; [|split; [|split]].
        -- unfold calls_between. simpl. rewrite Hc2, Ht. reflexivity.
        -- reflexivity.
        -- reflexivity.
        -- rewrite Hw2, Hw. apply incl_refl.
      * destruct (Hplace s2) as (new & Hc & H1 & H2 & Hw').
        eexists (new ++ [_; _]). split; [|split; [|split]].
        -- unfold calls_between in *. rewrite Hc, Hc2, Ht.
           now rewrite <- app_assoc.
        -- rewrite existsb_app, H1. reflexivity.
        -- rewrite existsb_app, H2. reflexivity.
        -- rewrite Hw', Hw2, Hw. apply incl_refl.
    + destruct (deleteAllChildManifests _ _) as [r s2] eqn:E.
      apply deleteAllChildManifests_effect in E
        as (Hh2 & _ & _ & _ & (dels & Hc2 & Hdels) & Hincl & Hr).
      unfold calls_between in Hc2. simpl in Hc2, Hincl, Hh2.
      apply deletes_only in Hdels as (Hd1 & Hd2 & _).
      destruct r as [[e|]|]; [| |contradiction].
      * simpl. eexists (dels ++ [_; _]). split; [|split; [|split]].
        -- unfold calls_between. rewrite Hc2, Ht.
           rewrite <- !app_assoc. reflexivity.
        -- rewrite existsb_app, Hd1. reflexivity.
        -- rewrite existsb_app, Hd2. reflexivity.
        -- rewrite <- Hw. exact Hincl.
      * destruct (client_Update _ _) as [r s3] eqn:E.
        apply client_Update_effect in E as (_ & Hw3 & _ & Hc3 & e & -> & _).
        unfold calls_between in Hc3. simpl in Hc3.
        assert (Hfin : exists new,
                   calls_between s s3 new
                   /\ existsb is_WorkCreate new = false
                   /\ existsb is_WorkUpdate new = false
                   /\ incl (works (world s3)) (works (world s))).
        { eexists (_ :: dels ++ [_; _]). split; [|split; [|split]].
          - unfold calls_between. rewrite Hc3, Hc2, Ht. simpl.
            rewrite <- !app_assoc. reflexivity.
          - simpl. rewrite existsb_app, Hd1. reflexivity.
          - simpl. rewrite existsb_app, Hd2. reflexivity.
          - rewrite Hw3, <- Hw. exact Hincl. }
        destruct e; exact Hfin.
    + simpl. exists [BundleGet (req_Namespace req) (req_Name req)].
      repeat split; auto. rewrite Hw. apply incl_refl.
Qed.

Lemma Reconcile_empty_bundle_creates_nothing_witness :
  exists new,
    calls_between (start (Scenario.calm [Scenario.b1_empty] [Scenario.pd1] []))
      (snd (Reconcile Scenario.finalizer IgnoreConflict_spec Scenario.request
              (start (Scenario.calm [Scenario.b1_empty] [Scenario.pd1] [])))) new
    /\ existsb is_WorkCreate new = false.
Proof.
  destruct (Reconcile_empty_bundle_creates_nothing Scenario.finalizer
              IgnoreConflict_spec Scenario.request
              (start (Scenario.calm [Scenario.b1_empty] [Scenario.pd1] [])))
    as (new & Hc & H1 & _).
  - intros sb [<-|[]] _. reflexivity.
  - exists new. split; assumption.
Defined.

Lemma AddFinalizer_key (b : AppBundle) (f : string) :
  Name (bMeta (AddFinalizer b f)) = Name (bMeta b)
  /\ Namespace (bMeta (AddFinalizer b f)) = Namespace (bMeta b).
Proof.
  unfold AddFinalizer. destruct (existsb _ _); auto.
Qed.

Lemma AddFinalizer_absent (b : AppBundle) (f : string) :
  containsString (Finalizers (bMeta b)) f = false ->
  Finalizers (bMeta (AddFinalizer b f)) = Finalizers (bMeta b) ++ [f].
Proof.
  unfold AddFinalizer, containsString. intros ->. reflexivity.
Qed.

(** The Bundle that [r.Get] has found is in the store under the key of the
    request, and so is its copy. *)
Lemma got_copy_in_store (req : Request) (w w0 : World) (h : Heap) (sb : StoredBundle) :
  bundle_get (req_Namespace req) (req_Name req) w = (Ok sb, w0) ->
  In sb (bundles w)
  /\ forall f h',
       existsb (fun x => has_key
                  (Namespace (bMeta (encode_bundle h' (AddFinalizer (got_copy h sb) f))))
                  (Name (bMeta (encode_bundle h' (AddFinalizer (got_copy h sb) f))))
                  (bMeta x)) (bundles w0) = true.
Proof.
  intros Hget.
  apply bundle_get_effect in Hget as (_ & Hb & _ & Hfind).
  apply find_some in Hfind as [Hin Hkey]. split; [exact Hin|].
  intros f h'. simpl.
  destruct (AddFinalizer_key (got_copy h sb) f) as [-> ->].
  destruct (got_copy_fields h sb) as (-> & -> & _).
  apply existsb_exists. exists sb. rewrite Hb. split; [exact Hin|].
  unfold has_key in *. apply andb_true_iff in Hkey as [H1 H2].
  apply bool_decide_eq_true in H1. apply bool_decide_eq_true in H2.
  rewrite !bool_decide_eq_true_2; auto.
Qed.

(** ** The reconciliation entry point *)

(** C3, as amended.  For a Bundle that is not being deleted and whose
    placement reference matches no PlacementDecision, a reconciliation
    creates, updates and deletes no artifact and returns an error to its
    caller; when no store call fails, that error is the resolver's
    not-found error. *)
Theorem Reconcile_unresolved_placement
    (DF : string) (IC : error -> option error) (req : Request) (s : St)
    (sb : StoredBundle) (w0 : World) (l : string) :
  bundle_get (req_Namespace req) (req_Name req) (world s) = (Ok sb, w0) ->
  IsZero (DeletionTimestamp (bMeta sb)) = true ->
  labels_get (Labels (bMeta sb)) PlacementLabel = Some l ->
  List.filter (carries_placement l (req_Namespace req)) (decisions (world s)) = [] ->
  exists e,
    fst (Reconcile DF IC req s) = Val (Some e)
    /\ works (world (snd (Reconcile DF IC req s))) = works (world s)
    /\ (faults (world s) = [] -> e = ErrNoDecision l).
Proof.
  intros Hget Hlive Hlab Hnone.
  rewrite (Reconcile_unfold DF IC req s sb w0 Hget). rewrite Hlive.
  destruct (got_copy_in_store req (world s) w0 (heap s) sb Hget) as [_ Hex].
  pose proof (fun Hc => bundle_get_calm _ _ _ _ _ Hc Hget) as Hcalm0.
  apply bundle_get_effect in Hget as ((_ & Hdec0 & _) & _ & Hw0 & _).
  destruct (got_bundle_fields (heap s) sb) as (_ & _ & _ & Hlabel).
  specialize (Hlabel []). rewrite app_nil_r, Hlab in Hlabel.
  assert (Hplace : forall s1 : St,
             heap s1 = got_heap (heap s) sb ->
             decisions (world s1) = decisions (world s) ->
             exists e,
               fst (Reconcile_placement (got_bundle (heap s) sb) req s1) = Val (Some e)
               /\ works (world (snd (Reconcile_placement (got_bundle (heap s) sb) req s1)))
                  = works (world s1)
               /\ (faults (world s1) = [] -> e = ErrNoDecision l)).
  { intros s1 Hh Hdec.
    destruct (Reconcile_placement _ _ s1) as [r s'] eqn:E.
    apply Reconcile_placement_effect in E as (_ & _ & E).
    rewrite Hh, Hlabel in E. destruct E as (post & _ & _ & E & _).
    rewrite Hdec in E. destruct (E Hnone) as (_ & Hw & e & -> & He).
    exists e. simpl. repeat split; auto.
    intros Hcalm. apply He. unfold next_fault. now rewrite Hcalm. }
  destruct (containsString _ _); simpl.
  - destruct (Hplace (mkSt w0 (got_heap (heap s) sb)) eq_refl Hdec0)
      as (e & He & Hw & Hcalm).
    exists e. simpl in *. repeat split; auto; congruence.
  - destruct (client_Update _ _) as [r s2] eqn:E.
    apply client_Update_inv in E as (res & w2 & Hu & -> & ->). simpl in Hu.
    pose proof (fun Hc => bundle_update_calm _ w0 Hc (Hex DF (got_heap (heap s) sb)))
      as Hcalm2.
    apply bundle_update_effect in Hu as Heff.
    destruct Heff as ((_ & Hdec2 & _) & Hw2 & _).
    destruct res as [err|u]; simpl.
    + exists err. repeat split; [congruence|].
      intros Hcalm. destruct (Hcalm2 (Hcalm0 Hcalm)) as (w' & Hok & _).
      congruence.
    + destruct (Hplace (mkSt w2 (got_heap (heap s) sb)) eq_refl) as (e & He & Hw & Hcalm).
      { simpl. congruence. }
      exists e. simpl in *. repeat split; auto; [congruence|].
      intros Hc. apply Hcalm.
      destruct (Hcalm2 (Hcalm0 Hc)) as (w' & Hok & Hf'). congruence.
Qed.

Lemma Reconcile_unresolved_placement_witness :
  exists e,
    fst (Reconcile Scenario.finalizer IgnoreConflict_spec Scenario.request
           (start (Scenario.calm [Scenario.b1] [] []))) = Val (Some e)
    /\ e = ErrNoDecision "p1".
Proof.
  destruct (Reconcile_unresolved_placement Scenario.finalizer IgnoreConflict_spec
              Scenario.request (start (Scenario.calm [Scenario.b1] [] []))
              Scenario.b1
              (record_call (BundleGet "default" "b1") (Scenario.calm [Scenario.b1] [] []))
              "p1" eq_refl eq_refl eq_refl eq_refl)
    as (e & He & _ & Hcalm).
  exists e. split; [exact He|]. apply Hcalm. reflexivity.
Defined.

(** C3, as stated, fails: with no matching PlacementDecision the
    reconciliation of [b1] returns an error to its caller, not success, and
    the log holds the two lines written before the lookup and none that
    marks the condition. *)
Lemma Reconcile_unresolved_is_an_error :
  let out := Reconcile Scenario.finalizer IgnoreConflict_spec Scenario.request
               (start (Scenario.calm [Scenario.b1] [] [])) in
  fst out = Val (Some (ErrNoDecision "p1"))
  /\ fst out <> Val None
  /\ logs (world (snd out))
     = [LogNamespace "default"; LogPlacementLabelFound "p1" "b1"].
Proof.
  vm_compute. repeat split; try reflexivity. discriminate.
Qed.

(** C10.  On a Bundle that is not being deleted and lacks the finalizer,
    once the Bundle with the finalizer added has been persisted, the same
    reconciliation goes on with the placement phase: the lister is asked
    right after the update, and when the placement resolves and the
    manifest list is not empty, the artifact of the first target is read
    next. *)
Theorem Reconcile_continues_after_finalizer
    (DF : string) (IC : error -> option error) (req : Request) (s : St)
    (sb : StoredBundle) (w0 w2 : World) (l : string) :
  let stored := encode_bundle (got_heap (heap s) sb)
                  (AddFinalizer (got_copy (heap s) sb) DF) in
  bundle_get (req_Namespace req) (req_Name req) (world s) = (Ok sb, w0) ->
  IsZero (DeletionTimestamp (bMeta sb)) = true ->
  containsString (Finalizers (bMeta sb)) DF = false ->
  bundle_update stored w0 = (Ok tt, w2) ->
  labels_get (Labels (bMeta sb)) PlacementLabel = Some l ->
  Finalizers (bMeta stored) = Finalizers (bMeta sb) ++ [DF]
  /\ Reconcile DF IC req s
     = Reconcile_placement (got_bundle (heap s) sb) req (mkSt w2 (got_heap (heap s) sb))
  /\ exists post,
       calls_between s (snd (Reconcile DF IC req s))
         (post ++ [DecisionList (req_Namespace req) (placement_selector l);
                   BundleUpdate stored;
                   BundleGet (req_Namespace req) (req_Name req)])
       /\ (forall pd pds d ds,
             next_fault w2 = None ->
             List.filter (carries_placement l (req_Namespace req))
               (decisions (world s)) = pd :: pds ->
             Decisions pd = d :: ds ->
             Manifests (Workload (bSpec sb)) <> [] ->
             exists post',
               post = post' ++ [WorkGet (ClusterName d) (Name (bMeta sb))]).
Proof.
  intros stored Hget Hlive Habsent Hupd Hlab.
  destruct (got_copy_fields (heap s) sb) as (_ & _ & _ & Hfin & _).
  destruct (got_bundle_fields (heap s) sb) as (Hname & _ & Hspec & Hlabel).
  specialize (Hlabel []). rewrite app_nil_r, Hlab in Hlabel.
  assert (Hrec : Reconcile DF IC req s
                 = Reconcile_placement (got_bundle (heap s) sb) req
                     (mkSt w2 (got_heap (heap s) sb))).
  { rewrite (Reconcile_unfold DF IC req s sb w0 Hget).
    rewrite Hlive, Habsent. simpl.
    unfold client_Update, bind, read_heap, on_world, ret. simpl.
    fold stored. rewrite Hupd. reflexivity. }
  split; [|split; [exact Hrec|]].
  - subst stored. simpl. rewrite AddFinalizer_absent by (now rewrite Hfin).
    now rewrite Hfin.
  - rewrite Hrec.
    destruct (Reconcile_placement _ _ _) as [r s'] eqn:E.
    apply Reconcile_placement_effect in E as (_ & _ & E).
    simpl in E. rewrite Hlabel in E.
    destruct E as (post & Hc & _ & _ & Hfirst).
    apply bundle_get_effect in Hget as ((Ht0 & Hdec0 & _) & _).
    apply bundle_update_effect in Hupd as ((Ht2 & Hdec2 & _) & _).
    exists post. split.
    + unfold calls_between in *. simpl in *. rewrite Hc, Ht2, Ht0.
      rewrite <- !app_assoc. reflexivity.
    + intros pd pds d ds Hcalm Hpd Hd Hne.
      rewrite <- Hname. apply (Hfirst pd pds d ds Hcalm).
      * rewrite Hdec2, Hdec0. exact Hpd.
      * exact Hd.
      * now rewrite Hspec.
Qed.

Lemma Reconcile_continues_after_finalizer_witness :
  let s := start (Scenario.calm [Scenario.b1_new] [Scenario.pd1] []) in
  exists post stored,
    calls_between s
      (snd (Reconcile Scenario.finalizer IgnoreConflict_spec Scenario.request s))
      (post ++ [DecisionList "default" (placement_selector "p1");
                BundleUpdate stored;
                BundleGet "default" "b1"])
    /\ Finalizers (bMeta stored) = [Scenario.finalizer]
    /\ exists post', post = post' ++ [WorkGet "east" "b1"].
Proof.
  intros s.
  set (w0 := record_call (BundleGet "default" "b1")
               (Scenario.calm [Scenario.b1_new] [Scenario.pd1] [])).
  set (stored := encode_bundle (got_heap [] Scenario.b1_new)
                   (AddFinalizer (got_copy [] Scenario.b1_new) Scenario.finalizer)).
  destruct (Reconcile_continues_after_finalizer Scenario.finalizer
              IgnoreConflict_spec Scenario.request s Scenario.b1_new
              w0 (snd (bundle_update stored w0)) "p1")
    as (Hfin & _ & post & Hc & Hfirst).
  - reflexivity.
  - reflexivity.
  - reflexivity.
  - vm_compute. reflexivity.
  - reflexivity.
  - exists post. eexists. split; [exact Hc|]. split; [exact Hfin|].
    apply (Hfirst Scenario.pd1 [] (mkClusterDecision "east" "")
             [mkClusterDecision "west" ""]).
    + reflexivity.
    + vm_compute. reflexivity.
    + reflexivity.
    + discriminate.
Defined.

Lemma deletes_are_not_updates (new : list Call) :
  forallb is_WorkDelete new = true -> List.filter is_BundleUpdate new = [].
Proof.
  induction new as [|c new IH]; simpl; [reflexivity|].
  intros H. apply andb_true_iff in H as [Hc Hn].
  destruct c; try discriminate. simpl. auto.
Qed.

(** C5.  On a Bundle that is being deleted and carries the finalizer, a
    reconciliation runs the sweep on the Bundle (its copy, with the same
    UID) right after reading it.  If the listing or a delete of the sweep
    fails, the reconciliation returns that error, issues no update of the
    Bundle, and the Bundle store is as before, so the Bundle is still there
    with its finalizer.  Only when the sweep reports success, and then no
    artifact is left, is the Bundle without the finalizer sent to the
    store, in one update. *)
Theorem Reconcile_deleting_gated
    (DF : string) (IC : error -> option error) (req : Request) (s : St)
    (sb : StoredBundle) (w0 : World) :
  let b := got_copy (heap s) sb in
  let swept := deleteAllChildManifests b (mkSt w0 (got_heap (heap s) sb)) in
  let out := Reconcile DF IC req s in
  bundle_get (req_Namespace req) (req_Name req) (world s) = (Ok sb, w0) ->
  IsZero (DeletionTimestamp (bMeta sb)) = false ->
  containsString (Finalizers (bMeta sb)) DF = true ->
  UID (bMeta b) = UID (bMeta sb)
  /\ exists dels upd,
       calls_between s (snd out)
         (upd ++ dels ++ [WorkList "" (mkListOptions []);
                          BundleGet (req_Namespace req) (req_Name req)])
       /\ forallb is_WorkDelete dels = true
       /\ match fst swept with
          | Val (Some e) =>
              out = (Val (Some e), snd swept)
              /\ upd = []
              /\ bundles (world (snd out)) = bundles (world s)
              /\ In sb (bundles (world (snd out)))
          | Val None =>
              works (world (snd out)) = []
              /\ upd = [BundleUpdate (encode_bundle (heap (snd swept))
                                        (RemoveFinalizer b DF))]
              /\ containsString
                   (Finalizers (bMeta (RemoveFinalizer b DF))) DF = false
          | Panic => False
          end.
Proof.
  intros b swept out Hget Hdel Hfin.
  destruct (got_copy_fields (heap s) sb) as (_ & _ & Huid & _).
  split; [exact Huid|].
  subst out. rewrite (Reconcile_unfold DF IC req s sb w0 Hget).
  rewrite Hdel, Hfin. fold b. fold swept.
  destruct (got_copy_in_store req (world s) w0 (heap s) sb Hget) as [Hin _].
  apply bundle_get_effect in Hget as ((Ht0 & _) & Hb0 & _).
  destruct swept as [r s2] eqn:E.
  apply deleteAllChildManifests_effect in E
    as (Hh2 & Hb2 & _ & _ & (dels & Hc2 & Hdels) & _ & Hr).
  unfold calls_between in Hc2. simpl in Hc2, Hb2, Hh2.
  exists dels.
  destruct r as [[e|]|]; [| |contradiction]; simpl.
  - exists []. split; [|split; [exact Hdels|]].
    + unfold calls_between. simpl. rewrite Hc2, Ht0.
      rewrite <- !app_assoc. reflexivity.
    + repeat split; congruence.
  - destruct (client_Update _ _) as [r3 s3] eqn:E3.
    apply client_Update_effect in E3 as (_ & Hw3 & _ & Hc3 & e & -> & _).
    unfold calls_between in Hc3.
    exists [BundleUpdate (encode_bundle (heap s2) (RemoveFinalizer b DF))].
    assert (Hs3 : calls_between s s3
                    ([BundleUpdate (encode_bundle (heap s2) (RemoveFinalizer b DF))]
                       ++ dels ++ [WorkList "" (mkListOptions []);
                                   BundleGet (req_Namespace req) (req_Name req)])).
    { unfold calls_between. rewrite Hc3, Hc2, Ht0. simpl.
      rewrite <- !app_assoc. reflexivity. }
    assert (Hgone : containsString (Finalizers (bMeta (RemoveFinalizer b DF))) DF = false).
    { unfold RemoveFinalizer, containsString. simpl.
      apply not_true_is_false. intros Hx.
      apply existsb_exists in Hx as (f & Hf & Heq).
      apply List.filter_In in Hf as [_ Hf].
      apply String.eqb_eq in Heq. subst f.
      rewrite String.eqb_refl in Hf. discriminate. }
    destruct e; simpl; (split; [exact Hs3|split; [exact Hdels|]]);
      (split; [congruence|split; [reflexivity|exact Hgone]]).
Qed.

Lemma Reconcile_deleting_gated_witness :
  let s := start (Scenario.stormy [Scenario.b1_deleting] [Scenario.pd1]
                    [Scenario.artifact "east" "b1" "u1";
                     Scenario.artifact "west" "b1" "u1"]
                    [None; None; None; Some (OtherReason "timeout")]) in
  let out := Reconcile Scenario.finalizer IgnoreConflict_spec Scenario.request s in
  fst out = Val (Some (StatusError (OtherReason "timeout")))
  /\ bundles (world (snd out)) = [Scenario.b1_deleting].
Proof.
  intros s out.
  destruct (Reconcile_deleting_gated Scenario.finalizer IgnoreConflict_spec
              Scenario.request s Scenario.b1_deleting
              (set_faults [None; None; Some (OtherReason "timeout")]
                 (record_call (BundleGet "default" "b1") (world s)))
              eq_refl eq_refl eq_refl)
    as (_ & dels & upd & _ & _ & H).
  change (fst (deleteAllChildManifests (got_copy (heap s) Scenario.b1_deleting)
                 (mkSt (set_faults [None; None; Some (OtherReason "timeout")]
                          (record_call (BundleGet "default" "b1") (world s)))
                       (got_heap (heap s) Scenario.b1_deleting))))
    with (Val (Some (StatusError (OtherReason "timeout")))) in H.
  destruct H as (Hout & _ & Hb & _).
  fold out in Hout, Hb. split.
  - now rewrite Hout.
  - exact Hb.
Defined.

(** A Conflict on the update that removes the finalizer ends the
    reconciliation with whatever [IgnoreConflict] makes of it, after a
    single update call. *)
Lemma Reconcile_conflict_on_finalizer_removal
    (DF : string) (IC : error -> option error) (req : Request) (s : St)
    (sb : StoredBundle) (w0 w3 : World) (s2 : St) :
  let b := got_copy (heap s) sb in
  bundle_get (req_Namespace req) (req_Name req) (world s) = (Ok sb, w0) ->
  IsZero (DeletionTimestamp (bMeta sb)) = false ->
  containsString (Finalizers (bMeta sb)) DF = true ->
  deleteAllChildManifests b (mkSt w0 (got_heap (heap s) sb)) = (Val None, s2) ->
  bundle_update (encode_bundle (heap s2) (RemoveFinalizer b DF)) (world s2)
    = (Err (StatusError Conflict), w3) ->
  Reconcile DF IC req s = (Val (IC (StatusError Conflict)), mkSt w3 (heap s2))
  /\ exists new,
       calls_between s (mkSt w3 (heap s2)) new
       /\ List.length (List.filter is_BundleUpdate new) = 1.
Proof.
  intros b Hget Hdel Hfin Hsweep Hupd.
  rewrite (Reconcile_unfold DF IC req s sb w0 Hget).
  rewrite Hdel, Hfin. fold b. rewrite Hsweep.
  unfold client_Update, bind, read_heap, on_world, ret. simpl.
  rewrite Hupd. split; [reflexivity|].
  apply bundle_get_effect in Hget as ((Ht0 & _) & _).
  apply deleteAllChildManifests_effect in Hsweep
    as (_ & _ & _ & _ & (dels & Hc2 & Hdels) & _).
  apply bundle_update_effect in Hupd as ((Ht3 & _) & _).
  unfold calls_between in *. simpl in *.
  eexists (_ :: dels ++ [_; _]). split.
  - rewrite Ht3, Hc2, Ht0. simpl. rewrite <- !app_assoc. reflexivity.
  - simpl. rewrite List.filter_app, (deletes_are_not_updates dels Hdels).
    reflexivity.
Qed.

(** C6.  With [IgnoreConflict] as the specification describes it: when the
    update that removes the finalizer fails with a Conflict, the
    reconciliation returns the Conflict to its caller, and it has called
    the update once, with no retry. *)
Theorem Reconcile_conflict_surfaced
    (DF : string) (req : Request) (s : St)
    (sb : StoredBundle) (w0 w3 : World) (s2 : St) :
  let b := got_copy (heap s) sb in
  bundle_get (req_Namespace req) (req_Name req) (world s) = (Ok sb, w0) ->
  IsZero (DeletionTimestamp (bMeta sb)) = false ->
  containsString (Finalizers (bMeta sb)) DF = true ->
  deleteAllChildManifests b (mkSt w0 (got_heap (heap s) sb)) = (Val None, s2) ->
  bundle_update (encode_bundle (heap s2) (RemoveFinalizer b DF)) (world s2)
    = (Err (StatusError Conflict), w3) ->
  Reconcile DF IgnoreConflict_spec req s
  = (Val (Some (StatusError Conflict)), mkSt w3 (heap s2))
  /\ exists new,
       calls_between s (mkSt w3 (heap s2)) new
       /\ List.length (List.filter is_BundleUpdate new) = 1.
Proof.
  intros b Hget Hdel Hfin Hsweep Hupd.
  exact (Reconcile_conflict_on_finalizer_removal DF IgnoreConflict_spec req s
           sb w0 w3 s2 Hget Hdel Hfin Hsweep Hupd).
Qed.

Lemma Reconcile_conflict_surfaced_witness :
  let s := start (Scenario.stormy [Scenario.b1_deleting] [Scenario.pd1]
                    [Scenario.artifact "east" "b1" "u1"]
                    [None; None; None; Some Conflict]) in
  fst (Reconcile Scenario.finalizer IgnoreConflict_spec Scenario.request s)
  = Val (Some (StatusError Conflict)).
Proof.
  intros s.
  set (w0 := set_faults [None; None; Some Conflict]
               (record_call (BundleGet "default" "b1") (world s))).
  set (swept := deleteAllChildManifests (got_copy (heap s) Scenario.b1_deleting)
                  (mkSt w0 (got_heap (heap s) Scenario.b1_deleting))).
  set (upd := bundle_update
                (encode_bundle (heap (snd swept))
                   (RemoveFinalizer (got_copy (heap s) Scenario.b1_deleting)
                      Scenario.finalizer))
                (world (snd swept))).
  destruct (Reconcile_conflict_surfaced Scenario.finalizer Scenario.request s
              Scenario.b1_deleting w0 (snd upd) (snd swept)) as [H _].
  - reflexivity.
  - reflexivity.
  - reflexivity.
  - vm_compute. reflexivity.
  - vm_compute. reflexivity.
  - rewrite H. reflexivity.
Defined.

(** ** Convergence over the target list *)

Lemma generateManifest_Name (bundle : AppBundle) (c : string) (h h' : Heap)
    (m : ManifestWork) :
  generateManifest bundle c h = Some (m, h') -> Name (mMeta m) = Name (bMeta bundle).
Proof.
  unfold generateManifest. destruct (map_set _ _ _ _); [|discriminate].
  intros [= <- _]. reflexivity.
Qed.

(** Whenever the read of the artifact on a target does not find it, the
    loop ends with that target: the targets after it play no part in the
    outcome. *)
Lemma scheduleBundle_range_early_return (bundle : AppBundle)
    (dec : ClusterDecision) (rest : list ClusterDecision) (s : St) :
  find (fun x => has_key (ClusterName dec) (Name (bMeta bundle)) (mMeta x))
    (works (world s)) = None ->
  scheduleBundle_range bundle (dec :: rest) s = scheduleBundle_range bundle [dec] s.
Proof.
  intros Habsent. simpl.
  unfold bind, klog_Infof, on_world, on_heap_or_panic. simpl.
  destruct (generateManifest bundle (ClusterName dec) _) as [[m h1]|] eqn:G;
    [|reflexivity].
  apply generateManifest_Name in G.
  destruct (ManifestWorks_Get _ _ _) as [r1 s1] eqn:E.
  apply ManifestWorks_Get_inv in E as (res & w1 & Hg & Hres).
  apply work_get_effect in Hg as (_ & _ & _ & Hfound). simpl in Hfound.
  destruct res as [err|sw].
  - destruct Hres as [-> ->]. reflexivity.
  - rewrite G, Habsent in Hfound. discriminate.
Qed.

(** C2 fails on the code.  [b1] is to converge on east and west and
    neither holds its artifact.  The convergence creates the artifact on
    east and returns success: west is not addressed by any call and holds
    no artifact afterwards. *)
Theorem scheduleBundle_stops_after_first_create :
  let w := Scenario.calm [Scenario.b1] [Scenario.pd1] [] in
  let out := scheduleBundle Scenario.b1_mem Scenario.pd1 (mkSt w Scenario.b1_heap) in
  map ClusterName (Decisions Scenario.pd1) = ["east"; "west"]
  /\ fst out = Val None
  /\ map (fun x => (Namespace (mMeta x), Name (mMeta x))) (works (world (snd out)))
     = [("east", "b1")]
  /\ List.filter (fun c => bool_decide (work_namespace c = Some "west"))
       (trace (world (snd out))) = [].
Proof.
  vm_compute. repeat split; reflexivity.
Qed.

(** The sweep does not depend on the Bundle it is called for. *)
Lemma deleteAllChildManifests_any_owner (b b' : AppBundle) (s : St) :
  deleteAllChildManifests b s = deleteAllChildManifests b' s.
Proof. reflexivity. Qed.

(** * Further properties of the controller *)

(** ** The sweep, call by call *)

Lemma has_key_key_of (m x : StoredWork) :
  has_key (Namespace (mMeta m)) (Name (mMeta m)) (mMeta x) = true
  <-> key_of x = key_of m.
Proof.
  unfold has_key, key_of. rewrite andb_true_iff, !bool_decide_eq_true.
  split.
  - intros [-> ->]. reflexivity.
  - intros [= -> ->]. auto.
Qed.

Lemma work_delete_calm (ns name : string) (w : World) :
  faults w = [] ->
  work_delete ns name w
  = if holds ns name (works w)
    then (Ok tt, set_works (List.filter (fun x => negb (has_key ns name (mMeta x))) (works w))
                   (record_call (WorkDelete ns name) w))
    else (Err (StatusError NotFound), record_call (WorkDelete ns name) w).
Proof.
  intros H. unfold work_delete. rewrite api_calm by exact H. reflexivity.
Qed.

Lemma filter_all_In {A : Type} (f : A -> bool) (l : list A) :
  (forall x, In x l -> f x = true) -> List.filter f l = l.
Proof.
  induction l as [|x l IH]; simpl; intros Hf; [reflexivity|].
  rewrite (Hf x) by now left. rewrite IH; [reflexivity|].
  intros y Hy. apply Hf. now right.
Qed.

(** With one artifact per key, deleting the head of the store leaves the
    tail. *)
Lemma filter_head_key (m : StoredWork) (rest : list StoredWork) :
  List.NoDup (map key_of (m :: rest)) ->
  List.filter (fun x => negb (has_key (Namespace (mMeta m)) (Name (mMeta m)) (mMeta x)))
    (m :: rest) = rest.
Proof.
  intros Hnd. simpl in Hnd. apply List.NoDup_cons_iff in Hnd as [Hnotin _].
  simpl.
  replace (has_key (Namespace (mMeta m)) (Name (mMeta m)) (mMeta m)) with true
    by (symmetry; now apply has_key_key_of).
  simpl. apply filter_all_In. intros x Hx.
  apply negb_true_iff, not_true_is_false. intros Hk.
  apply has_key_key_of in Hk. apply Hnotin. rewrite <- Hk.
  now apply List.in_map.
Qed.

Lemma deleteAllChildManifests_range_calm (items : list StoredWork) :
  forall s : St,
    faults (world s) = [] ->
    works (world s) = items ->
    List.NoDup (map key_of items) ->
    exists s',
      deleteAllChildManifests_range items s = (Val None, s')
      /\ works (world s') = []
      /\ trace (world s') = rev (map delete_call items) ++ trace (world s)
      /\ faults (world s') = []
      /\ bundles (world s') = bundles (world s)
      /\ heap s' = heap s.
Proof.
  induction items as [|m rest IH]; intros s Hcalm Hw Hnd.
  - exists s. simpl. repeat split; auto.
  - simpl. unfold bind, ManifestWorks_Delete, bind, on_world.
    rewrite work_delete_calm by exact Hcalm. rewrite Hw.
    unfold holds. simpl.
    replace (has_key (Namespace (mMeta m)) (Name (mMeta m)) (mMeta m)) with true
      by (symmetry; now apply has_key_key_of).
    pose proof (filter_head_key m rest Hnd) as Hf. simpl in Hf.
    replace (has_key (Namespace (mMeta m)) (Name (mMeta m)) (mMeta m)) with true in Hf
      by (symmetry; now apply has_key_key_of).
    simpl in Hf. simpl. rewrite Hf.
    simpl in Hnd. apply List.NoDup_cons_iff in Hnd as [_ Hnd].
    destruct (IH (mkSt (set_works rest (record_call (delete_call m) (world s))) (heap s)))
      as (s' & Hrun & Hw' & Ht' & Hf' & Hb' & Hh'); auto.
    exists s'. unfold delete_call in *. rewrite Hrun.
    repeat split; auto.
    rewrite Ht'. simpl. rewrite <- app_assoc. reflexivity.
Qed.


Lemma work_list_calm (w : World) :
  faults w = [] ->
  work_list "" (mkListOptions []) w
  = (Ok (works w), record_call (WorkList "" (mkListOptions [])) w).
Proof.
  intros H. unfold work_list. rewrite api_calm by exact H. simpl.
  rewrite filter_all by (intros x; reflexivity). reflexivity.
Qed.

(** The sweep in a world where no call fails and every key holds one
    artifact. *)
Lemma sweep_without_failure (bundle : AppBundle) (s : St) :
  faults (world s) = [] ->
  List.NoDup (map key_of (works (world s))) ->
  exists s',
    deleteAllChildManifests bundle s = (Val None, s')
    /\ works (world s') = []
    /\ trace (world s')
       = rev (map delete_call (works (world s)))
           ++ WorkList "" (mkListOptions []) :: trace (world s)
    /\ bundles (world s') = bundles (world s)
    /\ faults (world s') = [].
Proof.
  intros Hcalm Hnd.
  unfold deleteAllChildManifests, bind, ManifestWorks_List, on_world.
  rewrite work_list_calm by exact Hcalm.
  destruct (deleteAllChildManifests_range_calm (works (world s))
              (mkSt (record_call (WorkList "" (mkListOptions [])) (world s)) (heap s)))
    as (s' & Hrun & Hw & Ht & Hf & Hb & _); auto.
  exists s'. rewrite Hrun. repeat split; auto.
Qed.

(** X1.  When no call fails and the work store holds one artifact per key,
    the sweep succeeds, whatever Bundle it is called for: it lists once,
    deletes the artifacts one by one in the order of the listing, and
    leaves the work store empty and the Bundle store as it was. *)
Theorem deleteAllChildManifests_calm (bundle : AppBundle) (s : St) :
  faults (world s) = [] ->
  List.NoDup (map key_of (works (world s))) ->
  exists s',
    deleteAllChildManifests bundle s = (Val None, s')
    /\ works (world s') = []
    /\ trace (world s')
       = rev (map delete_call (works (world s)))
           ++ WorkList "" (mkListOptions []) :: trace (world s)
    /\ bundles (world s') = bundles (world s)
    /\ faults (world s') = [].
Proof. exact (sweep_without_failure bundle s). Qed.


Lemma deleteAllChildManifests_calm_witness :
  exists s',
    deleteAllChildManifests Scenario.b1_mem
      (mkSt (Scenario.calm [Scenario.b1_deleting] []
               [Scenario.artifact "east" "b1" "u1"; Scenario.artifact "west" "b1" "u1"])
            Scenario.b1_heap) = (Val None, s')
    /\ works (world s') = []
    /\ trace (world s')
       = [WorkDelete "west" "b1"; WorkDelete "east" "b1"; WorkList "" (mkListOptions [])].
Proof.
  destruct (deleteAllChildManifests_calm Scenario.b1_mem
              (mkSt (Scenario.calm [Scenario.b1_deleting] []
                       [Scenario.artifact "east" "b1" "u1";
                        Scenario.artifact "west" "b1" "u1"])
                    Scenario.b1_heap))
    as (s' & Hrun & Hw & Ht & _).
  - reflexivity.
  - simpl. repeat constructor; simpl; intuition discriminate.
  - exists s'. repeat split; assumption.
Defined.





(** ** Convergence, call by call *)

Lemma decode_work_roundtrip (h t : Heap) (sw : StoredWork) :
  encode_work (snd (decode_work h sw) ++ t) (fst (decode_work h sw)) = sw.
Proof.
  unfold decode_work, encode_work.
  pose proof (decode_meta_roundtrip h t (mMeta sw)) as H.
  destruct (decode_meta h (mMeta sw)) as [m h1]. simpl in *.
  rewrite H. destruct sw; reflexivity.
Qed.

(** The copy of a decoded artifact encodes to the stored artifact. *)
Lemma DeepCopy_work_roundtrip (h t : Heap) (sw : StoredWork) :
  let m := fst (decode_work h sw) in
  let h1 := snd (decode_work h sw) in
  encode_work (snd (DeepCopy_work h1 m) ++ t) (fst (DeepCopy_work h1 m)) = sw.
Proof.
  intros m h1. unfold DeepCopy_work.
  pose proof (decode_work_roundtrip h [] sw) as H0. rewrite app_nil_r in H0.
  fold m h1 in H0. rewrite H0. apply decode_work_roundtrip.
Qed.

Lemma holds_app (ns name : string) (ws ws' : list StoredWork) :
  holds ns name (ws ++ ws') = holds ns name ws || holds ns name ws'.
Proof. apply existsb_app. Qed.

(** Replacing the artifacts under a key by one with that key keeps every
    key of the store. *)
Lemma holds_replace (ns name k n : string) (m : StoredWork) (ws : list StoredWork) :
  Namespace (mMeta m) = ns ->
  holds k n (map (fun x => if has_key ns (Name (mMeta m)) (mMeta x) then m else x) ws)
  = holds k n ws.
Proof.
  intros Hns. unfold holds. induction ws as [|x ws IH]; simpl; [reflexivity|].
  rewrite IH. f_equal.
  destruct (has_key ns (Name (mMeta m)) (mMeta x)) eqn:E; [|reflexivity].
  unfold has_key in *. apply andb_true_iff in E as [E1 E2].
  apply bool_decide_eq_true in E1. apply bool_decide_eq_true in E2.
  now rewrite Hns, E1, E2.
Qed.

Lemma work_create_holds (ns : string) (m : StoredWork) (w : World) r w' (k n : string) :
  work_create ns m w = (r, w') ->
  holds k n (works w) = true -> holds k n (works w') = true.
Proof.
  unfold work_create, api. simpl.
  destruct (faults w) as [|[reason|] fs]; simpl;
    try (destruct (negb _); simpl);
    try (destruct (existsb (fun x => has_key ns (Name (mMeta m)) (mMeta x)) (works w));
         simpl);
    intros [= <- <-]; simpl; auto;
    intros H; rewrite holds_app, H; reflexivity.
Qed.

Lemma work_update_holds (ns : string) (m : StoredWork) (w : World) r w' (k n : string) :
  work_update ns m w = (r, w') ->
  holds k n (works w') = holds k n (works w).
Proof.
  unfold work_update, api. simpl.
  destruct (faults w) as [|[reason|] fs]; simpl;
    try (destruct (bool_decide (Namespace (mMeta m) = ns)) eqn:Hns; simpl);
    try (destruct (existsb (fun x => has_key ns (Name (mMeta m)) (mMeta x)) (works w));
         simpl);
    intros [= <- <-]; simpl; auto;
    apply bool_decide_eq_true in Hns; now apply holds_replace.
Qed.

Lemma work_create_keeps (ns : string) (m : StoredWork) (w : World) r w' (x : StoredWork) :
  work_create ns m w = (r, w') -> In x (works w) -> In x (works w').
Proof.
  unfold work_create, api. simpl.
  destruct (faults w) as [|[reason|] fs]; simpl;
    try (destruct (negb _); simpl);
    try (destruct (existsb (fun x => has_key ns (Name (mMeta m)) (mMeta x)) (works w));
         simpl);
    intros [= <- <-]; simpl; auto;
    intros H; apply in_or_app; now left.
Qed.

Lemma work_update_keeps (ns : string) (m : StoredWork) (w : World) r w' (x : StoredWork) :
  work_update ns m w = (r, w') ->
  In x (works w) -> key_of x <> (ns, Name (mMeta m)) -> In x (works w').
Proof.
  unfold work_update, api. simpl.
  destruct (faults w) as [|[reason|] fs]; simpl;
    try (destruct (negb _); simpl);
    try (destruct (existsb (fun x => has_key ns (Name (mMeta m)) (mMeta x)) (works w));
         simpl);
    intros [= <- <-]; simpl; auto;
    intros Hin Hk; apply List.in_map_iff; exists x; (split; [|exact Hin]);
    destruct (has_key ns (Name (mMeta m)) (mMeta x)) eqn:E; auto;
    exfalso; apply Hk; unfold has_key in E; apply andb_true_iff in E as [E1 E2];
    apply bool_decide_eq_true in E1; apply bool_decide_eq_true in E2;
    unfold key_of; now rewrite E1, E2.
Qed.

(** What the convergence loop does and does not do, whatever the stores
    hold and whichever calls fail. *)
Lemma scheduleBundle_range_calls (bundle : AppBundle) (decs : list ClusterDecision) :
  forall (s : St) r s',
    scheduleBundle_range bundle decs s = (r, s') ->
    bundles (world s') = bundles (world s)
    /\ decisions (world s') = decisions (world s)
    /\ (exists new, calls_between s s' new /\ Forall (converges bundle decs) new)
    /\ (forall k n, holds k n (works (world s)) = true ->
                    holds k n (works (world s')) = true)
    /\ (forall x, In x (works (world s)) ->
          (forall dec, In dec decs ->
             key_of x <> (ClusterName dec, Name (bMeta bundle))) ->
          In x (works (world s'))).
Proof.
  induction decs as [|dec rest IH]; intros s r s'; simpl.
  - unfold ret. intros [= <- <-]. repeat split; auto.
    exists []. split; [reflexivity|constructor].
  - assert (Hweaken : forall new, Forall (converges bundle rest) new ->
                        Forall (converges bundle (dec :: rest)) new).
    { intros new Hnew. eapply Forall_impl; [exact Hnew|].
      intros c (Hc & d & Hd & Hk).
      split; [exact Hc|]. exists d. split; [now right|exact Hk]. }
    unfold bind at 1. unfold klog_Infof at 1. unfold on_world at 1. simpl.
    unfold bind at 1. unfold on_heap_or_panic at 1. simpl.
    destruct (generateManifest bundle (ClusterName dec) (heap s)) as [[art h1]|] eqn:G.
    2:{ intros [= <- <-]. simpl. repeat split; auto.
        exists []. split; [reflexivity|constructor]. }
    apply generateManifest_Name in G as Hname.
    unfold bind at 1. unfold klog_Infof at 1. unfold on_world at 1. simpl.
    unfold bind at 1.
    destruct (ManifestWorks_Get _ _ _) as [r1 s1] eqn:E1.
    apply ManifestWorks_Get_inv in E1 as (res & w1 & Hg & Hres). simpl in Hg.
    apply work_get_effect in Hg as ((Ht & Hdec & _) & Hb & Hw & Hfound).
    simpl in Ht, Hb, Hw, Hdec, Hfound. rewrite Hname in Ht, Hfound.
    assert (Hget : converges bundle (dec :: rest)
                     (WorkGet (ClusterName dec) (Name (bMeta bundle)))).
    { split; [reflexivity|]. exists dec. split; [now left|reflexivity]. }
    destruct res as [err|sw]; destruct Hres as [-> ->]; simpl.
    + destruct (IsNotFound err).
      * unfold bind.
        destruct (ManifestWorks_Create _ _ _) as [r2 s2] eqn:E2.
        apply ManifestWorks_Create_inv in E2 as (res2 & w2 & Hc & -> & ->).
        pose proof (fun k n => work_create_holds _ _ _ _ _ k n Hc) as Hkeep.
        pose proof (fun x => work_create_keeps _ _ _ _ _ x Hc) as Hsame.
        apply work_create_effect in Hc as ((Ht2 & Hdec2 & _) & Hb2). simpl in *.
        unfold ret. intros [= <- <-]. simpl.
        split; [congruence|]. split; [congruence|]. split.
        -- eexists [_; _]. split.
           ++ unfold calls_between. simpl. rewrite Ht2, Ht. reflexivity.
           ++ constructor; [|constructor; [exact Hget|constructor]].
              split; [reflexivity|].
              exists dec. split; [now left|]. simpl. now rewrite Hname.
        -- split; [intros k n H; apply Hkeep; now rewrite Hw|].
           intros x Hx _. apply Hsame. now rewrite Hw.
      * unfold ret. intros [= <- <-]. simpl.
        split; [congruence|]. split; [congruence|]. split.
        -- eexists [_]. split; [exact Ht|]. constructor; [exact Hget|constructor].
        -- split; [intros k n H; now rewrite Hw|].
           intros x Hx _. now rewrite Hw.
    + unfold bind at 1. unfold on_heap at 1. simpl.
      set (h2 := snd (decode_work h1 sw)).
      set (m0 := fst (decode_work h1 sw)).
      pose proof (DeepCopy_work_roundtrip h1 [] sw) as Hrt. simpl in Hrt.
      fold h2 m0 in Hrt. rewrite app_nil_r in Hrt.
      destruct (DeepCopy_work h2 m0) as [nm h3] eqn:Ecopy. simpl in Hrt.
      unfold bind at 1.
      destruct (ManifestWorks_Update _ _ _) as [r3 s3] eqn:E3.
      apply ManifestWorks_Update_inv in E3 as (res3 & w3 & Hu & -> & ->).
      pose proof (fun k n => work_update_holds _ _ _ _ _ k n Hu) as Hkeep.
      pose proof (fun x => work_update_keeps _ _ _ _ _ x Hu) as Hsame.
      apply work_update_effect in Hu as ((Ht3 & Hdec3 & _) & Hb3). simpl in *.
      apply find_some in Hfound as [_ Hkey].
      assert (Hn : Name (mMeta nm) = Name (bMeta bundle)).
      { pose proof (f_equal (fun x => Name (mMeta x)) Hrt) as Hn. simpl in Hn.
        rewrite Hn. unfold has_key in Hkey. apply andb_true_iff in Hkey as [_ Hk].
        now apply bool_decide_eq_true in Hk. }
      rewrite Hn in Hsame.
      assert (Hupd : converges bundle (dec :: rest)
                (WorkUpdate (ClusterName dec)
                   (encode_work h3
                      (mkManifestWork (mType nm)
                         (mkObjectMeta (Name (mMeta nm)) (Namespace (mMeta nm))
                            (UID (mMeta nm)) (Labels (mMeta art))
                            (Annotations (mMeta art)) (Finalizers (mMeta nm))
                            (DeletionTimestamp (mMeta nm)))
                         (mSpec art))))).
      { split; [reflexivity|]. exists dec. split; [now left|]. simpl.
        now rewrite Hn. }
      destruct res3 as [err|upd]; simpl.
      * unfold ret. intros [= <- <-]. simpl.
        split; [congruence|]. split; [congruence|]. split.
        -- eexists [_; _]. split.
           ++ unfold calls_between. simpl. rewrite Ht3, Ht. reflexivity.
           ++ constructor; [exact Hupd|constructor; [exact Hget|constructor]].
        -- split; [intros k n H; rewrite Hkeep; now rewrite Hw|].
           intros x Hx Hk. apply Hsame; [now rewrite Hw|].
           apply Hk. now left.
      * intros Hrest.
        apply IH in Hrest as (Hb' & Hdec' & (new & Hnew & Hall) & Hkeep' & Hsame').
        simpl in *. split; [congruence|]. split; [congruence|]. split.
        -- eexists (new ++ [_; _]). split.
           ++ unfold calls_between in *. simpl in *. rewrite Hnew, Ht3, Ht.
              rewrite <- app_assoc. reflexivity.
           ++ apply Forall_app. split; [now apply Hweaken|].
              constructor; [exact Hupd|constructor; [exact Hget|constructor]].
        -- split; [intros k n H; apply Hkeep'; rewrite Hkeep; now rewrite Hw|].
           intros x Hx Hk. apply Hsame'.
           ++ apply Hsame; [now rewrite Hw|]. apply Hk. now left.
           ++ intros d Hd. apply Hk. now right.
Qed.


(** X3.  Whatever the stores hold and whichever calls fail, convergence
    only reads, creates and updates the artifact named after the Bundle in
    the namespaces of the decision's clusters.  It writes neither the Bundle
    store nor the lister's cache, no key of the work store disappears, and
    an artifact under any other key stays in the store as it is. *)
Theorem scheduleBundle_touches_only_targets
    (bundle : AppBundle) (decision : PlacementDecision) (s : St) :
  let s' := snd (scheduleBundle bundle decision s) in
  bundles (world s') = bundles (world s)
  /\ decisions (world s') = decisions (world s)
  /\ (exists new, calls_between s s' new
                  /\ Forall (converges bundle (Decisions decision)) new)
  /\ (forall k n, holds k n (works (world s)) = true ->
                  holds k n (works (world s')) = true)
  /\ (forall x, In x (works (world s)) ->
        (forall dec, In dec (Decisions decision) ->
           key_of x <> (ClusterName dec, Name (bMeta bundle))) ->
        In x (works (world s'))).
Proof.
  intros s'. subst s'. unfold scheduleBundle.
  destruct (scheduleBundle_range bundle (Decisions decision) s) as [r s'] eqn:E.
  exact (scheduleBundle_range_calls bundle (Decisions decision) s r s' E).
Qed.

Lemma scheduleBundle_touches_only_targets_witness :
  let theirs := Scenario.artifact "north" "b2" "u2" in
  let s := mkSt (Scenario.calm [Scenario.b1] [Scenario.pd1] [theirs]) Scenario.b1_heap in
  In theirs (works (world (snd (scheduleBundle Scenario.b1_mem Scenario.pd1 s)))).
Proof.
  intros theirs s.
  apply (scheduleBundle_touches_only_targets Scenario.b1_mem Scenario.pd1 s).
  - now left.
  - intros dec [<-|[<-|[]]]; discriminate.
Defined.

(** The calls of the placement phase. *)
Lemma Reconcile_placement_calls (bundle : AppBundle) (req : Request) (s : St) :
  let s' := snd (Reconcile_placement bundle req s) in
  bundles (world s') = bundles (world s)
  /\ (exists new,
        calls_between s s' new
        /\ Forall (fun c => is_DecisionList c = true \/ is_convergence_call c = true) new)
  /\ (forall k n, holds k n (works (world s)) = true ->
                  holds k n (works (world s')) = true).
Proof.
  intros s'. subst s'. rewrite Reconcile_placement_unfold.
  destruct (getPlacementLabel bundle (heap s)) as [l|].
  2:{ simpl. repeat split; auto. exists []. split; [reflexivity|constructor]. }
  destruct (getPlacementDecision _ _ _) as [r1 s2] eqn:E.
  apply getPlacementDecision_inv in E as (res & w' & Hlist & -> & ->).
  apply decision_list_effect in Hlist as ((Ht & _ & _) & Hb & Hw).
  simpl in Ht, Hb, Hw.
  assert (Hstop : bundles w' = bundles (world s)
            /\ (exists new,
                  calls_between s (mkSt w' (heap s)) new
                  /\ Forall (fun c => is_DecisionList c = true
                                      \/ is_convergence_call c = true) new)
            /\ (forall k n, holds k n (works (world s)) = true ->
                            holds k n (works w') = true)).
  { split; [exact Hb|]. split.
    - eexists [_]. split; [exact Ht|]. constructor; [now left|constructor].
    - intros k n H. now rewrite Hw. }
  destruct res as [err|[|pd pds]]; try exact Hstop.
  destruct (Nat.ltb _ _); [|exact Hstop].
  unfold scheduleBundle.
  destruct (scheduleBundle_range _ _ _) as [r3 s3] eqn:E3.
  apply scheduleBundle_range_calls in E3
    as (Hb3 & _ & (new & Hnew & Hall) & Hkeep & _).
  simpl in Hb3, Hkeep. unfold calls_between in Hnew. simpl in Hnew.
  assert (Hgoal : bundles (world s3) = bundles (world s)
            /\ (exists new,
                  calls_between s s3 new
                  /\ Forall (fun c => is_DecisionList c = true
                                      \/ is_convergence_call c = true) new)
            /\ (forall k n, holds k n (works (world s)) = true ->
                            holds k n (works (world s3)) = true)).
  { split; [congruence|]. split.
    - eexists (new ++ [_]). split.
      + unfold calls_between. rewrite Hnew, Ht. now rewrite <- app_assoc.
      + apply Forall_app. split.
        * eapply Forall_impl; [exact Hall|]. intros c [Hc _]. now right.
        * constructor; [now left|constructor].
    - intros k n H. apply Hkeep. now rewrite Hw. }
  destruct r3; exact Hgoal.
Qed.

(** X4.  A reconciliation of a Bundle that is not being deleted never
    lists or deletes artifacts: after reading the Bundle it issues at most
    one update of the Bundle, then calls of the lister and of convergence
    only, and every key of the work store is still there afterwards. *)
Theorem Reconcile_live_never_deletes
    (DF : string) (IC : error -> option error) (req : Request) (s : St)
    (sb : StoredBundle) (w0 : World) :
  let s' := snd (Reconcile DF IC req s) in
  bundle_get (req_Namespace req) (req_Name req) (world s) = (Ok sb, w0) ->
  IsZero (DeletionTimestamp (bMeta sb)) = true ->
  (exists new,
     calls_between s s' (new ++ [BundleGet (req_Namespace req) (req_Name req)])
     /\ Forall (fun c => is_WorkList c = false /\ is_WorkDelete c = false) new)
  /\ (forall k n, holds k n (works (world s)) = true ->
                  holds k n (works (world s')) = true).
Proof.
  intros s' Hget Hlive. subst s'.
  rewrite (Reconcile_unfold DF IC req s sb w0 Hget). rewrite Hlive.
  apply bundle_get_effect in Hget as ((Ht0 & _) & _ & Hw0 & _).
  assert (Hweak : forall new,
            Forall (fun c => is_DecisionList c = true \/ is_convergence_call c = true) new ->
            Forall (fun c => is_WorkList c = false /\ is_WorkDelete c = false) new).
  { intros new H. eapply Forall_impl; [exact H|].
    intros c [Hc|Hc]; destruct c; try discriminate; auto. }
  destruct (containsString _ _); simpl.
  - destruct (Reconcile_placement_calls (got_bundle (heap s) sb) req
                (mkSt w0 (got_heap (heap s) sb))) as (_ & (new & Hc & Hall) & Hkeep).
    simpl in Hkeep. split.
    + exists new. split; [|now apply Hweak].
      unfold calls_between in *. simpl in *. rewrite Hc, Ht0.
      now rewrite <- app_assoc.
    + intros k n H. apply Hkeep. now rewrite Hw0.
  - destruct (client_Update _ _) as [r s2] eqn:E.
    apply client_Update_effect in E as (_ & Hw2 & _ & Hc2 & e & -> & _).
    unfold calls_between in Hc2. simpl in Hc2, Hw2.
    destruct e as [e|]; simpl.
    + split.
      * eexists [_]. split.
        -- unfold calls_between. simpl. rewrite Hc2, Ht0. reflexivity.
        -- constructor; [split; reflexivity|constructor].
      * intros k n H. now rewrite Hw2, Hw0.
    + destruct (Reconcile_placement_calls (got_bundle (heap s) sb) req s2)
        as (_ & (new & Hc & Hall) & Hkeep).
      split.
      * eexists (new ++ [_]). split.
        -- unfold calls_between in *. rewrite Hc, Hc2, Ht0.
           now rewrite <- !app_assoc.
        -- apply Forall_app. split; [now apply Hweak|].
           constructor; [split; reflexivity|constructor].
      * intros k n H. apply Hkeep. now rewrite Hw2, Hw0.
Qed.

Lemma Reconcile_live_never_deletes_witness :
  let s := start (Scenario.calm [Scenario.b1] [Scenario.pd1]
                    [Scenario.artifact "north" "b2" "u2"]) in
  holds "north" "b2"
    (works (world (snd (Reconcile Scenario.finalizer IgnoreConflict_spec
                          Scenario.request s)))) = true.
Proof.
  intros s.
  apply (Reconcile_live_never_deletes Scenario.finalizer IgnoreConflict_spec
           Scenario.request s Scenario.b1
           (record_call (BundleGet "default" "b1") (world s)) eq_refl eq_refl).
  reflexivity.
Defined.

(** X5.  A reconciliation of a Bundle that is not being deleted and
    already carries the finalizer does not write the Bundle: it issues no
    update and the Bundle store is as before. *)
Theorem Reconcile_active_leaves_bundle
    (DF : string) (IC : error -> option error) (req : Request) (s : St)
    (sb : StoredBundle) (w0 : World) :
  let s' := snd (Reconcile DF IC req s) in
  bundle_get (req_Namespace req) (req_Name req) (world s) = (Ok sb, w0) ->
  IsZero (DeletionTimestamp (bMeta sb)) = true ->
  containsString (Finalizers (bMeta sb)) DF = true ->
  bundles (world s') = bundles (world s)
  /\ exists new, calls_between s s' new
                 /\ Forall (fun c => is_BundleUpdate c = false) new.
Proof.
  intros s' Hget Hlive Hfin. subst s'.
  rewrite (Reconcile_unfold DF IC req s sb w0 Hget). rewrite Hlive, Hfin. simpl.
  apply bundle_get_effect in Hget as ((Ht0 & _) & Hb0 & _).
  destruct (Reconcile_placement_calls (got_bundle (heap s) sb) req
              (mkSt w0 (got_heap (heap s) sb))) as (Hb & (new & Hc & Hall) & _).
  simpl in Hb. split; [congruence|].
  exists (new ++ [BundleGet (req_Namespace req) (req_Name req)]). split.
  - unfold calls_between in *. simpl in *. rewrite Hc, Ht0.
    now rewrite <- app_assoc.
  - apply Forall_app. split; [|constructor; [reflexivity|constructor]].
    eapply Forall_impl; [exact Hall|].
    intros c [Hc'|Hc']; destruct c; try discriminate; reflexivity.
Qed.

Lemma Reconcile_active_leaves_bundle_witness :
  let s := start (Scenario.calm [Scenario.b1] [Scenario.pd1] []) in
  bundles (world (snd (Reconcile Scenario.finalizer IgnoreConflict_spec
                         Scenario.request s))) = [Scenario.b1].
Proof.
  intros s.
  apply (Reconcile_active_leaves_bundle Scenario.finalizer IgnoreConflict_spec
           Scenario.request s Scenario.b1
           (record_call (BundleGet "default" "b1") (world s)) eq_refl eq_refl eq_refl).
Defined.


(** ** The branches of the reconciliation entry point *)

(** X6.  When the Bundle of the request is not in the store, the
    reconciliation ends after the read without touching any store: with
    success when the read was answered (the Bundle is gone) or failed with
    NotFound, and with the error of the read otherwise. *)
Theorem Reconcile_bundle_gone
    (DF : string) (IC : error -> option error) (req : Request) (s : St) :
  let out := Reconcile DF IC req s in
  find (fun b => has_key (req_Namespace req) (req_Name req) (bMeta b))
    (bundles (world s)) = None ->
  fst out = Val match next_fault (world s) with
                | None | Some NotFound => None
                | Some reason => Some (StatusError reason)
                end
  /\ calls_between s (snd out) [BundleGet (req_Namespace req) (req_Name req)]
  /\ bundles (world (snd out)) = bundles (world s)
  /\ works (world (snd out)) = works (world s)
  /\ logs (world (snd out)) = logs (world s).
Proof.
  intros out Hgone. subst out.
  destruct (bundle_get (req_Namespace req) (req_Name req) (world s))
    as [[err|sb] w0] eqn:Hget.
  - rewrite (Reconcile_unfold_err DF IC req s err w0 Hget). simpl.
    assert (Herr : IgnoreNotFound err
                   = match next_fault (world s) with
                     | None | Some NotFound => None
                     | Some reason => Some (StatusError reason)
                     end).
    { revert Hget. unfold bundle_get, api, next_fault. simpl. rewrite Hgone.
      destruct (faults (world s)) as [|[reason|] fs]; simpl;
        intros [= <- <-]; try reflexivity.
      destruct reason; reflexivity. }
    apply bundle_get_effect in Hget as ((Ht & _ & Hl) & Hb & Hw & _).
    rewrite Herr. repeat split; auto.
  - apply bundle_get_effect in Hget as (_ & _ & _ & Hfind). congruence.
Qed.

Lemma Reconcile_bundle_gone_witness :
  fst (Reconcile Scenario.finalizer IgnoreConflict_spec Scenario.request
         (start (Scenario.calm [] [Scenario.pd1] [])))
  = Val None.
Proof.
  apply (Reconcile_bundle_gone Scenario.finalizer IgnoreConflict_spec
           Scenario.request (start (Scenario.calm [] [Scenario.pd1] []))).
  reflexivity.
Defined.

(** X7.  A Bundle that is being deleted and no longer carries the
    finalizer is left alone: the reconciliation returns success after the
    read, with no sweep, no update, and no line in the log. *)
Theorem Reconcile_deleting_without_finalizer
    (DF : string) (IC : error -> option error) (req : Request) (s : St)
    (sb : StoredBundle) (w0 : World) :
  let out := Reconcile DF IC req s in
  bundle_get (req_Namespace req) (req_Name req) (world s) = (Ok sb, w0) ->
  IsZero (DeletionTimestamp (bMeta sb)) = false ->
  containsString (Finalizers (bMeta sb)) DF = false ->
  fst out = Val None
  /\ calls_between s (snd out) [BundleGet (req_Namespace req) (req_Name req)]
  /\ bundles (world (snd out)) = bundles (world s)
  /\ works (world (snd out)) = works (world s)
  /\ logs (world (snd out)) = logs (world s).
Proof.
  intros out Hget Hdel Hfin. subst out.
  rewrite (Reconcile_unfold DF IC req s sb w0 Hget). rewrite Hdel, Hfin. simpl.
  apply bundle_get_effect in Hget as ((Ht & _ & Hl) & Hb & Hw & _).
  repeat split; auto.
Qed.

Lemma Reconcile_deleting_without_finalizer_witness :
  let s := start (Scenario.calm [Scenario.b1_deleting] [Scenario.pd1]
                    [Scenario.artifact "east" "b1" "u1"]) in
  let out := Reconcile "some.other/finalizer" IgnoreConflict_spec Scenario.request s in
  fst out = Val None /\ works (world (snd out)) = works (world s).
Proof.
  intros s out.
  destruct (Reconcile_deleting_without_finalizer "some.other/finalizer"
              IgnoreConflict_spec Scenario.request s Scenario.b1_deleting
              (record_call (BundleGet "default" "b1") (world s))
              eq_refl eq_refl eq_refl) as (H1 & _ & _ & H2 & _).
  split; assumption.
Defined.

(** X8.  A reconciliation of a Bundle that is being deleted resolves no
    placement and converges nothing: after the read it only lists and
    deletes artifacts and updates the Bundle at most once, it writes no log
    line, and every artifact in the store afterwards was there before. *)
Theorem Reconcile_deleting_never_converges
    (DF : string) (IC : error -> option error) (req : Request) (s : St)
    (sb : StoredBundle) (w0 : World) :
  let s' := snd (Reconcile DF IC req s) in
  bundle_get (req_Namespace req) (req_Name req) (world s) = (Ok sb, w0) ->
  IsZero (DeletionTimestamp (bMeta sb)) = false ->
  (exists new,
     calls_between s s' (new ++ [BundleGet (req_Namespace req) (req_Name req)])
     /\ Forall (fun c => is_DecisionList c = false /\ is_convergence_call c = false) new
     /\ List.length (List.filter is_BundleUpdate new) <= 1)
  /\ incl (works (world s')) (works (world s))
  /\ logs (world s') = logs (world s).
Proof.
  intros s' Hget Hdel. subst s'.
  rewrite (Reconcile_unfold DF IC req s sb w0 Hget). rewrite Hdel.
  apply bundle_get_effect in Hget as ((Ht0 & _ & Hl0) & _ & Hw0 & _).
  destruct (containsString _ _); simpl.
  2:{ split; [|split; [rewrite Hw0; apply incl_refl|exact Hl0]].
      exists []. split; [exact Ht0|]. split; [constructor|simpl; lia]. }
  destruct (deleteAllChildManifests _ _) as [r s2] eqn:E.
  apply deleteAllChildManifests_effect in E
    as (_ & _ & _ & Hl2 & (dels & Hc2 & Hdels) & Hincl & Hr).
  unfold calls_between in Hc2. simpl in Hc2, Hincl, Hl2.
  assert (Hd : Forall (fun c => is_DecisionList c = false
                                /\ is_convergence_call c = false)
                 (dels ++ [WorkList "" (mkListOptions [])])).
  { apply Forall_app. split; [|constructor; [split; reflexivity|constructor]].
    apply Forall_forall. intros c Hc.
    rewrite forallb_forall in Hdels. apply list_elem_of_In in Hc.
    specialize (Hdels c Hc). destruct c; try discriminate. split; reflexivity. }
  pose proof (deletes_are_not_updates dels Hdels) as Hnu.
  destruct r as [[e|]|]; [| |contradiction]; simpl.
  - split; [|split; [now rewrite <- Hw0|congruence]].
    exists (dels ++ [WorkList "" (mkListOptions [])]). split; [|split].
    + unfold calls_between. rewrite Hc2, Ht0. now rewrite <- !app_assoc.
    + exact Hd.
    + rewrite List.filter_app, Hnu. simpl. lia.
  - destruct (client_Update _ _) as [r3 s3] eqn:E3.
    apply client_Update_inv in E3 as (res & w3 & Hu & -> & ->).
    apply bundle_update_effect in Hu as ((Ht3 & _ & Hl3) & Hw3 & _).
    assert (Hgoal :
      (exists new,
         calls_between s (mkSt w3 (heap s2))
           (new ++ [BundleGet (req_Namespace req) (req_Name req)])
         /\ Forall (fun c => is_DecisionList c = false
                             /\ is_convergence_call c = false) new
         /\ List.length (List.filter is_BundleUpdate new) <= 1)
      /\ incl (works w3) (works (world s))
      /\ logs w3 = logs (world s)).
    { split; [|split; [rewrite Hw3, <- Hw0; exact Hincl|congruence]].
      eexists (_ :: dels ++ [WorkList "" (mkListOptions [])]). split; [|split].
      - unfold calls_between. simpl. rewrite Ht3, Hc2, Ht0.
        now rewrite <- !app_assoc.
      - constructor; [split; reflexivity|exact Hd].
      - simpl. rewrite List.filter_app, Hnu. simpl. lia. }
    destruct res; exact Hgoal.
Qed.

Lemma Reconcile_deleting_never_converges_witness :
  let s := start (Scenario.calm [Scenario.b1_deleting] [Scenario.pd1] []) in
  logs (world (snd (Reconcile Scenario.finalizer IgnoreConflict_spec
                      Scenario.request s))) = [].
Proof.
  intros s.
  apply (Reconcile_deleting_never_converges Scenario.finalizer IgnoreConflict_spec
           Scenario.request s Scenario.b1_deleting
           (record_call (BundleGet "default" "b1") (world s)) eq_refl eq_refl).
Defined.


Lemma encode_AddFinalizer (h : Heap) (sb : StoredBundle) (DF : string) :
  containsString (Finalizers (bMeta sb)) DF = false ->
  encode_bundle (got_heap h sb) (AddFinalizer (got_copy h sb) DF)
  = with_finalizer sb DF.
Proof.
  intros Habsent.
  destruct (got_roundtrip h sb) as [_ H]. specialize (H []).
  rewrite app_nil_r in H.
  destruct (got_copy_fields h sb) as (_ & _ & _ & Hfin & _).
  assert (E : existsb (String.eqb DF) (Finalizers (bMeta (got_copy h sb))) = false)
    by (rewrite Hfin; exact Habsent).
  unfold AddFinalizer. rewrite E.
  transitivity (with_finalizer (encode_bundle (got_heap h sb) (got_copy h sb)) DF);
    [reflexivity|now rewrite H].
Qed.

Lemma encode_RemoveFinalizer (h : Heap) (sb : StoredBundle) (DF : string) :
  encode_bundle (got_heap h sb) (RemoveFinalizer (got_copy h sb) DF)
  = without_finalizer sb DF.
Proof.
  destruct (got_roundtrip h sb) as [_ H]. specialize (H []).
  rewrite app_nil_r in H.
  transitivity (without_finalizer (encode_bundle (got_heap h sb) (got_copy h sb)) DF);
    [reflexivity|now rewrite H].
Qed.

(** X9.  On a Bundle that is not being deleted and lacks the finalizer,
    the first call after the read is the update of the Bundle as read with
    the finalizer appended and nothing else changed.  If that update fails,
    the reconciliation returns its error at once: no placement is resolved,
    no artifact is touched, nothing is logged. *)
Theorem Reconcile_registers_finalizer
    (DF : string) (IC : error -> option error) (req : Request) (s : St)
    (sb : StoredBundle) (w0 : World) :
  let out := Reconcile DF IC req s in
  bundle_get (req_Namespace req) (req_Name req) (world s) = (Ok sb, w0) ->
  IsZero (DeletionTimestamp (bMeta sb)) = true ->
  containsString (Finalizers (bMeta sb)) DF = false ->
  (exists post,
     calls_between s (snd out)
       (post ++ [BundleUpdate (with_finalizer sb DF);
                 BundleGet (req_Namespace req) (req_Name req)]))
  /\ (forall e w2,
        bundle_update (with_finalizer sb DF) w0 = (Err e, w2) ->
        fst out = Val (Some e)
        /\ calls_between s (snd out)
             [BundleUpdate (with_finalizer sb DF);
              BundleGet (req_Namespace req) (req_Name req)]
        /\ bundles (world (snd out)) = bundles (world s)
        /\ works (world (snd out)) = works (world s)
        /\ logs (world (snd out)) = logs (world s)).
Proof.
  intros out Hget Hlive Habsent. subst out.
  rewrite (Reconcile_unfold DF IC req s sb w0 Hget). rewrite Hlive, Habsent. simpl.
  apply bundle_get_effect in Hget as ((Ht0 & _ & Hl0) & Hb0 & Hw0 & _).
  destruct (client_Update _ _) as [r s2] eqn:E.
  apply client_Update_inv in E as (res & w2 & Hu & -> & ->). simpl in Hu.
  rewrite (encode_AddFinalizer (heap s) sb DF Habsent) in Hu.
  apply bundle_update_effect in Hu as Heff.
  destruct Heff as ((Ht2 & _ & Hl2) & Hw2 & Hres).
  destruct res as [err|[]]; simpl.
  - split.
    + exists []. unfold calls_between. simpl. now rewrite Ht2, Ht0.
    + intros e w2' Hu'. rewrite Hu in Hu'. injection Hu' as <- <-.
      unfold calls_between. simpl. repeat split; congruence.
  - split; [|intros e w2' Hu'; rewrite Hu in Hu'; discriminate].
    destruct (Reconcile_placement_calls (got_bundle (heap s) sb) req
                (mkSt w2 (got_heap (heap s) sb))) as (_ & (new & Hc & _) & _).
    exists new. unfold calls_between in *. simpl in *. rewrite Hc, Ht2, Ht0.
    now rewrite <- app_assoc.
Qed.

Lemma Reconcile_registers_finalizer_witness :
  let s := start (Scenario.stormy [Scenario.b1_new] [Scenario.pd1] []
                    [None; Some Conflict]) in
  let out := Reconcile Scenario.finalizer IgnoreConflict_spec Scenario.request s in
  fst out = Val (Some (StatusError Conflict))
  /\ works (world (snd out)) = [].
Proof.
  intros s out.
  destruct (Reconcile_registers_finalizer Scenario.finalizer IgnoreConflict_spec
              Scenario.request s Scenario.b1_new
              (set_faults [Some Conflict]
                 (record_call (BundleGet "default" "b1") (world s)))
              eq_refl eq_refl eq_refl) as [_ H].
  destruct (H (StatusError Conflict)
              (set_faults []
                 (record_call (BundleUpdate (with_finalizer Scenario.b1_new Scenario.finalizer))
                    (set_faults [Some Conflict]
                       (record_call (BundleGet "default" "b1") (world s)))))
              eq_refl) as (H1 & _ & _ & H2 & _).
  split; assumption.
Defined.

(** X10.  For a Bundle that is not being deleted and has no placement
    label, the reconciliation asks no lister and touches no artifact: after
    the read it issues at most the update that registers the finalizer, and
    when it returns success its last log line says that no placement label
    was found.  With the finalizer already present it returns success. *)
Theorem Reconcile_no_placement_label
    (DF : string) (IC : error -> option error) (req : Request) (s : St)
    (sb : StoredBundle) (w0 : World) :
  let out := Reconcile DF IC req s in
  bundle_get (req_Namespace req) (req_Name req) (world s) = (Ok sb, w0) ->
  IsZero (DeletionTimestamp (bMeta sb)) = true ->
  labels_get (Labels (bMeta sb)) PlacementLabel = None ->
  (exists upd,
     calls_between s (snd out)
       (upd ++ [BundleGet (req_Namespace req) (req_Name req)])
     /\ Forall (fun c => is_BundleUpdate c = true) upd)
  /\ works (world (snd out)) = works (world s)
  /\ (fst out = Val None ->
      logs (world (snd out)) = LogNoPlacementLabel (Name (bMeta sb)) :: logs (world s))
  /\ (containsString (Finalizers (bMeta sb)) DF = true -> fst out = Val None).
Proof.
  intros out Hget Hlive Hnone. subst out.
  rewrite (Reconcile_unfold DF IC req s sb w0 Hget). rewrite Hlive.
  apply bundle_get_effect in Hget as ((Ht0 & _ & Hl0) & _ & Hw0 & _).
  destruct (got_bundle_fields (heap s) sb) as (Hname & _ & _ & Hlabel).
  specialize (Hlabel []). rewrite app_nil_r, Hnone in Hlabel.
  assert (Hplace : forall w : World,
            Reconcile_placement (got_bundle (heap s) sb) req
              (mkSt w (got_heap (heap s) sb))
            = (Val None,
               logged (LogNoPlacementLabel (Name (bMeta sb)))
                 (mkSt w (got_heap (heap s) sb)))).
  { intros w. rewrite Reconcile_placement_unfold. simpl.
    now rewrite Hlabel, Hname. }
  destruct (containsString _ _); simpl.
  - rewrite Hplace. simpl. repeat split; auto; try congruence.
    exists []. split; [exact Ht0|constructor].
  - destruct (client_Update _ _) as [r s2] eqn:E.
    apply client_Update_inv in E as (res & w2 & Hu & -> & ->).
    apply bundle_update_effect in Hu as ((Ht2 & _ & Hl2) & Hw2 & _).
    simpl in *.
    destruct res as [err|u]; simpl.
    + repeat split; try congruence; try discriminate.
      eexists [_]. split.
      * unfold calls_between. simpl. rewrite Ht2, Ht0. reflexivity.
      * constructor; [reflexivity|constructor].
    + rewrite Hplace. simpl. repeat split; try congruence; try discriminate.
      eexists [_]. split.
      * unfold calls_between. simpl. rewrite Ht2, Ht0. reflexivity.
      * constructor; [reflexivity|constructor].
Qed.

Lemma Reconcile_no_placement_label_witness :
  let s := start (Scenario.calm [More.unplaced] [Scenario.pd1] []) in
  let out := Reconcile Scenario.finalizer IgnoreConflict_spec Scenario.request s in
  fst out = Val None
  /\ logs (world (snd out)) = [LogNoPlacementLabel "b1"].
Proof.
  intros s out.
  destruct (Reconcile_no_placement_label Scenario.finalizer IgnoreConflict_spec
              Scenario.request s More.unplaced
              (record_call (BundleGet "default" "b1") (world s))
              eq_refl eq_refl eq_refl) as (_ & _ & Hlog & Hok).
  split; [exact (Hok eq_refl)|exact (Hlog (Hok eq_refl))].
Defined.

Lemma bundle_get_found (ns name : string) (w : World) (sb : StoredBundle) :
  faults w = [] ->
  find (fun b => has_key ns name (bMeta b)) (bundles w) = Some sb ->
  bundle_get ns name w = (Ok sb, record_call (BundleGet ns name) w).
Proof.
  intros Hcalm Hfind. unfold bundle_get. rewrite api_calm by exact Hcalm.
  simpl. now rewrite Hfind.
Qed.

(** X11.  When no call fails and the work store holds one artifact per
    key, the reconciliation of a Bundle that is being deleted and carries
    the finalizer returns success: it lists the artifacts, deletes each of
    them in turn, and then updates the Bundle as read with the finalizer
    removed and nothing else changed; the work store ends empty. *)
Theorem Reconcile_deleting_calm
    (DF : string) (IC : error -> option error) (req : Request) (s : St)
    (sb : StoredBundle) :
  let out := Reconcile DF IC req s in
  faults (world s) = [] ->
  find (fun b => has_key (req_Namespace req) (req_Name req) (bMeta b))
    (bundles (world s)) = Some sb ->
  IsZero (DeletionTimestamp (bMeta sb)) = false ->
  containsString (Finalizers (bMeta sb)) DF = true ->
  List.NoDup (map key_of (works (world s))) ->
  fst out = Val None
  /\ works (world (snd out)) = []
  /\ trace (world (snd out))
     = BundleUpdate (without_finalizer sb DF)
         :: rev (map delete_call (works (world s)))
         ++ [WorkList "" (mkListOptions []);
             BundleGet (req_Namespace req) (req_Name req)]
         ++ trace (world s)
  /\ containsString (Finalizers (bMeta (without_finalizer sb DF))) DF = false.
Proof.
  intros out Hcalm Hfind Hdel Hfin Hnd. subst out.
  pose proof (bundle_get_found _ _ _ _ Hcalm Hfind) as Hget.
  rewrite (Reconcile_unfold DF IC req s sb _ Hget). rewrite Hdel, Hfin.
  destruct (sweep_without_failure (got_copy (heap s) sb)
              (mkSt (record_call (BundleGet (req_Namespace req) (req_Name req)) (world s))
                    (got_heap (heap s) sb)))
    as (s2 & Hrun & Hw2 & Ht2 & Hb2 & Hf2); [exact Hcalm|exact Hnd|].
  rewrite Hrun.
  apply deleteAllChildManifests_effect in Hrun as (Hh2 & _).
  simpl in Hh2, Ht2, Hb2.
  unfold client_Update, bind, read_heap, on_world, ret. simpl.
  rewrite Hh2, encode_RemoveFinalizer.
  destruct (bundle_update_calm (without_finalizer sb DF) (world s2) Hf2)
    as (w3 & Hu & _).
  { rewrite Hb2. apply existsb_exists. exists sb. split.
    - apply find_some in Hfind. tauto.
    - simpl. unfold has_key. now rewrite !bool_decide_eq_true_2. }
  rewrite Hu. simpl.
  apply bundle_update_effect in Hu as ((Ht3 & _) & Hw3 & _).
  split; [reflexivity|]. split; [congruence|]. split.
  - rewrite Ht3, Ht2. simpl. reflexivity.
  - unfold without_finalizer, containsString. simpl.
    apply not_true_is_false. intros Hx.
    apply existsb_exists in Hx as (f & Hf & Heq).
    apply List.filter_In in Hf as [_ Hf].
    apply String.eqb_eq in Heq. subst f.
    rewrite String.eqb_refl in Hf. discriminate.
Qed.

Lemma Reconcile_deleting_calm_witness :
  let s := start (Scenario.calm [Scenario.b1_deleting] [Scenario.pd1]
                    [Scenario.artifact "east" "b1" "u1";
                     Scenario.artifact "west" "b1" "u1"]) in
  let out := Reconcile Scenario.finalizer IgnoreConflict_spec Scenario.request s in
  fst out = Val None /\ works (world (snd out)) = [].
Proof.
  intros s out.
  destruct (Reconcile_deleting_calm Scenario.finalizer IgnoreConflict_spec
              Scenario.request s Scenario.b1_deleting)
    as (H1 & H2 & _).
  - reflexivity.
  - reflexivity.
  - reflexivity.
  - reflexivity.
  - simpl. repeat constructor; simpl; intuition discriminate.
  - split; assumption.
Defined.

(** ** The resolver and the lister's cache *)

(** X12.  The resolver only reads.  It issues one call, to the lister of
    the namespace asked for, and changes no store; a decision it returns is
    in the lister's cache, in that namespace, and carries the placement
    label with the name asked for; and when the lister fails, the resolver
    returns the lister's error. *)
Theorem getPlacementDecision_reads_only (placementName ns : string) (s : St) :
  let out := getPlacementDecision placementName ns s in
  calls_between s (snd out) [DecisionList ns (placement_selector placementName)]
  /\ bundles (world (snd out)) = bundles (world s)
  /\ works (world (snd out)) = works (world s)
  /\ decisions (world (snd out)) = decisions (world s)
  /\ heap (snd out) = heap s
  /\ (forall d, fst out = Val (Ok d) ->
        In d (decisions (world s))
        /\ Namespace (pMeta d) = ns
        /\ labels_get (Labels (pMeta d)) PlacementLabel = Some placementName)
  /\ (forall reason, next_fault (world s) = Some reason ->
        fst out = Val (Err (StatusError reason))).
Proof.
  intros out. subst out.
  destruct (getPlacementDecision placementName ns s) as [r s'] eqn:E.
  apply getPlacementDecision_inv in E as (res & w' & Hlist & -> & ->).
  pose proof (decision_list_result ns (placement_selector placementName)
                (record_log (LogNamespace ns) (world s))) as Hres.
  rewrite Hlist in Hres. simpl in Hres.
  apply decision_list_effect in Hlist as ((Ht & Hdec & _) & Hb & Hw).
  simpl in Ht, Hdec, Hb, Hw.
  assert (Hcar : forall d,
            Val match res with
                | Err err => Err err
                | Ok [] => Err (ErrNoDecision placementName)
                | Ok (p0 :: _) => Ok p0
                end = Val (Ok d) ->
            In d (decisions (world s))
            /\ carries_placement placementName ns d = true).
  { intros d Hd. destruct res as [err|[|p0 ps]]; try discriminate.
    injection Hd as ->. destruct Hres as [_ Hl].
    assert (Hin : In d (d :: ps)) by now left.
    rewrite Hl in Hin. apply List.filter_In in Hin as [Hin Hc].
    cbv beta in Hc. rewrite andb_true_r in Hc.
    split; [exact Hin|exact Hc]. }
  simpl. split; [exact Ht|]. split; [exact Hb|]. split; [exact Hw|].
  split; [exact Hdec|]. split; [reflexivity|]. split.
  - intros d Hd. destruct (Hcar d Hd) as [Hin Hc].
    unfold carries_placement in Hc. apply andb_true_iff in Hc as [H1 H2].
    apply bool_decide_eq_true in H1. apply bool_decide_eq_true in H2. auto.
  - intros reason Hf.
    destruct res as [err|ds].
    + destruct Hres as (reason' & -> & Hf'). unfold next_fault in *. simpl in *.
      congruence.
    + destruct Hres as [Hcalm _]. unfold next_fault in *. simpl in *. congruence.
Qed.

Lemma getPlacementDecision_reads_only_witness :
  fst (getPlacementDecision "p1" "default"
         (start (Scenario.calm [Scenario.b1] [More.pd_elsewhere; Scenario.pd1] [])))
  = Val (Ok Scenario.pd1)
  /\ Namespace (pMeta Scenario.pd1) = "default".
Proof.
  split; [vm_compute; reflexivity|].
  apply (getPlacementDecision_reads_only "p1" "default"
           (start (Scenario.calm [Scenario.b1] [More.pd_elsewhere; Scenario.pd1] []))
           ).
  vm_compute. reflexivity.
Defined.


(** ** Convergence when no call fails *)

Lemma work_get_calm (ns name : string) (w : World) :
  faults w = [] ->
  work_get ns name w
  = (match find (fun x => has_key ns name (mMeta x)) (works w) with
     | Some x => Ok x
     | None => Err (StatusError NotFound)
     end, record_call (WorkGet ns name) w).
Proof.
  intros H. unfold work_get. rewrite api_calm by exact H.
  destruct (find _ _); reflexivity.
Qed.

Lemma work_create_calm (ns : string) (m : StoredWork) (w : World) :
  faults w = [] ->
  Namespace (mMeta m) = ns ->
  holds ns (Name (mMeta m)) (works w) = false ->
  work_create ns m w
  = (Ok m, set_works (works w ++ [m]) (record_call (WorkCreate ns m) w)).
Proof.
  intros H Hns Hfree. unfold work_create. rewrite api_calm by exact H.
  simpl. unfold holds in Hfree. rewrite Hfree.
  now rewrite bool_decide_eq_true_2.
Qed.

Lemma work_update_calm (ns : string) (m : StoredWork) (w : World) :
  faults w = [] ->
  Namespace (mMeta m) = ns ->
  holds ns (Name (mMeta m)) (works w) = true ->
  work_update ns m w
  = (Ok m, set_works
             (map (fun x => if has_key ns (Name (mMeta m)) (mMeta x) then m else x)
                (works w))
             (record_call (WorkUpdate ns m) w)).
Proof.
  intros H Hns Hheld. unfold work_update. rewrite api_calm by exact H.
  simpl. unfold holds in Hheld. rewrite Hheld.
  now rewrite bool_decide_eq_true_2.
Qed.

Lemma holds_find (ns name : string) (ws : list StoredWork) :
  holds ns name ws = false <->
  find (fun x => has_key ns name (mMeta x)) ws = None.
Proof.
  unfold holds. induction ws as [|x ws IH]; simpl; [tauto|].
  destruct (has_key ns name (mMeta x)); simpl; [split; discriminate|exact IH].
Qed.

Lemma find_holds (ns name : string) (ws : list StoredWork) (x : StoredWork) :
  find (fun x => has_key ns name (mMeta x)) ws = Some x -> holds ns name ws = true.
Proof.
  intros H. destruct (holds ns name ws) eqn:E; [reflexivity|].
  apply holds_find in E. congruence.
Qed.

(** X13.  Create-if-absent.  When no call fails, the Bundle's label map
    is not nil and the first target holds no artifact named after the
    Bundle, convergence reads that key, creates there the synthesized
    artifact (the Bundle's name, the target as namespace, the Bundle's
    labels plus the ownership label, its annotations and its payload, and
    no UID or finalizer) and returns success; the rest of the store is
    unchanged. *)
Theorem scheduleBundle_creates_missing
    (bundle : AppBundle) (decision : PlacementDecision) (s : St)
    (dec : ClusterDecision) (rest : list ClusterDecision)
    (l : loc) (m0 : gmap string string) :
  Labels (bMeta bundle) = Some l ->
  heap s !! l = Some m0 ->
  faults (world s) = [] ->
  Decisions decision = dec :: rest ->
  holds (ClusterName dec) (Name (bMeta bundle)) (works (world s)) = false ->
  exists s',
    scheduleBundle bundle decision s = (Val None, s')
    /\ heap s' = <[l := <[OwnedLabel := UID (bMeta bundle)]> m0]> (heap s)
    /\ works (world s')
       = works (world s)
           ++ [synthesized bundle (ClusterName dec)
                 (Some (<[OwnedLabel := UID (bMeta bundle)]> m0))
                 (map_val (heap s') (Annotations (bMeta bundle)))]
    /\ exists created,
         calls_between s s'
           [WorkCreate (ClusterName dec) created;
            WorkGet (ClusterName dec) (Name (bMeta bundle))].
Proof.
  intros Hl Hm Hcalm Hdecs Hfree.
  unfold scheduleBundle. rewrite Hdecs. simpl.
  unfold bind at 1. unfold klog_Infof at 1. unfold on_world at 1. simpl.
  unfold bind at 1. unfold on_heap_or_panic at 1. simpl.
  rewrite (generateManifest_Some bundle (ClusterName dec) (heap s) l m0 Hl Hm).
  unfold bind at 1. unfold klog_Infof at 1. unfold on_world at 1. simpl.
  unfold bind at 1. unfold ManifestWorks_Get, bind at 1, on_world at 1. simpl.
  rewrite work_get_calm by exact Hcalm. simpl.
  apply holds_find in Hfree as Hnone. rewrite Hnone. simpl.
  unfold ret at 1. simpl.
  unfold bind at 1. unfold ManifestWorks_Create, bind at 1, read_heap. simpl.
  unfold bind at 1, on_world at 1. simpl.
  rewrite work_create_calm; [|exact Hcalm|reflexivity|exact Hfree].
  unfold ret. simpl.
  eexists. split; [reflexivity|]. simpl. split; [reflexivity|].
  split.
  - f_equal. unfold synthesized, encode_work, encode_meta, map_val. simpl.
    unfold Heap, loc in *.
    rewrite list_lookup_insert_eq by (eapply lookup_lt_Some; exact Hm).
    reflexivity.
  - eexists. reflexivity.
Qed.

Lemma scheduleBundle_creates_missing_witness :
  exists s',
    scheduleBundle Scenario.b1_mem Scenario.pd1
      (mkSt (Scenario.calm [Scenario.b1] [Scenario.pd1] []) Scenario.b1_heap)
    = (Val None, s')
    /\ works (world s')
       = [synthesized Scenario.b1_mem "east"
            (Some (<[OwnedLabel := "u1"]> {[PlacementLabel := "p1"]})) None].
Proof.
  destruct (scheduleBundle_creates_missing Scenario.b1_mem Scenario.pd1
              (mkSt (Scenario.calm [Scenario.b1] [Scenario.pd1] []) Scenario.b1_heap)
              (mkClusterDecision "east" "") [mkClusterDecision "west" ""]
              0 {[PlacementLabel := "p1"]} eq_refl eq_refl eq_refl eq_refl eq_refl)
    as (s' & Hrun & _ & Hw & _).
  exists s'. split; [exact Hrun|exact Hw].
Defined.

(** X14.  When the read of the artifact on the first target fails with
    anything but NotFound, convergence returns that error after this one
    call and changes nothing in the work store. *)
Theorem scheduleBundle_read_error
    (bundle : AppBundle) (decision : PlacementDecision) (s : St)
    (dec : ClusterDecision) (rest : list ClusterDecision)
    (l : loc) (m0 : gmap string string) (reason : StatusReason) :
  let out := scheduleBundle bundle decision s in
  Labels (bMeta bundle) = Some l ->
  heap s !! l = Some m0 ->
  Decisions decision = dec :: rest ->
  next_fault (world s) = Some reason ->
  reason <> NotFound ->
  fst out = Val (Some (StatusError reason))
  /\ works (world (snd out)) = works (world s)
  /\ calls_between s (snd out) [WorkGet (ClusterName dec) (Name (bMeta bundle))].
Proof.
  intros out Hl Hm Hdecs Hfault Hreason. subst out.
  destruct (scheduleBundle bundle decision s) as [r s'] eqn:E. revert E.
  unfold scheduleBundle. rewrite Hdecs. simpl.
  unfold bind at 1. unfold klog_Infof at 1. unfold on_world at 1. simpl.
  unfold bind at 1. unfold on_heap_or_panic at 1. simpl.
  rewrite (generateManifest_Some bundle (ClusterName dec) (heap s) l m0 Hl Hm).
  unfold bind at 1. unfold klog_Infof at 1. unfold on_world at 1. simpl.
  unfold bind at 1. unfold ManifestWorks_Get, bind at 1, on_world at 1. simpl.
  unfold work_get, api. simpl. unfold next_fault in Hfault.
  destruct (faults (world s)) as [|[reason'|] fs]; try discriminate.
  injection Hfault as ->. simpl. unfold ret at 1. simpl.
  destruct reason; try (now contradiction Hreason); simpl;
    unfold ret, calls_between; intros [= <- <-]; simpl; auto.
Qed.

Lemma scheduleBundle_read_error_witness :
  fst (scheduleBundle Scenario.b1_mem Scenario.pd1
         (mkSt (Scenario.stormy [Scenario.b1] [Scenario.pd1] []
                  [Some (OtherReason "timeout")]) Scenario.b1_heap))
  = Val (Some (StatusError (OtherReason "timeout"))).
Proof.
  apply (scheduleBundle_read_error Scenario.b1_mem Scenario.pd1
           (mkSt (Scenario.stormy [Scenario.b1] [Scenario.pd1] []
                    [Some (OtherReason "timeout")]) Scenario.b1_heap)
           (mkClusterDecision "east" "") [mkClusterDecision "west" ""]
           0 {[PlacementLabel := "p1"]} (OtherReason "timeout")
           eq_refl eq_refl eq_refl eq_refl).
  discriminate.
Defined.

(** X15.  A lost race on create surfaces.  When the read of the first
    target is answered NotFound although the store holds the artifact, the
    create that follows fails with AlreadyExists; convergence returns that
    error and the work store is unchanged. *)
Theorem scheduleBundle_create_conflict
    (bundle : AppBundle) (decision : PlacementDecision) (s : St)
    (dec : ClusterDecision) (rest : list ClusterDecision)
    (l : loc) (m0 : gmap string string) :
  let out := scheduleBundle bundle decision s in
  Labels (bMeta bundle) = Some l ->
  heap s !! l = Some m0 ->
  Decisions decision = dec :: rest ->
  faults (world s) = [Some NotFound] ->
  holds (ClusterName dec) (Name (bMeta bundle)) (works (world s)) = true ->
  fst out = Val (Some (StatusError AlreadyExists))
  /\ works (world (snd out)) = works (world s).
Proof.
  intros out Hl Hm Hdecs Hfault Hheld. subst out.
  destruct (scheduleBundle bundle decision s) as [r s'] eqn:E. revert E.
  unfold scheduleBundle. rewrite Hdecs. simpl.
  unfold bind at 1. unfold klog_Infof at 1. unfold on_world at 1. simpl.
  unfold bind at 1. unfold on_heap_or_panic at 1. simpl.
  rewrite (generateManifest_Some bundle (ClusterName dec) (heap s) l m0 Hl Hm).
  unfold bind at 1. unfold klog_Infof at 1. unfold on_world at 1. simpl.
  unfold bind at 1. unfold ManifestWorks_Get, bind at 1, on_world at 1. simpl.
  unfold work_get, api. simpl. rewrite Hfault. simpl.
  unfold ret at 1. simpl.
  unfold bind at 1. unfold ManifestWorks_Create, bind at 1, read_heap. simpl.
  unfold bind at 1, on_world at 1. simpl.
  unfold work_create. rewrite api_calm by reflexivity. simpl.
  unfold holds in Hheld. rewrite Hheld.
  rewrite bool_decide_eq_true_2 by reflexivity. simpl.
  unfold ret. intros [= <- <-]. simpl. auto.
Qed.

Lemma scheduleBundle_create_conflict_witness :
  fst (scheduleBundle Scenario.b1_mem Scenario.pd1
         (mkSt (Scenario.stormy [Scenario.b1] [Scenario.pd1]
                  [Scenario.artifact "east" "b1" "u1"] [Some NotFound])
               Scenario.b1_heap))
  = Val (Some (StatusError AlreadyExists)).
Proof.
  apply (scheduleBundle_create_conflict Scenario.b1_mem Scenario.pd1
           (mkSt (Scenario.stormy [Scenario.b1] [Scenario.pd1]
                    [Scenario.artifact "east" "b1" "u1"] [Some NotFound])
                 Scenario.b1_heap)
           (mkClusterDecision "east" "") [mkClusterDecision "west" ""]
           0 {[PlacementLabel := "p1"]} eq_refl eq_refl eq_refl eq_refl eq_refl).
Defined.


(** ** Overwrite-if-present *)

Lemma map_val_grows (h t : Heap) (r : MapRef) :
  ref_ok h r -> map_val (h ++ t) r = map_val h r.
Proof.
  unfold ref_ok, map_val. destruct r as [a|]; [|reflexivity].
  intros Hlt. unfold Heap, loc in *. now apply lookup_app_l.
Qed.

Lemma ref_ok_grows (h t : Heap) (r : MapRef) : ref_ok h r -> ref_ok (h ++ t) r.
Proof.
  unfold ref_ok. destruct r; [|auto]. rewrite length_app. lia.
Qed.

Lemma ref_ok_insert (h : Heap) (l : loc) (m : gmap string string) (r : MapRef) :
  ref_ok h r -> ref_ok (<[l := m]> h) r.
Proof.
  unfold ref_ok. destruct r; [|auto]. unfold Heap, loc in *.
  now rewrite length_insert.
Qed.

(** One turn of the loop on a target that holds the artifact, when no call
    fails: the artifact found is overwritten in the store and the loop goes
    on with the other targets. *)
Lemma scheduleBundle_range_update_step
    (bundle : AppBundle) (dec : ClusterDecision) (rest : list ClusterDecision)
    (s : St) (l : loc) (m1 : gmap string string) (x : StoredWork) :
  let L := <[OwnedLabel := UID (bMeta bundle)]> m1 in
  let A := map_val (heap s) (Annotations (bMeta bundle)) in
  Labels (bMeta bundle) = Some l ->
  heap s !! l = Some m1 ->
  Annotations (bMeta bundle) <> Some l ->
  ref_ok (heap s) (Annotations (bMeta bundle)) ->
  faults (world s) = [] ->
  find (fun y => targeted bundle dec y) (works (world s)) = Some x ->
  exists s1,
    scheduleBundle_range bundle (dec :: rest) s = scheduleBundle_range bundle rest s1
    /\ faults (world s1) = []
    /\ works (world s1)
       = map (fun y => if targeted bundle dec y
                       then overwritten (bSpec bundle) (Some L) A x else y)
           (works (world s))
    /\ heap s1 !! l = Some L
    /\ map_val (heap s1) (Annotations (bMeta bundle)) = A
    /\ ref_ok (heap s1) (Annotations (bMeta bundle))
    /\ bundles (world s1) = bundles (world s).
Proof.
  intros L A Hl Hm Hann Hok Hcalm Hfind.
  assert (Hlt : l < List.length (heap s)) by (eapply lookup_lt_Some; exact Hm).
  simpl.
  unfold bind at 1. unfold klog_Infof at 1. unfold on_world at 1. simpl.
  unfold bind at 1. unfold on_heap_or_panic at 1. simpl.
  rewrite (generateManifest_Some bundle (ClusterName dec) (heap s) l m1 Hl Hm).
  fold L. set (h1 := <[l := L]> (heap s)).
  unfold bind at 1. unfold klog_Infof at 1. unfold on_world at 1. simpl.
  unfold bind at 1. unfold ManifestWorks_Get, bind at 1, on_world at 1. simpl.
  rewrite work_get_calm by exact Hcalm. simpl.
  unfold targeted, StoredWork in Hfind. rewrite Hfind. simpl.
  unfold bind at 1. unfold on_heap at 1. simpl.
  destruct (decode_work_grows h1 x) as [t1 Hg1].
  pose proof (DeepCopy_work_roundtrip h1 [] x) as Hrt. simpl in Hrt.
  rewrite app_nil_r in Hrt.
  destruct (decode_work h1 x) as [dx h2] eqn:Ed. simpl in Hg1, Hrt.
  unfold ret at 1. simpl.
  unfold bind at 1. unfold on_heap at 1. simpl.
  assert (Hg2 : exists t2, snd (DeepCopy_work h2 dx) = h2 ++ t2)
    by apply decode_work_grows.
  destruct Hg2 as [t2 Hg2].
  destruct (DeepCopy_work h2 dx) as [nm h3] eqn:Ecopy. simpl in Hg2, Hrt.
  assert (Hh3l : h3 !! l = Some L).
  { subst h3 h2 h1. unfold Heap, loc in *.
    rewrite !lookup_app_l by (rewrite ?length_app, length_insert; lia).
    now apply list_lookup_insert_eq. }
  assert (Hh3a : map_val h3 (Annotations (bMeta bundle)) = A).
  { subst h3 h2. rewrite !map_val_grows.
    - subst h1 A. unfold map_val.
      destruct (Annotations (bMeta bundle)) as [a|]; [|reflexivity].
      unfold Heap, loc in *. apply list_lookup_insert_ne. congruence.
    - subst h1. now apply ref_ok_insert.
    - apply ref_ok_grows. subst h1. now apply ref_ok_insert. }
  assert (Hok3 : ref_ok h3 (Annotations (bMeta bundle))).
  { subst h3 h2. do 2 apply ref_ok_grows. subst h1. now apply ref_ok_insert. }
  apply find_some in Hfind as Hx. destruct Hx as [_ Hkey].
  unfold has_key in Hkey. apply andb_true_iff in Hkey as [Hk1 Hk2].
  apply bool_decide_eq_true in Hk1. apply bool_decide_eq_true in Hk2.
  unfold bind at 1. unfold ManifestWorks_Update, bind at 1, read_heap. simpl.
  unfold bind at 1, on_world at 1. simpl.
  match goal with
  | |- context [work_update _ ?m _] =>
      assert (Henc : m = overwritten (bSpec bundle) (Some L) A x)
  end.
  { unfold encode_work, encode_meta, overwritten. simpl.
    rewrite Hh3a, Hh3l.
    rewrite <- Hrt. reflexivity. }
  rewrite Henc.
  rewrite work_update_calm.
  - simpl. rewrite Hk2.
    eexists. split; [reflexivity|]. simpl.
    repeat split; auto.
  - exact Hcalm.
  - simpl. exact Hk1.
  - simpl. rewrite Hk2. eapply find_holds. exact Hfind.
Qed.

Lemma holds_keys (k n : string) (ws ws' : list StoredWork) :
  map key_of ws = map key_of ws' -> holds k n ws = holds k n ws'.
Proof.
  unfold holds. revert ws'.
  induction ws as [|x ws IH]; intros [|x' ws']; simpl; try discriminate; auto.
  intros [= H1 H2 H]. unfold has_key. rewrite H1, H2. f_equal. now apply IH.
Qed.

Lemma holds_found (k n : string) (ws : list StoredWork) :
  holds k n ws = true ->
  exists x, find (fun y => has_key k n (mMeta y)) ws = Some x.
Proof.
  intros H. destruct (find (fun y => has_key k n (mMeta y)) ws) as [x|] eqn:E;
    [now exists x|].
  apply holds_find in E. congruence.
Qed.

Lemma overwrite_keys (bundle : AppBundle) (dec : ClusterDecision)
    (o x : StoredWork) (ws : list StoredWork) :
  key_of o = key_of x ->
  targeted bundle dec x = true ->
  map key_of (map (fun y => if targeted bundle dec y then o else y) ws)
  = map key_of ws.
Proof.
  intros Ho Hx. induction ws as [|y ws IH]; simpl; [reflexivity|].
  rewrite IH. f_equal.
  destruct (targeted bundle dec y) eqn:E; [|reflexivity].
  rewrite Ho. unfold targeted, has_key, key_of in *.
  apply andb_true_iff in E as [E1 E2]. apply andb_true_iff in Hx as [X1 X2].
  apply bool_decide_eq_true in E1. apply bool_decide_eq_true in E2.
  apply bool_decide_eq_true in X1. apply bool_decide_eq_true in X2.
  congruence.
Qed.

(** The loop over targets that all hold the artifact, when no call fails. *)
Lemma scheduleBundle_range_overwrites (bundle : AppBundle) (l : loc)
    (L : gmap string string) (A : MapVal) (decs : list ClusterDecision) :
  let O := overwritten (bSpec bundle) (Some L) A in
  forall (s : St) (m1 : gmap string string),
    Labels (bMeta bundle) = Some l ->
    heap s !! l = Some m1 ->
    <[OwnedLabel := UID (bMeta bundle)]> m1 = L ->
    Annotations (bMeta bundle) <> Some l ->
    ref_ok (heap s) (Annotations (bMeta bundle)) ->
    map_val (heap s) (Annotations (bMeta bundle)) = A ->
    faults (world s) = [] ->
    (forall d, In d decs ->
       holds (ClusterName d) (Name (bMeta bundle)) (works (world s)) = true) ->
    exists s',
      scheduleBundle_range bundle decs s = (Val None, s')
      /\ faults (world s') = []
      /\ bundles (world s') = bundles (world s)
      /\ map key_of (works (world s')) = map key_of (works (world s))
      /\ (forall y', In y' (works (world s')) ->
            In y' (works (world s))
            \/ exists x d, In x (works (world s)) /\ In d decs
                           /\ targeted bundle d x = true /\ y' = O x)
      /\ (forall d y', In d decs -> In y' (works (world s')) ->
            targeted bundle d y' = true ->
            exists x, In x (works (world s))
                      /\ targeted bundle d x = true /\ y' = O x).
Proof.
  intros O. induction decs as [|dec rest IH];
    intros s m1 Hl Hm HL Hann Hok HA Hcalm Hheld.
  - exists s. simpl. repeat split; auto. intros d y' [].
  - destruct (holds_found _ _ _ (Hheld dec (or_introl eq_refl))) as [x0 Hfind].
    destruct (scheduleBundle_range_update_step bundle dec rest s l m1 x0
                Hl Hm Hann Hok Hcalm Hfind)
      as (s1 & Hrun & Hcalm1 & Hw1 & Hl1 & HA1 & Hok1 & Hb1).
    simpl in Hw1, Hl1, HA1. rewrite HL in Hw1, Hl1. rewrite HA in Hw1, HA1.
    fold O in Hw1.
    apply find_some in Hfind as [Hx0 Hkey0].
    assert (Hkeys1 : map key_of (works (world s1)) = map key_of (works (world s))).
    { rewrite Hw1. now apply (overwrite_keys bundle dec (O x0) x0). }
    destruct (IH s1 L Hl Hl1) as (s' & Hrun' & Hcalm' & Hb' & Hkeys' & Hi & Hii);
      auto.
    { rewrite <- HL. apply insert_insert_eq. }
    { intros d Hd. rewrite (holds_keys _ _ _ _ Hkeys1). apply Hheld. now right. }
    assert (Hin1 : forall y1, In y1 (works (world s1)) ->
              (In y1 (works (world s)) /\ targeted bundle dec y1 = false)
              \/ y1 = O x0).
    { intros y1 Hy1. rewrite Hw1 in Hy1. apply List.in_map_iff in Hy1 as (y & Hy & Hin).
      destruct (targeted bundle dec y) eqn:E; [now right|].
      left. subst y1. auto. }
    exists s'. rewrite Hrun. split; [exact Hrun'|]. split; [exact Hcalm'|].
    split; [congruence|]. split; [congruence|]. split.
    + intros y' Hy'. destruct (Hi y' Hy') as [Hy1|(x1 & d & Hx1 & Hd & Ht & ->)].
      * destruct (Hin1 y' Hy1) as [[Hin _]| ->]; [now left|].
        right. exists x0, dec. repeat split; auto. now left.
      * destruct (Hin1 x1 Hx1) as [[Hin _]| ->].
        -- right. exists x1, d. repeat split; auto. now right.
        -- right. exists x0, dec. repeat split; auto. now left.
    + intros d y' [<-|Hd] Hy' Ht.
      * destruct (Hi y' Hy') as [Hy1|(x1 & d' & Hx1 & Hd' & Ht' & ->)].
        -- destruct (Hin1 y' Hy1) as [[_ Hf]| ->]; [congruence|].
           exists x0. auto.
        -- change (targeted bundle dec x1 = true) in Ht.
           destruct (Hin1 x1 Hx1) as [[_ Hf]| ->]; [congruence|].
           exists x0. auto.
      * destruct (Hii d y' Hd Hy' Ht) as (x1 & Hx1 & Ht1 & ->).
        destruct (Hin1 x1 Hx1) as [[Hin _]| ->]; [exists x1; auto|].
        exists x0. auto.
Qed.

(** X16.  Overwrite-if-present.  When no call fails and every target
    holds an artifact named after the Bundle, convergence visits all the
    targets and returns success.  Afterwards the store has the same keys in
    the same order; every artifact of the Bundle on a target has the
    Bundle's payload, the Bundle's labels plus the ownership label, and the
    Bundle's annotations, and keeps the type, UID, finalizers and deletion
    timestamp of an artifact that was stored under that key; and every
    other artifact is one that was there before. *)
Theorem scheduleBundle_overwrites_all
    (bundle : AppBundle) (decision : PlacementDecision) (s : St)
    (l : loc) (m0 : gmap string string) :
  let L := <[OwnedLabel := UID (bMeta bundle)]> m0 in
  let A := map_val (heap s) (Annotations (bMeta bundle)) in
  Labels (bMeta bundle) = Some l ->
  heap s !! l = Some m0 ->
  Annotations (bMeta bundle) <> Some l ->
  ref_ok (heap s) (Annotations (bMeta bundle)) ->
  faults (world s) = [] ->
  (forall d, In d (Decisions decision) ->
     holds (ClusterName d) (Name (bMeta bundle)) (works (world s)) = true) ->
  exists s',
    scheduleBundle bundle decision s = (Val None, s')
    /\ map key_of (works (world s')) = map key_of (works (world s))
    /\ (forall d y', In d (Decisions decision) -> In y' (works (world s')) ->
          targeted bundle d y' = true ->
          mSpec y' = bSpec bundle
          /\ Labels (mMeta y') = Some L
          /\ Annotations (mMeta y') = A
          /\ exists x, In x (works (world s))
               /\ targeted bundle d x = true
               /\ mType y' = mType x
               /\ UID (mMeta y') = UID (mMeta x)
               /\ Finalizers (mMeta y') = Finalizers (mMeta x)
               /\ DeletionTimestamp (mMeta y') = DeletionTimestamp (mMeta x))
    /\ (forall y', In y' (works (world s')) ->
          (forall d, In d (Decisions decision) -> targeted bundle d y' = false) ->
          In y' (works (world s))).
Proof.
  intros L A Hl Hm Hann Hok Hcalm Hheld.
  destruct (scheduleBundle_range_overwrites bundle l L A (Decisions decision)
              s m0 Hl Hm eq_refl Hann Hok eq_refl Hcalm Hheld)
    as (s' & Hrun & _ & _ & Hkeys & Hi & Hii).
  exists s'. split; [exact Hrun|]. split; [exact Hkeys|]. split.
  - intros d y' Hd Hy' Ht.
    destruct (Hii d y' Hd Hy' Ht) as (x & Hx & Htx & ->).
    repeat split. exists x. repeat split; auto.
  - intros y' Hy' Hnot.
    destruct (Hi y' Hy') as [Hin|(x & d & Hx & Hd & Ht & ->)]; [exact Hin|].
    specialize (Hnot d Hd). change (targeted bundle d x = false) in Hnot.
    congruence.
Qed.

Lemma scheduleBundle_overwrites_all_witness :
  let stale := Scenario.artifact "east" "b1" "old-owner" in
  let s := mkSt (Scenario.calm [Scenario.b1]
                   [mkPlacementDecision (pMeta Scenario.pd1) [mkClusterDecision "east" ""]]
                   [stale])
                Scenario.b1_heap in
  exists s',
    scheduleBundle Scenario.b1_mem
      (mkPlacementDecision (pMeta Scenario.pd1) [mkClusterDecision "east" ""]) s
    = (Val None, s')
    /\ map key_of (works (world s')) = [("east", "b1")].
Proof.
  intros stale s.
  destruct (scheduleBundle_overwrites_all Scenario.b1_mem
              (mkPlacementDecision (pMeta Scenario.pd1) [mkClusterDecision "east" ""])
              s 0 {[PlacementLabel := "p1"]})
    as (s' & Hrun & Hkeys & _).
  - reflexivity.
  - reflexivity.
  - discriminate.
  - exact I.
  - reflexivity.
  - intros d [<-|[]]. reflexivity.
  - exists s'. split; [exact Hrun|exact Hkeys].
Defined.

(** Two stores with the same keys, one artifact per key, are equal as soon
    as every artifact of the one is in the other. *)
Lemma same_keys_same_store (ws' ws : list StoredWork) :
  map key_of ws' = map key_of ws ->
  List.NoDup (map key_of ws) ->
  (forall y', In y' ws' -> In y' ws) ->
  ws' = ws.
Proof.
  revert ws. induction ws' as [|y' ws' IH]; intros [|y ws]; cbn [map];
    try discriminate; auto.
  intros Heq Hnd Hin.
  assert (Hk : key_of y' = key_of y) by congruence.
  assert (Hks : map key_of ws' = map key_of ws) by congruence.
  clear Heq.
  apply List.NoDup_cons_iff in Hnd as [Hnotin Hnd].
  assert (y' = y).
  { destruct (Hin y' (or_introl eq_refl)) as [->|Hy']; [reflexivity|].
    exfalso. apply Hnotin. rewrite <- Hk. now apply List.in_map. }
  subst y'. f_equal. apply IH; auto.
  intros z Hz. destruct (Hin z (or_intror Hz)) as [<-|Hz']; [|exact Hz'].
  exfalso. apply Hnotin. rewrite <- Hks. now apply List.in_map.
Qed.

(** Convergence over a store that is already converged. *)
Lemma scheduleBundle_on_converged
    (bundle : AppBundle) (decision : PlacementDecision) (s : St)
    (l : loc) (m0 : gmap string string) :
  let L := <[OwnedLabel := UID (bMeta bundle)]> m0 in
  let A := map_val (heap s) (Annotations (bMeta bundle)) in
  Labels (bMeta bundle) = Some l ->
  heap s !! l = Some m0 ->
  Annotations (bMeta bundle) <> Some l ->
  ref_ok (heap s) (Annotations (bMeta bundle)) ->
  faults (world s) = [] ->
  List.NoDup (map key_of (works (world s))) ->
  (forall d, In d (Decisions decision) ->
     holds (ClusterName d) (Name (bMeta bundle)) (works (world s)) = true) ->
  (forall d x, In d (Decisions decision) -> In x (works (world s)) ->
     targeted bundle d x = true ->
     mSpec x = bSpec bundle
     /\ Labels (mMeta x) = Some L
     /\ Annotations (mMeta x) = A) ->
  exists s',
    scheduleBundle bundle decision s = (Val None, s')
    /\ works (world s') = works (world s).
Proof.
  intros L A Hl Hm Hann Hok Hcalm Hnd Hheld Hconv.
  destruct (scheduleBundle_range_overwrites bundle l L A (Decisions decision)
              s m0 Hl Hm eq_refl Hann Hok eq_refl Hcalm Hheld)
    as (s' & Hrun & _ & _ & Hkeys & Hi & _).
  exists s'. split; [exact Hrun|].
  apply same_keys_same_store; auto.
  intros y' Hy'.
  destruct (Hi y' Hy') as [Hin|(x & d & Hx & Hd & Ht & ->)]; [exact Hin|].
  destruct (Hconv d x Hd Hx Ht) as (H1 & H2 & H3).
  replace (overwritten (bSpec bundle) (Some L) A x) with x; [exact Hx|].
  unfold overwritten. rewrite <- H1, <- H2, <- H3.
  destruct x as [ty [nm ns uid lb an fin dt] sp]. reflexivity.
Qed.

(** X17.  Convergence is idempotent on a converged store.  When no call
    fails, the store holds one artifact per key, every target holds the
    Bundle's artifact, and each of these already has the Bundle's payload,
    its labels plus the ownership label, and its annotations, then
    convergence returns success and the work store is exactly as before. *)
Theorem scheduleBundle_idempotent
    (bundle : AppBundle) (decision : PlacementDecision) (s : St)
    (l : loc) (m0 : gmap string string) :
  let L := <[OwnedLabel := UID (bMeta bundle)]> m0 in
  let A := map_val (heap s) (Annotations (bMeta bundle)) in
  Labels (bMeta bundle) = Some l ->
  heap s !! l = Some m0 ->
  Annotations (bMeta bundle) <> Some l ->
  ref_ok (heap s) (Annotations (bMeta bundle)) ->
  faults (world s) = [] ->
  List.NoDup (map key_of (works (world s))) ->
  (forall d, In d (Decisions decision) ->
     holds (ClusterName d) (Name (bMeta bundle)) (works (world s)) = true) ->
  (forall d x, In d (Decisions decision) -> In x (works (world s)) ->
     targeted bundle d x = true ->
     mSpec x = bSpec bundle
     /\ Labels (mMeta x) = Some L
     /\ Annotations (mMeta x) = A) ->
  exists s',
    scheduleBundle bundle decision s = (Val None, s')
    /\ works (world s') = works (world s).
Proof. exact (scheduleBundle_on_converged bundle decision s l m0). Qed.


Lemma scheduleBundle_idempotent_witness :
  let converged :=
    synthesized Scenario.b1_mem "east"
      (Some (<[OwnedLabel := "u1"]> {[PlacementLabel := "p1"]})) None in
  let decision :=
    mkPlacementDecision (pMeta Scenario.pd1) [mkClusterDecision "east" ""] in
  let s := mkSt (Scenario.calm [Scenario.b1] [decision] [converged])
                Scenario.b1_heap in
  exists s',
    scheduleBundle Scenario.b1_mem decision s = (Val None, s')
    /\ works (world s') = [converged].
Proof.
  intros converged decision s.
  destruct (scheduleBundle_idempotent Scenario.b1_mem decision s
              0 {[PlacementLabel := "p1"]})
    as (s' & Hrun & Hw).
  - reflexivity.
  - reflexivity.
  - discriminate.
  - exact I.
  - reflexivity.
  - simpl. repeat constructor. simpl. tauto.
  - intros d [<-|[]]. reflexivity.
  - intros d x [<-|[]] [<-|[]] _. repeat split.
  - exists s'. split; [exact Hrun|exact Hw].
Defined.


(** ** A converged Bundle is a fixed point of the reconciliation *)

(** The maps of the Bundle that [r.Get] has decoded. *)
Lemma got_bundle_maps (h : Heap) (sb : StoredBundle) (m0 : gmap string string) :
  Labels (bMeta sb) = Some m0 ->
  exists l,
    Labels (bMeta (got_bundle h sb)) = Some l
    /\ got_heap h sb !! l = Some m0
    /\ Annotations (bMeta (got_bundle h sb)) <> Some l
    /\ ref_ok (got_heap h sb) (Annotations (bMeta (got_bundle h sb)))
    /\ map_val (got_heap h sb) (Annotations (bMeta (got_bundle h sb)))
       = Annotations (bMeta sb).
Proof.
  intros Hlab.
  destruct (got_roundtrip h sb) as [Hrt _]. specialize (Hrt []).
  rewrite app_nil_r in Hrt.
  pose proof (f_equal (fun x => Labels (bMeta x)) Hrt) as HL.
  pose proof (f_equal (fun x => Annotations (bMeta x)) Hrt) as HA.
  simpl in HL, HA. rewrite Hlab in HL.
  assert (Hshape : Labels (bMeta (got_bundle h sb)) = Some (List.length h)
                   /\ Annotations (bMeta (got_bundle h sb))
                      = match Annotations (bMeta sb) with
                        | Some _ => Some (S (List.length h))
                        | None => None
                        end).
  { unfold got_bundle, decode_bundle, decode_meta. rewrite Hlab. simpl.
    destruct (Annotations (bMeta sb)); simpl; rewrite ?length_app; simpl;
      split; try reflexivity; f_equal; lia. }
  destruct Hshape as [Hl Ha].
  exists (List.length h). rewrite Hl in HL. simpl in HL.
  split; [exact Hl|]. split; [exact HL|]. split; [|split; [|exact HA]].
  - rewrite Ha. destruct (Annotations (bMeta sb)); [|discriminate].
    intros [= E]. lia.
  - rewrite Ha in *. destruct (Annotations (bMeta sb)) as [am|]; [|exact I].
    simpl in *. eapply lookup_lt_Some. exact HA.
Qed.

Lemma decision_list_calm_eq (ns : string) (sel : Selector) (w : World) :
  faults w = [] ->
  decision_list ns sel w
  = (Ok (List.filter (fun d => bool_decide (Namespace (pMeta d) = ns)
                               && Selector_Matches sel (Labels (pMeta d)))
           (decisions w)),
     record_call (DecisionList ns sel) w).
Proof.
  intros H. unfold decision_list. now rewrite api_calm by exact H.
Qed.

(** X18.  A converged Bundle is a fixed point.  When no call fails, the
    Bundle is not being deleted and carries the finalizer, its placement
    resolves, the work store holds one artifact per key, and every target
    of the decision holds the Bundle's artifact with the Bundle's payload,
    its labels plus the ownership label, and its annotations, then the
    reconciliation returns success and leaves both the Bundle store and the
    work store exactly as they were. *)
Theorem Reconcile_converged_is_stable
    (DF : string) (IC : error -> option error) (req : Request) (s : St)
    (sb : StoredBundle) (m0 : gmap string string) (p : string)
    (pd : PlacementDecision) (pds : list PlacementDecision) :
  let out := Reconcile DF IC req s in
  faults (world s) = [] ->
  find (fun b => has_key (req_Namespace req) (req_Name req) (bMeta b))
    (bundles (world s)) = Some sb ->
  IsZero (DeletionTimestamp (bMeta sb)) = true ->
  containsString (Finalizers (bMeta sb)) DF = true ->
  Labels (bMeta sb) = Some m0 ->
  m0 !! PlacementLabel = Some p ->
  List.filter (carries_placement p (req_Namespace req)) (decisions (world s))
    = pd :: pds ->
  List.NoDup (map key_of (works (world s))) ->
  (forall d, In d (Decisions pd) ->
     holds (ClusterName d) (Name (bMeta sb)) (works (world s)) = true) ->
  (forall d x, In d (Decisions pd) -> In x (works (world s)) ->
     has_key (ClusterName d) (Name (bMeta sb)) (mMeta x) = true ->
     mSpec x = bSpec sb
     /\ Labels (mMeta x) = Some (<[OwnedLabel := UID (bMeta sb)]> m0)
     /\ Annotations (mMeta x) = Annotations (bMeta sb)) ->
  fst out = Val None
  /\ works (world (snd out)) = works (world s)
  /\ bundles (world (snd out)) = bundles (world s).
Proof.
  intros out Hcalm Hfind Hlive Hfin Hlab Hp Hpd Hnd Hheld Hconv. subst out.
  pose proof (bundle_get_found _ _ _ _ Hcalm Hfind) as Hget.
  destruct (Reconcile DF IC req s) as [r0 s0] eqn:E. revert E.
  rewrite (Reconcile_unfold DF IC req s sb _ Hget). rewrite Hlive, Hfin. simpl.
  destruct (got_bundle_fields (heap s) sb) as (Hname & _ & Hspec & Hlabel).
  specialize (Hlabel []). rewrite app_nil_r in Hlabel.
  rewrite Hlab in Hlabel. simpl in Hlabel. rewrite Hp in Hlabel.
  destruct (got_bundle_maps (heap s) sb m0 Hlab) as (l & Hl & Hm & Hann & Hok & HA).
  assert (Huid : UID (bMeta (got_bundle (heap s) sb)) = UID (bMeta sb)).
  { destruct (got_roundtrip (heap s) sb) as [Hrt _].
    exact (f_equal (fun x => UID (bMeta x)) (Hrt [])). }
  rewrite Reconcile_placement_unfold. simpl. rewrite Hlabel.
  unfold getPlacementDecision, bind at 1, klog_Infof at 1, on_world at 1. simpl.
  unfold bind at 1, PlacementDecisions_List, on_world at 1. simpl.
  rewrite decision_list_calm_eq by exact Hcalm. simpl.
  rewrite (List.filter_ext _ (carries_placement p (req_Namespace req)))
    by (intros d; apply selector_carries).
  rewrite Hpd. unfold ret at 1. simpl.
  destruct (Nat.ltb _ _); [|intros [= <- <-]; simpl; auto].
  match goal with
  | |- context [scheduleBundle _ _ ?st] =>
      destruct (scheduleBundle_on_converged (got_bundle (heap s) sb) pd st l m0)
        as (s' & Hrun & Hw)
  end; simpl; auto.
  - intros d Hd. rewrite Hname. now apply Hheld.
  - intros d x Hd Hx Ht. unfold targeted in Ht. rewrite Hname in Ht.
    destruct (Hconv d x Hd Hx Ht) as (H1 & H2 & H3).
    rewrite Hspec, Huid, HA. auto.
  - rewrite Hrun. intros [= <- <-]. simpl.
    split; [reflexivity|]. split; [exact Hw|].
    unfold scheduleBundle in Hrun.
    apply scheduleBundle_range_calls in Hrun as (Hb & _). exact Hb.
Qed.

Lemma Reconcile_converged_is_stable_witness :
  let converged x := synthesized Scenario.b1_mem x
      (Some (<[OwnedLabel := "u1"]> {[PlacementLabel := "p1"]})) None in
  let s := start (Scenario.calm [Scenario.b1] [Scenario.pd1]
                    [converged "east"; converged "west"]) in
  let out := Reconcile Scenario.finalizer IgnoreConflict_spec Scenario.request s in
  fst out = Val None
  /\ works (world (snd out)) = [converged "east"; converged "west"].
Proof.
  intros converged s out.
  destruct (Reconcile_converged_is_stable Scenario.finalizer IgnoreConflict_spec
              Scenario.request s Scenario.b1 {[PlacementLabel := "p1"]} "p1"
              Scenario.pd1 [])
    as (H1 & H2 & _).
  - reflexivity.
  - reflexivity.
  - reflexivity.
  - reflexivity.
  - reflexivity.
  - reflexivity.
  - vm_compute. reflexivity.
  - simpl. repeat constructor; simpl; intuition discriminate.
  - intros d [<-|[<-|[]]]; reflexivity.
  - intros d x [<-|[<-|[]]] [<-|[<-|[]]] Hk; try discriminate Hk; repeat split.
  - split; assumption.
Defined.
